(** * LearnQwest ADA pipeline: decomposition, wave scheduling, routing,
    coordination and synthesis.

    A shallow embedding of the Python sources
      - [ada_task_decomposer.py]    (TaskDecomposer, SubTask, TaskPlan)
      - [ada_coordinator.py]        (ExecutionStrategy, ADACoordinator)
      - [ada_orchestrator.py]       (RoutingSpine, FeedbackLoop)
      - [ada_output_synthesizer.py] (OutputSynthesizer, IonOutput, SynthesizedReport)
    followed by the properties of the specification that concern them.

    Conventions of the embedding.
      - Python [str] is [string]; texts are ASCII, so [str.lower] only touches
        the letters A-Z.
      - Python [int] is [Z]; a [float] is an exact rational of [Q], the
        rounding of binary floating point being left out; a [dict] with
        string keys is a [gmap string _] (equality of dicts is extensional,
        like equality of gmaps); a [set] of strings is a [gset string].
      - Instants and durations are whole microseconds, the resolution of
        [datetime]. Computation takes no time; awaiting an executor takes the
        latency of its call.
      - A [while] loop is a fixpoint on a fuel argument; the result type [run]
        separates a normal return from a raised exception and from running
        out of fuel, and every loop is proved to return with the fuel it is
        given.
      - Mutable objects (the decomposer's counter, the feedback store, the
        routes, the clock, standard output) are threaded explicitly.
      - [verbose] and [trace] are off, as by default. *)

From Stdlib Require Import Ascii String ZArith QArith Qround Lqa.
From stdpp Require Import base tactics option list sorting gmap strings pretty.

#[local] Set Warnings "-clear-no-such-hyp".

Local Open Scope string_scope.
Local Open Scope Z_scope.
Local Open Scope list_scope.

(** ** Outcomes of running Python code *)

(** The exceptions of the model; all are of class [Exception], which is what
    the handlers of the code catch. *)
Inductive exn : Type :=
| ValueError
| StopIteration
| TimeoutError
| Exception (msg : string).

Inductive run (A : Type) : Type :=
| Done (a : A)
| Raise (e : exn)
| OutOfFuel.
Arguments Done {A} a.
Arguments Raise {A} e.
Arguments OutOfFuel {A}.

#[global] Instance run_ret : MRet run := fun A a => Done a.

#[global] Instance run_bind : MBind run := fun A B k m =>
  match m with
  | Done a => k a
  | Raise e => Raise e
  | OutOfFuel => OutOfFuel
  end.

(** [str(e)] *)
Definition exn_str (e : exn) : string :=
  match e with
  | ValueError => "list.remove(x): x not in list"
  | StopIteration => ""
  | TimeoutError => ""
  | Exception msg => msg
  end.

(** ** Python strings *)

Definition is_upper (c : ascii) : bool :=
  let n := nat_of_ascii c in (65 <=? n)%nat && (n <=? 90)%nat.

Definition lower_ascii (c : ascii) : ascii :=
  if is_upper c then ascii_of_nat (nat_of_ascii c + 32) else c.

(** [s.lower()] *)
Fixpoint lower (s : string) : string :=
  match s with
  | EmptyString => EmptyString
  | String c s' => String (lower_ascii c) (lower s')
  end.

(** [s.startswith(p)] *)
Fixpoint startswith (p s : string) : bool :=
  match p, s with
  | EmptyString, _ => true
  | String a p', String b s' => bool_decide (a = b) && startswith p' s'
  | String _ _, EmptyString => false
  end.

(** [sub in s] *)
Fixpoint contains (sub s : string) : bool :=
  startswith sub s ||
  match s with
  | EmptyString => false
  | String _ s' => contains sub s'
  end.

(** [any(w in s for w in ws)] *)
Definition any_in (ws : list string) (s : string) : bool :=
  existsb (fun w => contains w s) ws.

(** Whitespace as [str.split()] and [str.strip()] see it on ASCII text. *)
Definition is_space (c : ascii) : bool :=
  let n := nat_of_ascii c in
  ((9 <=? n)%nat && (n <=? 13)%nat) || ((28 <=? n)%nat && (n <=? 32)%nat).

(** [s.split()]: maximal runs of non-whitespace characters. *)
Fixpoint split_go (cur : option string) (s : string) : list string :=
  match s with
  | EmptyString => option_list (String.rev <$> cur)
  | String c s' =>
      if is_space c
      then option_list (String.rev <$> cur) ++ split_go None s'
      else split_go (Some (String c (default EmptyString cur))) s'
  end.

Definition py_split (s : string) : list string := split_go None s.

(** [sep.join(ws)] *)
Fixpoint py_join (sep : string) (ws : list string) : string :=
  match ws with
  | [] => ""
  | [w] => w
  | w :: ws' => w +:+ sep +:+ py_join sep ws'
  end.

(** The last character of [s.strip()], when there is one. *)
Fixpoint last_nonspace (acc : option ascii) (s : string) : option ascii :=
  match s with
  | EmptyString => acc
  | String c s' => last_nonspace (if is_space c then acc else Some c) s'
  end.

(** [s.strip().endswith(c)] for a single non-space character [c]. *)
Definition strip_endswith (c : ascii) (s : string) : bool :=
  bool_decide (last_nonspace None s = Some c).

(** [l[-n:]] *)
Definition last_n {A : Type} (n : nat) (l : list A) : list A :=
  drop (length l - n)%nat l.

(** [f"{n:03d}"] for a non-negative counter. *)
Definition fmt_03d (n : nat) : string :=
  let d := pretty n in
  match String.length d with
  | 0%nat => "000" +:+ d
  | 1%nat => "00" +:+ d
  | 2%nat => "0" +:+ d
  | _ => d
  end.

(** ** Python values held in dictionaries *)

Inductive pyval : Type :=
| VNone
| VBool (b : bool)
| VInt (z : Z)
| VStr (s : string)
| VList (l : list string).

#[global] Instance pyval_eq_dec : EqDecision pyval.
Proof. solve_decision. Defined.

(** Truth value of an object, as [or] and [if] test it. *)
Definition truthy (v : pyval) : bool :=
  match v with
  | VNone => false
  | VBool b => b
  | VInt z => negb (z =? 0)
  | VStr s => negb (bool_decide (s = ""))
  | VList l => negb (bool_decide (l = []))
  end.

(** [a or b] *)
Definition py_or (a b : pyval) : pyval := if truthy a then a else b.

(** [str(v)], as an f-string formats a value; list items are shown quoted,
    without escapes. *)
Definition py_str (v : pyval) : string :=
  match v with
  | VNone => "None"
  | VBool true => "True"
  | VBool false => "False"
  | VInt z => pretty z
  | VStr s => s
  | VList l => "[" +:+ py_join ", " ((fun s => "'" +:+ s +:+ "'") <$> l) +:+ "]"
  end.

(** [d.get(k)] and [d.get(k, dflt)] *)
Definition dict_get (k : string) (d : gmap string pyval) : pyval :=
  default VNone (d !! k).

Definition dict_get_or (k : string) (dflt : pyval) (d : gmap string pyval) : pyval :=
  default dflt (d !! k).

(** A dict display [{k1: v1, ..., kn: vn}]: later keys override earlier ones. *)
Definition dict_of (kvs : list (string * pyval)) : gmap string pyval :=
  foldl (fun d kv => <[kv.1 := kv.2]> d) ∅ kvs.

(** ** ada_task_decomposer.py *)

(** [class TaskPattern(Enum)] *)
Inductive TaskPattern : Type :=
| CODEBASE_ANALYSIS
| CONTENT_RESEARCH
| PROJECT_STATUS
| CODE_CLEANUP
| LEARNING_MATERIALS
| QUALITY_ASSESSMENT
| REFACTORING
| DOCUMENTATION
| DUPLICATE_DETECTION
| DEAD_CODE_ANALYSIS
| CODE_ORGANIZATION
| CONTENT_EXTRACTION
| QUIZ_GENERATION
| CUSTOM.

#[global] Instance TaskPattern_eq_dec : EqDecision TaskPattern.
Proof. solve_decision. Defined.

(** [pattern.value] *)
Definition pattern_value (p : TaskPattern) : string :=
  match p with
  | CODEBASE_ANALYSIS => "analyze_codebase"
  | CONTENT_RESEARCH => "research_topic"
  | PROJECT_STATUS => "project_status"
  | CODE_CLEANUP => "code_cleanup"
  | LEARNING_MATERIALS => "create_learning"
  | QUALITY_ASSESSMENT => "assess_quality"
  | REFACTORING => "refactor_code"
  | DOCUMENTATION => "generate_docs"
  | DUPLICATE_DETECTION => "find_duplicates"
  | DEAD_CODE_ANALYSIS => "find_dead_code"
  | CODE_ORGANIZATION => "organize_code"
  | CONTENT_EXTRACTION => "extract_content"
  | QUIZ_GENERATION => "generate_quiz"
  | CUSTOM => "custom"
  end.

(** [@dataclass class SubTask]; [depends_on] holds task ids. *)
Record SubTask : Type := mkSubTask {
  task_id : string;
  ion_name : string;
  description : string;
  input_data : gmap string pyval;
  priority : Z;
  depends_on : list string;
  can_parallelize : bool;
  estimated_time_seconds : Z
}.

#[global] Instance SubTask_eq_dec : EqDecision SubTask.
Proof. solve_decision. Defined.

(** [@dataclass class TaskPlan] *)
Record TaskPlan : Type := mkTaskPlan {
  original_request : string;
  pattern : TaskPattern;
  subtasks : list SubTask;
  plan_estimated_time_seconds : Z;
  requires_synthesis : bool;
  parallel_groups : list (list string)
}.

(** [TaskDecomposer._identify_pattern]: an ordered chain of keyword tests, the
    first that holds decides. *)
Definition _identify_pattern (task : string) : TaskPattern :=
  let task_lower := lower task in
  if any_in ["duplicate"; "duplicates"; "repeated"; "redundant"; "copy"; "copies"] task_lower
     || any_in ["find duplicate"; "duplicate code"; "duplicate patterns"; "similar code"] task_lower
  then DUPLICATE_DETECTION
  else if any_in ["dead code"; "unused code"; "unreachable"; "identify unused"; "find unused"] task_lower
     || ((contains "unused" task_lower || contains "dead" task_lower) && contains "code" task_lower)
  then DEAD_CODE_ANALYSIS
  else if any_in ["code organization"; "organize code"; "group code"; "structure code";
                  "analyze organization"; "analyze code organization"] task_lower
     || (contains "code" task_lower && any_in ["group"; "structure"; "arrange"] task_lower)
  then CODE_ORGANIZATION
  else if contains "quiz" task_lower || contains "test questions" task_lower
  then QUIZ_GENERATION
  else if any_in ["questions"; "teach"; "explain"; "lesson"; "study"; "learn"] task_lower
     && negb (any_in ["research"; "search"] task_lower)
  then LEARNING_MATERIALS
  else if any_in ["analyze"; "audit"; "assess"; "review"] task_lower
     && any_in ["codebase"; "code"; "repository"; "project"; "files"] task_lower
  then CODEBASE_ANALYSIS
  else if any_in ["status"; "where am i"; "what was i"; "context"; "working on"; "yesterday"] task_lower
  then PROJECT_STATUS
  else if any_in ["clean"; "cleanup"; "tidy"] task_lower
  then CODE_CLEANUP
  else if any_in ["refactor"; "restructure"; "improve code"; "optimize code";
                  "refactoring plan"; "generate refactoring"] task_lower
  then REFACTORING
  else if any_in ["quality"; "score"; "rate"; "evaluate"] task_lower
     && any_in ["content"; "video"; "article"; "resource"] task_lower
  then QUALITY_ASSESSMENT
  else if any_in ["extract"; "pull content"; "get content"; "transcript"] task_lower
  then CONTENT_EXTRACTION
  else if any_in ["document"; "docs"; "readme"; "guide"] task_lower
  then DOCUMENTATION
  else if any_in ["research"; "search"; "learn about"; "discover"; "look up"] task_lower
  then CONTENT_RESEARCH
  else if contains "find" task_lower
  then CONTENT_RESEARCH
  else CUSTOM.

(** [TaskDecomposer._generate_task_id]: bumps [self.task_counter] (the second
    component) and formats the id. *)
Definition _generate_task_id (ion : string) (task_counter : nat) : string * nat :=
  let task_counter := S task_counter in
  (ion +:+ "_" +:+ fmt_03d task_counter, task_counter).

(** The double quote (code 34) and the apostrophe (code 39). *)
Definition is_quote (c : ascii) : bool :=
  let n := nat_of_ascii c in (n =? 34)%nat || (n =? 39)%nat.

(** The longest prefix free of quote characters, and what follows it. *)
Fixpoint span_unquoted (s : string) : string * string :=
  match s with
  | EmptyString => (EmptyString, EmptyString)
  | String c s' =>
      if is_quote c then (EmptyString, s)
      else let '(run, rest) := span_unquoted s' in (String c run, rest)
  end.

(** [re.search] for the pattern quote, one or more non-quote characters, quote
    (either quote character at both ends); the result is group 1 of the
    leftmost match. The run is greedy and is closed by the first quote after
    it, so a match at a given opening quote exists exactly when the maximal
    quote-free run after it is non-empty and is followed by a quote. *)
Fixpoint search_quoted (s : string) : option string :=
  match s with
  | EmptyString => None
  | String c s' =>
      if is_quote c then
        match span_unquoted s' with
        | (String a run, String _ _) => Some (String a run)
        | _ => search_quoted s'
        end
      else search_quoted s'
  end.

(** [TaskDecomposer._extract_path] *)
Definition _extract_path (task : string) : pyval :=
  if contains "learnqwest" (lower task) then VStr "./"
  else match search_quoted task with
       | Some p => VStr p
       | None => VNone
       end.

Definition stop_words : list string :=
  ["about"; "on"; "for"; "the"; "a"; "an"; "create"; "generate"; "make"; "quiz"; "questions"].

(** [TaskDecomposer._extract_topic] *)
Definition _extract_topic (task : string) : string :=
  let words := py_split (lower task) in
  let topic_words :=
    filter (fun w => (w ∉ stop_words) ∧ (2 < String.length w)%nat) words in
  if bool_decide (topic_words = []) then "general topic"
  else py_join " " (last_n 3 topic_words).

(** [context.get("path") or self._extract_path(task) or "./"] *)
Definition path_of (task : string) (context : gmap string pyval) : pyval :=
  py_or (py_or (dict_get "path" context) (_extract_path task)) (VStr "./").

(** [context.get("topic") or self._extract_topic(task)] *)
Definition topic_of (task : string) (context : gmap string pyval) : pyval :=
  py_or (dict_get "topic" context) (VStr (_extract_topic task)).

(** The subtask builders. Each takes the request, the context and the current
    value of [self.task_counter], and returns the subtasks with the counter
    after the ids were drawn. *)

Definition _decompose_codebase_analysis (task : string) (context : gmap string pyval)
    (c : nat) : list SubTask * nat :=
  let path := path_of task context in
  let '(dup_id, c) := _generate_task_id "duplicate-detector" c in
  let dup_task := mkSubTask dup_id "duplicate-detector" "Find duplicate code patterns"
    (dict_of [("path", path); ("min_lines", VInt 6); ("output", VStr "duplicates.json")])
    2 [] true 5 in
  let '(dead_id, c) := _generate_task_id "dead-code-eliminator" c in
  let dead_task := mkSubTask dead_id "dead-code-eliminator" "Identify unused code"
    (dict_of [("path", path); ("output", VStr "dead_code.json")])
    2 [] true 5 in
  let '(group_id, c) := _generate_task_id "code-grouper" c in
  let group_task := mkSubTask group_id "code-grouper" "Analyze code organization"
    (dict_of [("path", path); ("output", VStr "groups.json")])
    3 [] true 8 in
  let '(refactor_id, c) := _generate_task_id "refactor-planner" c in
  let refactor_task := mkSubTask refactor_id "refactor-planner"
    "Generate refactoring recommendations"
    (dict_of [("path", path); ("duplicates", VStr "duplicates.json");
              ("dead_code", VStr "dead_code.json"); ("groups", VStr "groups.json");
              ("output", VStr "refactor_plan.json")])
    1 [task_id dup_task; task_id dead_task; task_id group_task] false 10 in
  ([dup_task; dead_task; group_task; refactor_task], c).

Definition _decompose_content_research (task : string) (context : gmap string pyval)
    (c : nat) : list SubTask * nat :=
  let topic := topic_of task context in
  let max_results := dict_get_or "max_results" (VInt 10) context in
  let '(search_id, c) := _generate_task_id "omnisearch" c in
  let search_task := mkSubTask search_id "omnisearch"
    ("Search for content about " +:+ py_str topic)
    (dict_of [("query", topic); ("sources", VList ["youtube"; "web"]);
              ("max_results", max_results); ("output", VStr "search_results.json")])
    1 [] true 15 in
  let '(quality_id, c) := _generate_task_id "quality-assessor" c in
  let quality_task := mkSubTask quality_id "quality-assessor" "Assess content quality"
    (dict_of [("input", VStr "search_results.json"); ("mode", VStr "testing");
              ("output", VStr "quality_scores.json")])
    2 [task_id search_task] false 2 in
  ([search_task; quality_task], c).

Definition _decompose_project_status (task : string) (context : gmap string pyval)
    (c : nat) : list SubTask * nat :=
  let lookback_hours := dict_get_or "lookback_hours" (VInt 24) context in
  let '(status_id, c) := _generate_task_id "context-builder" c in
  let status_task := mkSubTask status_id "context-builder"
    "Build project context from logs and git"
    (dict_of [("lookback_hours", lookback_hours);
              ("sources", VList ["ada_logs"; "git"; "files"]); ("output", VStr "context.json")])
    1 [] true 2 in
  ([status_task], c).

Definition _decompose_code_cleanup (task : string) (context : gmap string pyval)
    (c : nat) : list SubTask * nat :=
  let path := path_of task context in
  let '(dup_id, c) := _generate_task_id "duplicate-detector" c in
  let dup_task := mkSubTask dup_id "duplicate-detector" "Find duplicates to consolidate"
    (dict_of [("path", path); ("output", VStr "duplicates.json")])
    1 [] true 5 in
  let '(dead_id, c) := _generate_task_id "dead-code-eliminator" c in
  let dead_task := mkSubTask dead_id "dead-code-eliminator" "Find code to remove"
    (dict_of [("path", path); ("output", VStr "dead_code.json")])
    1 [] true 5 in
  let '(plan_id, c) := _generate_task_id "refactor-planner" c in
  let plan_task := mkSubTask plan_id "refactor-planner" "Plan cleanup actions"
    (dict_of [("path", path); ("duplicates", VStr "duplicates.json");
              ("dead_code", VStr "dead_code.json"); ("output", VStr "cleanup_plan.json")])
    2 [task_id dup_task; task_id dead_task] false 10 in
  ([dup_task; dead_task; plan_task], c).

(** The quiz subtask shared by [_decompose_learning_materials] and
    [_decompose_quiz_generation], whose bodies are the same. *)
Definition quiz_subtask (task : string) (context : gmap string pyval)
    (c : nat) : list SubTask * nat :=
  let topic := topic_of task context in
  let num_questions := dict_get_or "num_questions" (VInt 5) context in
  let grade_level := dict_get_or "grade_level" (VStr "6-8") context in
  let '(quiz_id, c) := _generate_task_id "quiz-generator" c in
  let quiz_task := mkSubTask quiz_id "quiz-generator"
    ("Generate quiz about " +:+ py_str topic)
    (dict_of [("content", dict_get_or "content"
                 (VStr ("Educational content about " +:+ py_str topic)) context);
              ("topic", topic); ("num_questions", num_questions);
              ("grade_level", grade_level); ("output", VStr "quiz.json")])
    1 [] true 3 in
  ([quiz_task], c).

Definition _decompose_learning_materials := quiz_subtask.

Definition _decompose_quality_assessment (task : string) (context : gmap string pyval)
    (c : nat) : list SubTask * nat :=
  let input_file := dict_get_or "input_file" (VStr "content.json") context in
  let '(quality_id, c) := _generate_task_id "quality-assessor" c in
  let quality_task := mkSubTask quality_id "quality-assessor" "Assess content quality"
    (dict_of [("input", input_file); ("mode", VStr "testing");
              ("output", VStr "quality_assessment.json")])
    1 [] true 2 in
  ([quality_task], c).

Definition _decompose_refactoring (task : string) (context : gmap string pyval)
    (c : nat) : list SubTask * nat :=
  let path := path_of task context in
  let '(dup_id, c) := _generate_task_id "duplicate-detector" c in
  let dup_task := mkSubTask dup_id "duplicate-detector"
    "Find duplicate code patterns for refactoring consideration"
    (dict_of [("path", path); ("output", VStr "duplicates.json")])
    2 [] true 5 in
  let '(dead_id, c) := _generate_task_id "dead-code-eliminator" c in
  let dead_task := mkSubTask dead_id "dead-code-eliminator"
    "Identify unused code for removal recommendations"
    (dict_of [("path", path); ("output", VStr "dead_code.json")])
    2 [] true 5 in
  let '(grouper_id, c) := _generate_task_id "code-grouper" c in
  let grouper_task := mkSubTask grouper_id "code-grouper"
    "Analyze code organization for restructuring opportunities"
    (dict_of [("path", path); ("output", VStr "grouping.json")])
    2 [] true 8 in
  let '(refactor_id, c) := _generate_task_id "refactor-planner" c in
  let refactor_task := mkSubTask refactor_id "refactor-planner"
    "Generate comprehensive refactoring plan using analysis results"
    (dict_of [("path", path); ("duplicates", VStr "duplicates.json");
              ("dead_code", VStr "dead_code.json"); ("grouping", VStr "grouping.json");
              ("output", VStr "refactor_plan.json")])
    1 [task_id dup_task; task_id dead_task; task_id grouper_task] false 10 in
  ([dup_task; dead_task; grouper_task; refactor_task], c).

Definition _decompose_documentation (task : string) (context : gmap string pyval)
    (c : nat) : list SubTask * nat :=
  let path := path_of task context in
  let '(doc_id, c) := _generate_task_id "doc-generator" c in
  let doc_task := mkSubTask doc_id "doc-generator" "Generate documentation"
    (dict_of [("path", path); ("format", VStr "markdown"); ("output", VStr "docs/")])
    1 [] true 15 in
  ([doc_task], c).

Definition _decompose_duplicate_detection (task : string) (context : gmap string pyval)
    (c : nat) : list SubTask * nat :=
  let path := path_of task context in
  let '(dup_id, c) := _generate_task_id "duplicate-detector" c in
  let dup_task := mkSubTask dup_id "duplicate-detector" "Find duplicate code patterns"
    (dict_of [("path", path); ("min_lines", VInt 6); ("output", VStr "duplicates.json")])
    1 [] true 5 in
  ([dup_task], c).

Definition _decompose_dead_code_analysis (task : string) (context : gmap string pyval)
    (c : nat) : list SubTask * nat :=
  let path := path_of task context in
  let '(dead_id, c) := _generate_task_id "dead-code-eliminator" c in
  let dead_task := mkSubTask dead_id "dead-code-eliminator" "Find unused code"
    (dict_of [("path", path); ("output", VStr "dead_code.json")])
    1 [] true 5 in
  ([dead_task], c).

Definition _decompose_code_organization (task : string) (context : gmap string pyval)
    (c : nat) : list SubTask * nat :=
  let path := path_of task context in
  let '(org_id, c) := _generate_task_id "code-grouper" c in
  let org_task := mkSubTask org_id "code-grouper" "Analyze code organization"
    (dict_of [("path", path); ("output", VStr "groups.json")])
    1 [] true 8 in
  ([org_task], c).

Definition _decompose_content_extraction (task : string) (context : gmap string pyval)
    (c : nat) : list SubTask * nat :=
  let url := dict_get_or "url" (VStr "") context in
  let '(extract_id, c) := _generate_task_id "content-extractor" c in
  let extract_task := mkSubTask extract_id "content-extractor" "Extract content from source"
    (dict_of [("url", url); ("output", VStr "extracted_content.json")])
    1 [] true 10 in
  ([extract_task], c).

Definition _decompose_quiz_generation := quiz_subtask.

(** [{"task": task, **context}]: the context's own entries win. *)
Definition _decompose_custom (task : string) (context : gmap string pyval)
    (c : nat) : list SubTask * nat :=
  let '(custom_id, c) := _generate_task_id "general" c in
  let custom_task := mkSubTask custom_id "general" task
    (context ∪ {["task" := VStr task]})
    1 [] true 5 in
  ([custom_task], c).

(** [self.patterns.get(pattern, self._decompose_custom)] *)
Definition patterns (p : TaskPattern)
    : string -> gmap string pyval -> nat -> list SubTask * nat :=
  match p with
  | CODEBASE_ANALYSIS => _decompose_codebase_analysis
  | CONTENT_RESEARCH => _decompose_content_research
  | PROJECT_STATUS => _decompose_project_status
  | CODE_CLEANUP => _decompose_code_cleanup
  | LEARNING_MATERIALS => _decompose_learning_materials
  | QUALITY_ASSESSMENT => _decompose_quality_assessment
  | REFACTORING => _decompose_refactoring
  | DOCUMENTATION => _decompose_documentation
  | DUPLICATE_DETECTION => _decompose_duplicate_detection
  | DEAD_CODE_ANALYSIS => _decompose_dead_code_analysis
  | CODE_ORGANIZATION => _decompose_code_organization
  | CONTENT_EXTRACTION => _decompose_content_extraction
  | QUIZ_GENERATION => _decompose_quiz_generation
  | CUSTOM => _decompose_custom
  end.

(** [next(st for st in subtasks if st.task_id == tid)]; an exhausted generator
    raises [StopIteration]. *)
Definition next_subtask (tid : string) (subtasks : list SubTask) : run SubTask :=
  match List.find (fun st => bool_decide (task_id st = tid)) subtasks with
  | Some st => Done st
  | None => Raise StopIteration
  end.

(** [all(dep in completed for dep in task.depends_on)] *)
Definition deps_met (completed : gset string) (task : SubTask) : bool :=
  forallb (fun dep => bool_decide (dep ∈ completed)) (depends_on task).

(** The [for task_id in list(remaining)] loop of one round. *)
Fixpoint current_group_of (subtasks : list SubTask) (completed : gset string)
    (ids : list string) : run (list string) :=
  match ids with
  | [] => Done []
  | tid :: ids' =>
      task ← next_subtask tid subtasks;
      rest ← current_group_of subtasks completed ids';
      Done (if deps_met completed task then tid :: rest else rest)
  end.

(** The [while remaining] loop of [_calculate_parallel_groups]. A round without
    an eligible id leaves the loop ([break]): the ids still in [remaining] are
    in no group. [elements] fixes one order of iteration over the set; Python
    leaves that order open, and nothing below depends on it. *)
Fixpoint parallel_groups_loop (fuel : nat) (subtasks : list SubTask)
    (completed remaining : gset string) : run (list (list string)) :=
  if bool_decide (remaining = ∅) then Done []
  else match fuel with
       | O => OutOfFuel
       | S fuel' =>
           current_group ← current_group_of subtasks completed (elements remaining);
           if bool_decide (current_group = []) then Done []
           else
             groups ← parallel_groups_loop fuel' subtasks
                        (completed ∪ list_to_set current_group)
                        (remaining ∖ list_to_set current_group);
             Done (current_group :: groups)
       end.

(** [TaskDecomposer._calculate_parallel_groups] *)
Definition _calculate_parallel_groups (subtasks : list SubTask) : run (list (list string)) :=
  parallel_groups_loop (length subtasks) subtasks ∅ (list_to_set (task_id <$> subtasks)).

(** [max(xs, default=0)] *)
Definition max_default0 (xs : list Z) : Z :=
  match xs with
  | [] => 0
  | x :: xs' => foldl Z.max x xs'
  end.

(** [TaskDecomposer._estimate_total_time] *)
Definition _estimate_total_time (subtasks : list SubTask) (groups : list (list string)) : Z :=
  foldl (fun total group =>
           let group_tasks := filter (fun st => task_id st ∈ group) subtasks in
           total + max_default0 (estimated_time_seconds <$> group_tasks))
        0 groups.

(** [TaskDecomposer.decompose]; [context or {}] for an absent context. *)
Definition decompose (task : string) (context : option (gmap string pyval))
    (task_counter : nat) : run (TaskPlan * nat) :=
  let pattern := _identify_pattern task in
  let decompose_fn := patterns pattern in
  let '(subtasks, task_counter) := decompose_fn task (default ∅ context) task_counter in
  parallel_groups ← _calculate_parallel_groups subtasks;
  let estimated_time := _estimate_total_time subtasks parallel_groups in
  Done (mkTaskPlan task pattern subtasks estimated_time
          (bool_decide (1 < length subtasks)%nat) parallel_groups,
        task_counter).

(** ** ada_coordinator.py: ExecutionStrategy *)

(** [remaining.remove(task)]: drops the first element equal to [task];
    [ValueError] when there is none. *)
Fixpoint list_remove (task : SubTask) (remaining : list SubTask) : run (list SubTask) :=
  match remaining with
  | [] => Raise ValueError
  | t :: remaining' =>
      if bool_decide (t = task) then Done remaining'
      else rest ← list_remove task remaining'; Done (t :: rest)
  end.

(** The readiness test of [create_execution_plan]: no dependency, or every
    dependency in [completed]. *)
Definition is_ready (completed : gset string) (task : SubTask) : bool :=
  if bool_decide (depends_on task = []) then true
  else forallb (fun dep => bool_decide (dep ∈ completed)) (depends_on task).

(** [for task in ready: completed.add(task.ion_name); remaining.remove(task)] *)
Fixpoint mark_completed (ready : list SubTask) (completed : gset string)
    (remaining : list SubTask) : run (gset string * list SubTask) :=
  match ready with
  | [] => Done (completed, remaining)
  | task :: ready' =>
      let completed := completed ∪ {[ion_name task]} in
      remaining ← list_remove task remaining;
      mark_completed ready' completed remaining
  end.

(** The line printed when a round finds nothing ready. *)
Definition warn_unresolved (n : nat) : string :=
  "[WARN] Could not resolve dependencies, executing " +:+ pretty n +:+ " remaining tasks".

(** The [while remaining] loop of [create_execution_plan]. The result is the
    list of waves together with the lines printed on standard output. *)
Fixpoint execution_plan_loop (fuel : nat) (completed : gset string)
    (remaining : list SubTask) : run (list (list SubTask) * list string) :=
  if bool_decide (remaining = []) then Done ([], [])
  else match fuel with
       | O => OutOfFuel
       | S fuel' =>
           let ready := List.filter (is_ready completed) remaining in
           let '(ready, out) :=
             if bool_decide (ready = [])
             then (remaining, [warn_unresolved (length remaining)])
             else (ready, []) in
           '(completed, remaining) ← mark_completed ready completed remaining;
           '(waves, out') ← execution_plan_loop fuel' completed remaining;
           Done (ready :: waves, out ++ out')
       end.

(** [ExecutionStrategy.create_execution_plan] *)
Definition create_execution_plan (subtasks : list SubTask)
    : run (list (list SubTask) * list string) :=
  if bool_decide (subtasks = []) then Done ([], [])
  else execution_plan_loop (length subtasks) ∅ subtasks.

(** One insertion of a stable sort by ascending key: [x], which comes before
    every element of [l] in the original order, goes in front of the first
    element whose key is not smaller than its own. *)
Fixpoint insert_by {A : Type} (key : A -> Z) (x : A) (l : list A) : list A :=
  match l with
  | [] => [x]
  | y :: l' => if key y <? key x then y :: insert_by key x l' else x :: y :: l'
  end.

(** [sorted(l, key=key)]: the sort is stable. *)
Definition sorted_by {A : Type} (key : A -> Z) (l : list A) : list A :=
  foldr (fun x acc => insert_by key x acc) [] l.

(** [ExecutionStrategy.optimize_wave] *)
Definition optimize_wave (wave : list SubTask) : list SubTask :=
  sorted_by priority wave.

(** ** ada_orchestrator.py: RoutingSpine and FeedbackLoop *)

(** A Python [float] is an exact rational here: the rounding of binary
    floating point is not part of the model. *)

(** [class ContentType(Enum)] *)
Inductive ContentType : Type :=
| YOUTUBE_VIDEO
| CODE_FILE
| DOCUMENT
| QUESTION
| SEARCH_QUERY
| IMAGE
| UNKNOWN.

#[global] Instance ContentType_eq_dec : EqDecision ContentType.
Proof. solve_decision. Defined.

(** [class AgentCapability(Enum)] *)
Inductive AgentCapability : Type :=
| SEARCH
| ANALYZE
| GENERATE
| ASSESS
| REFACTOR
| EXPLAIN.

#[global] Instance AgentCapability_eq_dec : EqDecision AgentCapability.
Proof. solve_decision. Defined.

(** [@dataclass class AgentRoute]; the field [priority] is [route_priority]
    here, [priority] being taken by [SubTask]. *)
Record AgentRoute : Type := mkAgentRoute {
  agent_name : string;
  handles_content : list ContentType;
  capabilities : list AgentCapability;
  route_priority : Z;
  success_rate : Q
}.

(** [RoutingSpine.register_route] *)
Definition register_route (routes : list AgentRoute) (route : AgentRoute) : list AgentRoute :=
  routes ++ [route].

(** [RoutingSpine._register_default_routes]: the routes of a new spine, in
    the order of their registration, each with the default [success_rate]
    of 1.0. *)
Definition default_routes : list AgentRoute :=
  foldl register_route []
    [ mkAgentRoute "omnisearch" [SEARCH_QUERY; QUESTION] [SEARCH] 10 1;
      mkAgentRoute "quality-assessor" [DOCUMENT; CODE_FILE] [ASSESS; ANALYZE] 8 1;
      mkAgentRoute "duplicate-detector-ion" [CODE_FILE] [ANALYZE] 5 1;
      mkAgentRoute "refactor-planner-ion" [CODE_FILE] [REFACTOR; ANALYZE] 5 1;
      mkAgentRoute "claude-code" [CODE_FILE; QUESTION] [GENERATE; EXPLAIN; REFACTOR] 9 1;
      mkAgentRoute "youtube-extractor" [YOUTUBE_VIDEO] [ANALYZE; GENERATE] 10 1 ].

(** [RoutingSpine.detect_content_type] *)
Definition detect_content_type (content : string) : ContentType :=
  let content_lower := lower content in
  if contains "youtube.com" content_lower || contains "youtu.be" content_lower
  then YOUTUBE_VIDEO
  else if any_in [".py"; ".ts"; ".js"; ".tsx"; ".jsx"; ".java"; ".go"; ".rs"] content_lower
  then CODE_FILE
  else if any_in ["def "; "function "; "class "; "import "; "const "; "let "; "var "] content
  then CODE_FILE
  else if any_in ["find"; "search"; "look for"; "where is"; "how to find"] content_lower
  then SEARCH_QUERY
  else if strip_endswith "?" content
       || existsb (fun p => startswith p content_lower)
            ["what"; "how"; "why"; "when"; "where"; "who"]
  then QUESTION
  else if (500 <? String.length content)%nat
  then DOCUMENT
  else UNKNOWN.

(** [RoutingSpine.detect_required_capability] *)
Definition detect_required_capability (content : string) : AgentCapability :=
  let content_lower := lower content in
  if any_in ["search"; "find"; "look for"] content_lower then SEARCH
  else if any_in ["analyze"; "assess"; "evaluate"; "review"] content_lower then ANALYZE
  else if any_in ["generate"; "create"; "write"; "build"; "make"] content_lower then GENERATE
  else if any_in ["refactor"; "improve"; "optimize"; "fix"] content_lower then REFACTOR
  else if any_in ["explain"; "what is"; "how does"; "why"] content_lower then EXPLAIN
  else ANALYZE.

(** [content_type in route.handles_content] and
    [capability in route.capabilities] *)
Definition type_match (content_type : ContentType) (route : AgentRoute) : bool :=
  bool_decide (content_type ∈ handles_content route).

Definition capability_match (capability : AgentCapability) (route : AgentRoute) : bool :=
  bool_decide (capability ∈ capabilities route).

(** The score of a route that matches: [priority * success_rate], times two
    when both the content type and the capability match. *)
Definition route_score (content_type : ContentType) (capability : AgentCapability)
    (route : AgentRoute) : Q :=
  let score := (inject_Z (route_priority route) * success_rate route)%Q in
  if type_match content_type route && capability_match capability route
  then (score * 2)%Q
  else score.

(** The loop [for route in self.routes] of [route], which collects the pairs
    [(route.agent_name, score)] of the routes that match. *)
Fixpoint collect_matches (content_type : ContentType) (capability : AgentCapability)
    (routes : list AgentRoute) : list (string * Q) :=
  match routes with
  | [] => []
  | route :: routes' =>
      let rest := collect_matches content_type capability routes' in
      if type_match content_type route || capability_match capability route
      then (agent_name route, route_score content_type capability route) :: rest
      else rest
  end.

(** [x < y] on scores *)
Definition Qlt_bool (x y : Q) : bool := negb (Qle_bool y x).

(** One insertion of a stable sort by descending key: [x], which comes before
    every element of [l] in the original order, goes in front of the first
    element whose key is not larger than its own. *)
Fixpoint insert_desc {A : Type} (key : A -> Q) (x : A) (l : list A) : list A :=
  match l with
  | [] => [x]
  | y :: l' =>
      if Qlt_bool (key x) (key y) then y :: insert_desc key x l' else x :: y :: l'
  end.

(** [l.sort(key=key, reverse=True)]: Python's sort is stable, also with
    [reverse=True]. *)
Definition sort_desc {A : Type} (key : A -> Q) (l : list A) : list A :=
  foldr (insert_desc key) [] l.

(** [RoutingSpine.route]. Nothing in it can raise on a [str]. *)
Definition route (routes : list AgentRoute) (content : string) : list string :=
  let content_type := detect_content_type content in
  let capability := detect_required_capability content in
  let matches := collect_matches content_type capability routes in
  let matches := sort_desc snd matches in
  let agents := fst <$> matches in
  if bool_decide (agents = []) then ["general-learning-agent"] else agents.

(** The smoothing constant of [update_success_rate]. *)
Definition alpha : Q := (1 # 10)%Q.

(** [alpha * (1.0 if success else 0.0) + (1 - alpha) * rate] *)
Definition smoothed (success : bool) (rate : Q) : Q :=
  (alpha * (if success then 1 else 0) + (1 - alpha) * rate)%Q.

(** [RoutingSpine.update_success_rate]: the first route with that name is
    updated ([break]); an unknown name changes nothing. *)
Fixpoint update_success_rate (routes : list AgentRoute) (name : string) (success : bool)
    : list AgentRoute :=
  match routes with
  | [] => []
  | route :: routes' =>
      if bool_decide (agent_name route = name)
      then mkAgentRoute (agent_name route) (handles_content route) (capabilities route)
             (route_priority route) (smoothed success (success_rate route)) :: routes'
      else route :: update_success_rate routes' name success
  end.

(** [@dataclass class FeedbackEntry]. The timestamp is the instant read from
    the clock, in microseconds; [isoformat] renders it when it is written. *)
Record FeedbackEntry : Type := mkFeedbackEntry {
  fb_timestamp : Z;
  fb_task_id : string;
  fb_content_type : string;
  fb_agents_used : list string;
  fb_success : bool;
  fb_execution_time_ms : Q;
  fb_user_rating : option Z;
  fb_notes : option string
}.

(** [FeedbackLoop.record]: the entry is appended to [self.entries]. The copy
    that is written to the feedback file is outside the model (a failure to
    write is caught and logged). *)
Definition record (entries : list FeedbackEntry) (now : Z) (task_id : string)
    (content_type : string) (agents_used : list string) (success : bool)
    (execution_time_ms : Q) (user_rating : option Z) (notes : option string)
    : list FeedbackEntry :=
  entries ++ [mkFeedbackEntry now task_id content_type agents_used success
                execution_time_ms user_rating notes].

(** ** ada_output_synthesizer.py *)

(** Renderings of the Python library that the code calls; they are left open. *)
Record Rendering : Type := mkRendering {
  (** [json.dumps(d, indent=2)] *)
  json_dumps : gmap string pyval -> string;
  (** [str(t.timestamp())] for the instant [t], in microseconds *)
  timestamp_str : Z -> string
}.

(** [@dataclass class IonOutput]; the fields carry the prefix [out_], the
    names [ion_name] and [description] being taken by [SubTask]. Instants are
    in microseconds. *)
Record IonOutput : Type := mkIonOutput {
  out_ion_name : string;
  out_description : string;
  out_success : bool;
  out_result : gmap string pyval;
  out_execution_time_ms : Z;
  out_timestamp : Z;
  out_error : option string
}.

#[global] Instance IonOutput_eq_dec : EqDecision IonOutput.
Proof. solve_decision. Defined.

(** The values of a report's [metadata]. [MTime t] is the string that
    [isoformat] gives for the instant [t]. *)
Inductive metaval : Type :=
| MInt (z : Z)
| MFloat (q : Q)
| MStr (s : string)
| MTime (t : Z)
| MList (l : list string).

(** [@dataclass class SynthesizedReport] *)
Record SynthesizedReport : Type := mkSynthesizedReport {
  title : string;
  summary : string;
  sections : list (gmap string pyval);
  metadata : gmap string metaval;
  raw_outputs : list IonOutput;
  recommendations : list string;
  generated_at : Z
}.

(** The pattern-specific methods [_synthesize_*]. *)
Inductive Fusion : Type :=
| codebase_analysis
| content_research
| project_status
| code_cleanup
| learning_materials
| quality_assessment
| refactoring
| documentation
| content_extraction
| quiz_generation.

(** [self.synthesizers], the table of [OutputSynthesizer.__init__]. *)
Definition synthesizers (task_pattern : string) : option Fusion :=
  if bool_decide (task_pattern = "codebase_analysis") then Some codebase_analysis
  else if bool_decide (task_pattern = "analyze_codebase") then Some codebase_analysis
  else if bool_decide (task_pattern = "content_research") then Some content_research
  else if bool_decide (task_pattern = "research_topic") then Some content_research
  else if bool_decide (task_pattern = "project_status") then Some project_status
  else if bool_decide (task_pattern = "code_cleanup") then Some code_cleanup
  else if bool_decide (task_pattern = "learning_materials") then Some learning_materials
  else if bool_decide (task_pattern = "create_learning") then Some learning_materials
  else if bool_decide (task_pattern = "assess_quality") then Some quality_assessment
  else if bool_decide (task_pattern = "quality_assessment") then Some quality_assessment
  else if bool_decide (task_pattern = "refactor_code") then Some refactoring
  else if bool_decide (task_pattern = "refactoring") then Some refactoring
  else if bool_decide (task_pattern = "generate_docs") then Some documentation
  else if bool_decide (task_pattern = "documentation") then Some documentation
  else if bool_decide (task_pattern = "extract_content") then Some content_extraction
  else if bool_decide (task_pattern = "content_extraction") then Some content_extraction
  else if bool_decide (task_pattern = "generate_quiz") then Some quiz_generation
  else if bool_decide (task_pattern = "quiz_generation") then Some quiz_generation
  else if bool_decide (task_pattern = "find_duplicates") then Some codebase_analysis
  else if bool_decide (task_pattern = "find_dead_code") then Some codebase_analysis
  else if bool_decide (task_pattern = "organize_code") then Some codebase_analysis
  else None.

(** The title that each method gives its report. *)
Definition fusion_title (f : Fusion) : string :=
  match f with
  | codebase_analysis => "LearnQwest Codebase Analysis"
  | content_research => "Content Research Report"
  | project_status => "Project Status Report"
  | code_cleanup => "Code Cleanup Report"
  | learning_materials => "Learning Materials Report"
  | quality_assessment => "Content Quality Assessment"
  | refactoring => "Refactoring Roadmap"
  | documentation => "Documentation Generation Report"
  | content_extraction => "Content Extraction Report"
  | quiz_generation => "Quiz Generation Report"
  end.

(** What a method computes from the outputs before it builds the report. *)
Record Fused : Type := mkFused {
  fused_summary : string;
  fused_sections : list (gmap string pyval);
  fused_recommendations : list string
}.

(** The bodies of the ten pattern-specific methods. Each reads nothing but
    its argument: the synthesizer assigns no attribute after [__init__], and
    the clock is read only by [_build_metadata] and by the default of
    [generated_at]. A body works on untyped payloads and can raise (a
    comparison of a string with a number, say). *)
Definition Fusions : Type := Fusion -> list IonOutput -> run Fused.

(** [sum(1 for o in outputs if test(o))] *)
Definition count_outputs (test : IonOutput -> bool) (outputs : list IonOutput) : Z :=
  Z.of_nat (length (List.filter test outputs)).

(** [sum(o.execution_time_ms for o in outputs)] *)
Definition total_time_ms (outputs : list IonOutput) : Z :=
  foldr Z.add 0 (out_execution_time_ms <$> outputs).

(** [OutputSynthesizer._build_metadata], with the instant that
    [datetime.now()] returns. *)
Definition _build_metadata (now : Z) (outputs : list IonOutput) : gmap string metaval :=
  list_to_map
    [ ("total_ions", MInt (Z.of_nat (length outputs)));
      ("successful_ions", MInt (count_outputs out_success outputs));
      ("failed_ions", MInt (count_outputs (fun o => negb (out_success o)) outputs));
      ("total_execution_time_ms", MInt (total_time_ms outputs));
      ("average_execution_time_ms",
         if bool_decide (outputs = []) then MInt 0
         else MFloat (inject_Z (total_time_ms outputs)
                      / inject_Z (Z.of_nat (length outputs)))%Q);
      ("timestamp", MTime now);
      ("ions_used", MList (out_ion_name <$> outputs)) ].

(** [OutputSynthesizer._format_generic_output] *)
Definition _format_generic_output (py : Rendering) (output : IonOutput) : string :=
  let lines :=
    [ "Ion: " +:+ out_ion_name output;
      "Description: " +:+ out_description output;
      "Success: " +:+ (if out_success output then "True" else "False");
      "Execution time: " +:+ pretty (out_execution_time_ms output) +:+ "ms" ] in
  let lines :=
    match out_error output with
    | Some e => if bool_decide (e = "") then lines else lines ++ ["Error: " +:+ e]
    | None => lines
    end in
  let lines :=
    if bool_decide (out_result output = ∅) then lines
    else
      let result_str := json_dumps py (out_result output) in
      let result_str :=
        if (500 <? String.length result_str)%nat
        then substring 0 500 result_str +:+ String "010"%char "... (truncated)"
        else result_str in
      lines ++ [""; "Result:"; result_str] in
  py_join (String "010"%char "") lines.

(** [OutputSynthesizer._synthesize_generic], up to the report's construction. *)
Definition _synthesize_generic (py : Rendering) (outputs : list IonOutput) : Fused :=
  let successful := List.filter out_success outputs in
  let failed := List.filter (fun o => negb (out_success o)) outputs in
  let summary :=
    "Completed " +:+ pretty (length successful) +:+ "/" +:+ pretty (length outputs)
    +:+ " Ion executions successfully." in
  let sections :=
    (fun output =>
       let status := if out_success output then "[OK]" else "[XX]" in
       dict_of [ ("title", VStr (status +:+ " " +:+ out_ion_name output));
                 ("icon", VStr status);
                 ("content", VStr (_format_generic_output py output));
                 ("priority", VStr (if out_success output then "medium" else "high"));
                 ("ion", VStr (out_ion_name output)) ]) <$> outputs in
  let recommendations :=
    if bool_decide (failed = []) then []
    else ["HIGH: " +:+ pretty (length failed) +:+ " Ion(s) failed - review errors"] in
  mkFused summary sections recommendations.

(** [OutputSynthesizer.synthesize]: the method of the table, or the generic
    one for a pattern that the table does not hold. [now] is the instant
    that the clock shows during the call. *)
Definition synthesize (fusions : Fusions) (py : Rendering) (now : Z)
    (task_pattern : string) (ion_outputs : list IonOutput) : run SynthesizedReport :=
  '(report_title, fused) ←
    match synthesizers task_pattern with
    | Some f => fused ← fusions f ion_outputs; Done (fusion_title f, fused)
    | None => Done ("Task Execution Report", _synthesize_generic py ion_outputs)
    end;
  Done (mkSynthesizedReport report_title (fused_summary fused) (fused_sections fused)
          (_build_metadata now ion_outputs) ion_outputs (fused_recommendations fused) now).

(** ** ada_coordinator.py: ADACoordinator *)

(** The executor's reply, with the fields of the invocation contract:
    success flag, result payload, optional error text, elapsed time. *)
Record IonReply : Type := mkIonReply {
  reply_success : bool;
  reply_result : gmap string pyval;
  reply_error : option string;
  reply_execution_time_ms : Z
}.

(** How a call into the bridge ends. *)
Inductive Outcome (A : Type) : Type :=
| Returns (a : A)
| Raises (e : exn).
Arguments Returns {A} a.
Arguments Raises {A} e.

(** An awaited call: how long the caller is suspended, in microseconds, and
    how the call ends. *)
Record IonCall : Type := mkIonCall {
  call_latency : N;
  call_outcome : Outcome IonReply
}.

(** Modelled from the spec: the executor bridge [self.ada.ion_bridge], whose
    class is not among the sources. [is_real_ion name] tells whether an
    executor of that name can be invoked; [execute_ion name description
    timeout previous_results] is the opaque asynchronous invocation. Both
    may raise. *)
Record IonBridge : Type := mkIonBridge {
  is_real_ion : string -> Outcome bool;
  execute_ion : string -> string -> Z -> gmap string (gmap string pyval) -> IonCall
}.

(** [ADACoordinator.ION_NAME_MAP] and [_resolve_ion_name] *)
Definition ION_NAME_MAP : gmap string string :=
  list_to_map
    [ ("duplicate-detector", "duplicate-detector-ion");
      ("dead-code-eliminator", "dead-code-eliminator-ion");
      ("code-grouper", "code-grouper-ion");
      ("refactor-planner", "refactor-planner-ion");
      ("content-fetcher", "content-fetcher-ion");
      ("context-builder", "context-builder-ion");
      ("quiz-generator", "quiz-generator-ion") ].

Definition _resolve_ion_name (name : string) : string :=
  default name (ION_NAME_MAP !! name).

(** [s.replace(old, new)] for a non-empty [old]: the occurrences are replaced
    from the left, without overlap. [skip] counts the characters of a match
    that are still to be dropped. *)
Fixpoint replace_go (old new : string) (skip : nat) (s : string) : string :=
  match s with
  | EmptyString => EmptyString
  | String c s' =>
      match skip with
      | S k => replace_go old new k s'
      | O =>
          if startswith old s
          then new +:+ replace_go old new (String.length old - 1) s'
          else String c (replace_go old new 0 s')
      end
  end.

Definition replace (old new s : string) : string := replace_go old new 0 s.

(** A call [self.ada.feedback_loop.record(task_id=..., content_type=...,
    agents_used=..., success=..., execution_time_ms=...)], made at the instant
    [call_time]. *)
Record RecordCall : Type := mkRecordCall {
  call_time : Z;
  call_task_id : string;
  call_content_type : string;
  call_agents_used : list string;
  call_success : bool;
  call_execution_time_ms : Q
}.

(** The store after the call. *)
Definition record_call (entries : list FeedbackEntry) (c : RecordCall) : list FeedbackEntry :=
  record entries (call_time c) (call_task_id c) (call_content_type c)
    (call_agents_used c) (call_success c) (call_execution_time_ms c) None None.

(** What one [_execute_subtask] coroutine does: the time it takes, the output
    it returns, and the call of [record] that it makes when it gets that
    far. *)
Record SubtaskRun : Type := mkSubtaskRun {
  run_latency : N;
  run_output : IonOutput;
  run_feedback : option RecordCall
}.

(** The output of the [except Exception as e] clause of [_execute_subtask],
    after [elapsed] microseconds. *)
Definition failed_output (start_time : Z) (subtask : SubTask) (elapsed : N) (e : exn)
    : IonOutput :=
  mkIonOutput (ion_name subtask) (description subtask) false
    (dict_of [("error", VStr (exn_str e))])
    (Qfloor (Z.of_N elapsed # 1000)) (start_time + Z.of_N elapsed) (Some (exn_str e)).

(** [ADACoordinator._execute_subtask], started at the instant [start_time],
    with tracing off. The three ways out are the real executor's reply, the
    simulated execution and the caught exception; feedback is recorded on the
    first only, and no way out touches the routes. *)
Definition _execute_subtask (py : Rendering) (bridge : IonBridge) (start_time : Z)
    (subtask : SubTask) (previous_results : gmap string (gmap string pyval)) : SubtaskRun :=
  let resolved_ion := _resolve_ion_name (ion_name subtask) in
  match is_real_ion bridge resolved_ion with
  | Returns true =>
      let call := execute_ion bridge resolved_ion (description subtask) 30 previous_results in
      let finished := start_time + Z.of_N (call_latency call) in
      let execution_time := (Z.of_N (call_latency call) # 1000)%Q in
      match call_outcome call with
      | Returns reply =>
          let success := reply_success reply in
          mkSubtaskRun (call_latency call)
            (mkIonOutput (ion_name subtask) (description subtask) success
               (reply_result reply) (Qfloor execution_time) finished None)
            (Some (mkRecordCall finished
                     ("coord-" +:+ ion_name subtask +:+ "-" +:+ timestamp_str py start_time)
                     (ion_name subtask) [ion_name subtask] success execution_time))
      | Raises e =>
          mkSubtaskRun (call_latency call)
            (failed_output start_time subtask (call_latency call) e) None
      end
  | Returns false =>
      mkSubtaskRun 0
        (mkIonOutput (ion_name subtask) (description subtask) true
           (dict_of [("simulated", VBool true);
                     ("message", VStr ("Simulated " +:+ ion_name subtask +:+ " execution"))])
           50 start_time None)
        None
  | Raises e =>
      mkSubtaskRun 0 (failed_output start_time subtask 0 e) None
  end.

(** [ADACoordinator._execute_wave], with tracing off: the coroutines of the
    wave in the order of [optimize_wave], which is the order in which
    [asyncio.gather] returns their results. Every coroutine returns an
    [IonOutput], so the conversion of a returned exception is never used. *)
Definition _execute_wave (py : Rendering) (bridge : IonBridge) (start_time : Z)
    (wave : list SubTask) (previous_results : gmap string (gmap string pyval))
    : list SubtaskRun :=
  (fun subtask => _execute_subtask py bridge start_time subtask previous_results)
    <$> optimize_wave wave.

(** The budget of a wave, [timeout_seconds / len(execution_waves)], against a
    latency in microseconds. A budget that is not positive is exceeded at
    once. *)
Definition within_budget (timeout_seconds : Z) (n_waves : nat) (latency : N) : bool :=
  (0 <? timeout_seconds)
  && (Z.of_N latency * Z.of_nat n_waves <=? timeout_seconds * 1000000).

(** The whole microseconds of the budget. *)
Definition budget_us (timeout_seconds : Z) (n_waves : nat) : Z :=
  Z.max 0 (timeout_seconds * 1000000 / Z.of_nat n_waves).

(** The calls of [record] made by the coroutines that finish within the
    budget, in the order in which they finish. *)
Definition feedback_recorded (timeout_seconds : Z) (n_waves : nat)
    (runs : list SubtaskRun) : list RecordCall :=
  omap run_feedback
    (sorted_by (fun r => Z.of_N (run_latency r))
       (List.filter (fun r => within_budget timeout_seconds n_waves (run_latency r)) runs)).

(** [asyncio.wait_for(self._execute_wave(...), timeout=...)]: the results of
    the wave when every coroutine finishes within the budget; otherwise
    [None], for [asyncio.TimeoutError]: the pending coroutines are cancelled
    and the results of the others are lost with the gather. No other
    exception can come out, since no coroutine of the wave raises. The second
    component is the time that passes. *)
Definition wait_for_wave (timeout_seconds : Z) (n_waves : nat) (runs : list SubtaskRun)
    : option (list IonOutput) * Z :=
  if forallb (fun r => within_budget timeout_seconds n_waves (run_latency r)) runs
  then (Some (run_output <$> runs),
        foldr Z.max 0 ((fun r => Z.of_N (run_latency r)) <$> runs))
  else (None, budget_us timeout_seconds n_waves).

(** [@dataclass class ExecutionMetrics] *)
Record ExecutionMetrics : Type := mkExecutionMetrics {
  start_time : Z;
  end_time : option Z;
  total_subtasks : Z;
  successful_subtasks : Z;
  failed_subtasks : Z;
  total_execution_ms : Z;
  waves_executed : Z
}.

(** [ExecutionMetrics.duration_seconds] *)
Definition duration_seconds (metrics : ExecutionMetrics) : metaval :=
  match end_time metrics with
  | Some t => MFloat ((t - start_time metrics) # 1000000)%Q
  | None => MInt 0
  end.

(** [ExecutionMetrics.success_rate] *)
Definition metrics_success_rate (metrics : ExecutionMetrics) : metaval :=
  if total_subtasks metrics =? 0 then MInt 0
  else MFloat (inject_Z (successful_subtasks metrics) / inject_Z (total_subtasks metrics))%Q.

(** The entries of [self.execution_history]. *)
Record HistoryEntry : Type := mkHistoryEntry {
  hist_task : string;
  hist_pattern : string;
  hist_timestamp : Z;
  hist_duration_seconds : metaval;
  hist_total_subtasks : Z;
  hist_successful_subtasks : Z;
  hist_failed_subtasks : Z;
  hist_success_rate : metaval;
  hist_waves_executed : Z;
  hist_total_execution_ms : Z;
  hist_ions_used : list string
}.

(** The objects that [execute] reads and changes: the clock, the feedback
    store [self.ada.feedback_loop.entries], the routes
    [self.ada.routing_spine.routes], the decomposer's counter, standard
    output and [self.execution_history]. *)
Record World : Type := mkWorld {
  clock : Z;
  entries : list FeedbackEntry;
  routes : list AgentRoute;
  task_counter : nat;
  stdout : list string;
  execution_history : list HistoryEntry
}.

(** The locals of the wave loop of [execute]. *)
Record WaveLoop : Type := mkWaveLoop {
  all_outputs : list IonOutput;
  previous_wave_results : gmap string (gmap string pyval);
  metrics : ExecutionMetrics;
  world : World
}.

(** [for output in wave_outputs: if output.success: ...] *)
Definition store_results (wave_outputs : list IonOutput)
    (previous : gmap string (gmap string pyval)) : gmap string (gmap string pyval) :=
  foldl (fun prev output =>
           if out_success output
           then <[replace "-ion" "" (out_ion_name output) := out_result output]> prev
           else prev)
        previous wave_outputs.

(** [for output in wave_outputs: metrics...] *)
Definition count_outputs_in (wave_outputs : list IonOutput) (m : ExecutionMetrics)
    : ExecutionMetrics :=
  foldl (fun m output =>
           mkExecutionMetrics (start_time m) (end_time m) (total_subtasks m)
             (if out_success output then successful_subtasks m + 1 else successful_subtasks m)
             (if out_success output then failed_subtasks m else failed_subtasks m + 1)
             (total_execution_ms m + out_execution_time_ms output)
             (waves_executed m))
        m wave_outputs.

(** The failed output that stands for a subtask of a wave that timed out. *)
Definition timeout_output (now : Z) (subtask : SubTask) : IonOutput :=
  mkIonOutput (ion_name subtask) (description subtask) false
    (dict_of [("error", VStr "Timeout")]) 0 now (Some "Execution timeout").

(** One turn of [for wave_num, wave in enumerate(execution_waves, 1)]: the
    [try] around [wait_for] and its [except asyncio.TimeoutError]. *)
Definition run_wave (py : Rendering) (bridge : IonBridge) (timeout_seconds : Z)
    (n_waves : nat) (wave : list SubTask) (st : WaveLoop) : WaveLoop :=
  let w := world st in
  let runs := _execute_wave py bridge (clock w) wave (previous_wave_results st) in
  let '(result, elapsed) := wait_for_wave timeout_seconds n_waves runs in
  let w := mkWorld (clock w + elapsed)
             (foldl record_call (entries w)
                (feedback_recorded timeout_seconds n_waves runs))
             (routes w) (task_counter w) (stdout w) (execution_history w) in
  match result with
  | Some wave_outputs =>
      mkWaveLoop (all_outputs st ++ wave_outputs)
        (store_results wave_outputs (previous_wave_results st))
        (count_outputs_in wave_outputs (metrics st)) w
  | None =>
      let m := metrics st in
      mkWaveLoop (all_outputs st ++ (timeout_output (clock w) <$> wave))
        (previous_wave_results st)
        (mkExecutionMetrics (start_time m) (end_time m) (total_subtasks m)
           (successful_subtasks m) (failed_subtasks m + Z.of_nat (length wave))
           (total_execution_ms m) (waves_executed m))
        w
  end.

(** The loop over the waves, in order. *)
Definition run_waves (py : Rendering) (bridge : IonBridge) (timeout_seconds : Z)
    (n_waves : nat) (waves : list (list SubTask)) (st : WaveLoop) : WaveLoop :=
  foldl (fun st wave => run_wave py bridge timeout_seconds n_waves wave st) st waves.

(** The three components that [execute] calls inside its [try], as calls that
    return or raise: [self.decomposer.decompose] (with the decomposer's
    counter), [ExecutionStrategy.create_execution_plan] (with what it prints)
    and [self.synthesizer.synthesize] (with the instant of the call). *)
Record Pipeline : Type := mkPipeline {
  do_decompose : string -> nat -> run (TaskPlan * nat);
  do_create_execution_plan : list SubTask -> run (list (list SubTask) * list string);
  do_synthesize : Z -> string -> list IonOutput -> run SynthesizedReport
}.

(** The report that the [except Exception] clause of [execute] returns. *)
Definition error_report (now : Z) (task : string) (e : exn) (m : ExecutionMetrics)
    : SynthesizedReport :=
  mkSynthesizedReport "Execution Error"
    ("Task execution failed: " +:+ exn_str e)
    [dict_of [ ("title", VStr "Error Details"); ("icon", VStr "[ERR]");
               ("content", VStr (exn_str e)); ("priority", VStr "high") ]]
    (list_to_map [ ("error", MStr (exn_str e)); ("task", MStr task);
                   ("duration_seconds", duration_seconds m) ])
    []
    ["Review the error and retry"]
    now.

(** The [except Exception as e] clause: [metrics.end_time] is set and the
    error report is returned. *)
Definition on_exception (w : World) (task : string) (m : ExecutionMetrics) (e : exn)
    : run (SynthesizedReport * World) :=
  let m := mkExecutionMetrics (start_time m) (Some (clock w)) (total_subtasks m)
             (successful_subtasks m) (failed_subtasks m) (total_execution_ms m)
             (waves_executed m) in
  Done (error_report (clock w) task e m, w).

(** [ADACoordinator._record_history] *)
Definition _record_history (task : string) (plan : TaskPlan) (m : ExecutionMetrics)
    (outputs : list IonOutput) (history : list HistoryEntry) : list HistoryEntry :=
  history ++
  [mkHistoryEntry task (pattern_value (pattern plan)) (start_time m) (duration_seconds m)
     (total_subtasks m) (successful_subtasks m) (failed_subtasks m)
     (metrics_success_rate m) (waves_executed m) (total_execution_ms m)
     (out_ion_name <$> outputs)].

(** [ADACoordinator.execute] with [verbose] and [trace] off, over the
    components [pipe]. *)
Definition execute_with (pipe : Pipeline) (py : Rendering) (bridge : IonBridge)
    (w : World) (task : string) (timeout_seconds : Z) : run (SynthesizedReport * World) :=
  let m := mkExecutionMetrics (clock w) None 0 0 0 0 0 in
  match do_decompose pipe task (task_counter w) with
  | OutOfFuel => OutOfFuel
  | Raise e => on_exception w task m e
  | Done (task_plan, counter) =>
      let w := mkWorld (clock w) (entries w) (routes w) counter (stdout w)
                 (execution_history w) in
      let m := mkExecutionMetrics (start_time m) (end_time m)
                 (Z.of_nat (length (subtasks task_plan)))
                 (successful_subtasks m) (failed_subtasks m) (total_execution_ms m)
                 (waves_executed m) in
      match do_create_execution_plan pipe (subtasks task_plan) with
      | OutOfFuel => OutOfFuel
      | Raise e => on_exception w task m e
      | Done (execution_waves, printed) =>
          let w := mkWorld (clock w) (entries w) (routes w) (task_counter w)
                     (stdout w ++ printed) (execution_history w) in
          let m := mkExecutionMetrics (start_time m) (end_time m) (total_subtasks m)
                     (successful_subtasks m) (failed_subtasks m) (total_execution_ms m)
                     (Z.of_nat (length execution_waves)) in
          let st := run_waves py bridge timeout_seconds (length execution_waves)
                      execution_waves (mkWaveLoop [] ∅ m w) in
          let w := world st in
          let m := metrics st in
          match do_synthesize pipe (clock w) (pattern_value (pattern task_plan))
                  (all_outputs st) with
          | OutOfFuel => OutOfFuel
          | Raise e => on_exception w task m e
          | Done report =>
              let m := mkExecutionMetrics (start_time m) (Some (clock w))
                         (total_subtasks m) (successful_subtasks m) (failed_subtasks m)
                         (total_execution_ms m) (waves_executed m) in
              Done (report,
                    mkWorld (clock w) (entries w) (routes w) (task_counter w) (stdout w)
                      (_record_history task task_plan m (all_outputs st)
                         (execution_history w)))
          end
      end
  end.

(** The components of the repository. *)
Definition pipeline (fusions : Fusions) (py : Rendering) : Pipeline :=
  mkPipeline (fun task counter => decompose task None counter)
             create_execution_plan
             (synthesize fusions py).

(** [ADACoordinator.execute] *)
Definition execute (fusions : Fusions) (py : Rendering) (bridge : IonBridge)
    (w : World) (task : string) (timeout_seconds : Z) : run (SynthesizedReport * World) :=
  execute_with (pipeline fusions py) py bridge w task timeout_seconds.

(** ** ada_coordinator.py: reading the history *)

(** [l[start:]]: a negative [start] counts from the end, and a [start]
    beyond either end is clipped to it. *)
Definition slice_from {A : Type} (start : Z) (l : list A) : list A :=
  let n := Z.of_nat (length l) in
  let start := if start <? 0 then Z.max (start + n) 0 else Z.min start n in
  drop (Z.to_nat start) l.

(** [ADACoordinator.get_history]: [self.execution_history[-limit:]] *)
Definition get_history (w : World) (limit : Z) : list HistoryEntry :=
  slice_from (- limit) (execution_history w).

(** ** ada_orchestrator.py: the statistics of the feedback loop *)


(** [sum(x for ...)] over floats: the additions run from the left, from 0. *)
Definition sum_floats (l : list Q) : Q := foldl Qplus 0%Q l.


(** ** ada_orchestrator.py: learning tasks and their queue *)

(** [class TaskStatus(Enum)] *)
Inductive TaskStatus : Type :=
| QUEUED
| ANALYZING
| ROUTING
| EXECUTING
| COMPLETED
| FAILED
| RETRYING.

#[global] Instance TaskStatus_eq_dec : EqDecision TaskStatus.
Proof. solve_decision. Defined.

(** [class TaskPriority(Enum)] *)
Inductive TaskPriority : Type :=
| LOW
| NORMAL
| HIGH
| URGENT.

#[global] Instance TaskPriority_eq_dec : EqDecision TaskPriority.
Proof. solve_decision. Defined.

(** [priority.value] *)
Definition priority_value (p : TaskPriority) : Z :=
  match p with
  | LOW => 1
  | NORMAL => 2
  | HIGH => 3
  | URGENT => 4
  end.

(** [class QuestDomain(Enum)] *)
Inductive QuestDomain : Type :=
| MATH
| READING
| SCIENCE
| SOCIAL_STUDIES
| CREATIVE
| GENERAL.

#[global] Instance QuestDomain_eq_dec : EqDecision QuestDomain.
Proof. solve_decision. Defined.

(** The values of the dictionaries typed [Dict[str, Any]]; an inner
    dictionary is the list of its items. *)
#[local] Set Warnings "-register-all".
Inductive json : Type :=
| JNull
| JBool (b : bool)
| JInt (z : Z)
| JFloat (q : Q)
| JStr (s : string)
| JList (l : list json)
| JDict (items : list (string * json)).

(** [@dataclass class LearningTask], after [__post_init__]; the fields carry
    the prefix [lt_]. Instants are in microseconds. [lt_execution_plan] is
    [None] until a plan is assigned. *)
Record LearningTask : Type := mkLearningTask {
  lt_id : string;
  lt_description : string;
  lt_domain : QuestDomain;
  lt_priority : TaskPriority;
  lt_status : TaskStatus;
  lt_created_at : Z;
  lt_updated_at : Z;
  lt_student_id : option string;
  lt_grade_level : option Z;
  lt_file_path : option string;
  lt_metadata : gmap string json;
  lt_assigned_agents : list string;
  lt_execution_plan : option (gmap string json);
  lt_progress : Z;
  lt_results : gmap string json;
  lt_error : option string;
  lt_retry_count : Z
}.

(** Task objects are shared between the caller, the queue and the tables of
    active and completed tasks: a task is a location, and the store gives the
    object at each location. *)
Definition loc : Type := nat.
Definition Store : Type := loc -> LearningTask.

(** An assignment to the fields of the object at [task]. *)
Definition store_set (store : Store) (task : loc) (t : LearningTask) : Store :=
  fun l => if bool_decide (l = task) then t else store l.

(** [class TaskQueue]; the lock is left out, the methods being modelled as
    running one at a time, which is what the lock enforces. *)
Record TaskQueue : Type := mkTaskQueue {
  queue : list loc;
  active_tasks : gmap string loc;
  completed_tasks : gmap string loc;
  max_concurrent : Z
}.

(** [TaskQueue.__init__] *)
Definition TaskQueue_init (max_concurrent : Z) : TaskQueue :=
  mkTaskQueue [] ∅ ∅ max_concurrent.

(** [TaskQueue.add_task]: the queue after the call, and the id returned. *)
Definition add_task (store : Store) (q : TaskQueue) (task : loc) : TaskQueue * string :=
  let queue' :=
    sort_desc (fun t => inject_Z (priority_value (lt_priority (store t))))
              (queue q ++ [task]) in
  (mkTaskQueue queue' (active_tasks q) (completed_tasks q) (max_concurrent q),
   lt_id (store task)).

(** [TaskQueue.get_next_task] *)
Definition get_next_task (store : Store) (q : TaskQueue) : TaskQueue * option loc :=
  if bool_decide (max_concurrent q <= Z.of_nat (size (active_tasks q))) then (q, None)
  else
    match queue q with
    | [] => (q, None)
    | task :: queue' =>
        (mkTaskQueue queue' (<[lt_id (store task) := task]> (active_tasks q))
           (completed_tasks q) (max_concurrent q),
         Some task)
    end.

(** [TaskQueue.complete_task], at the instant [now]. *)
Definition complete_task (now : Z) (store : Store) (q : TaskQueue) (task_id : string)
    (results : gmap string json) : Store * TaskQueue :=
  match active_tasks q !! task_id with
  | Some task =>
      let t := store task in
      let t' :=
        mkLearningTask (lt_id t) (lt_description t) (lt_domain t) (lt_priority t)
          COMPLETED (lt_created_at t) now (lt_student_id t) (lt_grade_level t)
          (lt_file_path t) (lt_metadata t) (lt_assigned_agents t) (lt_execution_plan t)
          100 results (lt_error t) (lt_retry_count t) in
      (store_set store task t',
       mkTaskQueue (queue q) (delete task_id (active_tasks q))
         (<[task_id := task]> (completed_tasks q)) (max_concurrent q))
  | None => (store, q)
  end.

(** [TaskQueue.fail_task], at the instant [now]. *)
Definition fail_task (now : Z) (store : Store) (q : TaskQueue) (task_id : string)
    (error : string) : Store * TaskQueue :=
  match active_tasks q !! task_id with
  | Some task =>
      let t := store task in
      let t' :=
        mkLearningTask (lt_id t) (lt_description t) (lt_domain t) (lt_priority t)
          FAILED (lt_created_at t) now (lt_student_id t) (lt_grade_level t)
          (lt_file_path t) (lt_metadata t) (lt_assigned_agents t) (lt_execution_plan t)
          (lt_progress t) (lt_results t) (Some error) (lt_retry_count t) in
      (store_set store task t',
       mkTaskQueue (queue q) (delete task_id (active_tasks q))
         (<[task_id := task]> (completed_tasks q)) (max_concurrent q))
  | None => (store, q)
  end.

(** [TaskQueue.get_status] *)
Definition TaskQueue_get_status (q : TaskQueue) : gmap string Z :=
  list_to_map
    [ ("queued", Z.of_nat (length (queue q)));
      ("active", Z.of_nat (size (active_tasks q)));
      ("completed", Z.of_nat (size (completed_tasks q)));
      ("capacity", max_concurrent q - Z.of_nat (size (active_tasks q))) ].

(** ** ada_orchestrator.py: TaskAnalyzer *)









(** ** ada_orchestrator.py: ExecutionMonitor *)

(** [@dataclass class AgentExecutionResult]; the fields carry the prefix
    [res_]. The output is a string or [None]. *)
Record AgentExecutionResult : Type := mkAgentExecutionResult {
  res_agent_name : string;
  res_status : string;
  res_output : option string;
  res_execution_time : Q;
  res_cost : Q;
  res_error : option string
}.

(** The entries of [self.metrics["agent_usage"]]. *)
Record AgentUsage : Type := mkAgentUsage {
  executions : Z;
  usage_total_time : Q;
  usage_total_cost : Q
}.

(** The entries of a monitor's [status_log]. *)
Record StatusLine : Type := mkStatusLine {
  line_timestamp : Z;
  line_progress : Z;
  line_message : string
}.

(** The values of [self.active_monitors]. *)
Record MonitorData : Type := mkMonitorData {
  monitor_start_time : Z;
  status_log : list StatusLine
}.

(** [class ExecutionMonitor]: the entries of [self.metrics], and
    [self.active_monitors]. *)
Record ExecutionMonitor : Type := mkExecutionMonitor {
  total_tasks : Z;
  successful_tasks : Z;
  failed_tasks : Z;
  total_cost : Q;
  total_execution_time : Q;
  agent_usage : gmap string AgentUsage;
  active_monitors : gmap string MonitorData
}.

(** [ExecutionMonitor.__init__] *)
Definition ExecutionMonitor_init : ExecutionMonitor :=
  mkExecutionMonitor 0 0 0 0 0 ∅ ∅.

(** [ExecutionMonitor.start_monitoring], at the instant [now]. *)
Definition start_monitoring (now : Z) (m : ExecutionMonitor) (task_id : string)
    : ExecutionMonitor :=
  mkExecutionMonitor (total_tasks m + 1) (successful_tasks m) (failed_tasks m)
    (total_cost m) (total_execution_time m) (agent_usage m)
    (<[task_id := mkMonitorData now []]> (active_monitors m)).

(** [ExecutionMonitor.log_progress], at the instant [now]. *)
Definition log_progress (now : Z) (m : ExecutionMonitor) (task_id : string)
    (progress : Z) (message : string) : ExecutionMonitor :=
  match active_monitors m !! task_id with
  | Some d =>
      mkExecutionMonitor (total_tasks m) (successful_tasks m) (failed_tasks m)
        (total_cost m) (total_execution_time m) (agent_usage m)
        (<[task_id := mkMonitorData (monitor_start_time d)
                        (status_log d ++ [mkStatusLine now progress message])]>
           (active_monitors m))
  | None => m
  end.

(** [ExecutionMonitor.log_agent_execution] *)
Definition log_agent_execution (m : ExecutionMonitor) (task_id : string)
    (agent_name : string) (result : AgentExecutionResult) : ExecutionMonitor :=
  let usage := default (mkAgentUsage 0 0 0) (agent_usage m !! agent_name) in
  let usage :=
    mkAgentUsage (executions usage + 1)
      (usage_total_time usage + res_execution_time result)%Q
      (usage_total_cost usage + res_cost result)%Q in
  mkExecutionMonitor (total_tasks m) (successful_tasks m) (failed_tasks m)
    (total_cost m + res_cost result)%Q
    (total_execution_time m + res_execution_time result)%Q
    (<[agent_name := usage]> (agent_usage m)) (active_monitors m).

(** [ExecutionMonitor.complete_monitoring] *)
Definition complete_monitoring (m : ExecutionMonitor) (task_id : string) (success : bool)
    : ExecutionMonitor :=
  match active_monitors m !! task_id with
  | Some _ =>
      mkExecutionMonitor
        (total_tasks m)
        (if success then successful_tasks m + 1 else successful_tasks m)
        (if success then failed_tasks m else failed_tasks m + 1)
        (total_cost m) (total_execution_time m) (agent_usage m)
        (delete task_id (active_monitors m))
  | None => m
  end.

(** * Properties *)

(** ** The wave scheduler *)

(** The names that a list of subtasks adds to [completed]. *)
Definition names_of (l : list SubTask) : gset string :=
  list_to_set (ion_name <$> l).

Lemma list_remove_middle (task : SubTask) (pre post : list SubTask) :
  task ∉ pre -> list_remove task (pre ++ task :: post) = Done (pre ++ post).
Proof.
  induction pre as [|x pre IH]; intros Hnot; simpl.
  - by rewrite bool_decide_eq_true_2.
  - rewrite bool_decide_eq_false_2.
    + rewrite IH; [done|]. intros Hin. apply Hnot. by right.
    + intros ->. apply Hnot. by left.
Qed.

(** Removing, in order, the elements that pass a test leaves those that fail
    it, in their order. *)
Lemma mark_completed_filter (P : SubTask -> bool) (l pre : list SubTask)
    (completed : gset string) :
  Forall (fun t => P t = false) pre ->
  mark_completed (List.filter P l) completed (pre ++ l)
  = Done (completed ∪ names_of (List.filter P l),
          pre ++ List.filter (fun t => negb (P t)) l).
Proof.
  revert pre completed.
  induction l as [|x l IH]; intros pre completed Hpre; simpl.
  - unfold names_of. simpl. by rewrite (right_id_L ∅ (∪)).
  - destruct (P x) eqn:HPx; simpl.
    + rewrite list_remove_middle.
      * simpl. rewrite IH by done. unfold names_of. simpl.
        by rewrite (assoc_L (∪)).
      * intros Hin. rewrite Forall_forall in Hpre.
        specialize (Hpre x Hin). congruence.
    + replace (pre ++ x :: l) with ((pre ++ [x]) ++ l) by by rewrite <- app_assoc.
      rewrite IH.
      * by rewrite <- app_assoc.
      * apply Forall_app. split; [done|]. by constructor.
Qed.

Lemma filter_true_id (l : list SubTask) : List.filter (fun _ => true) l = l.
Proof. induction l as [|x l IH]; simpl; [done|]. by rewrite IH. Qed.

Lemma filter_false_nil (l : list SubTask) : List.filter (fun _ => negb true) l = [].
Proof. induction l as [|x l IH]; simpl; done. Qed.

(** Removing every element of a list from that list empties it. *)
Lemma mark_completed_all (l : list SubTask) (completed : gset string) :
  mark_completed l completed l = Done (completed ∪ names_of l, []).
Proof.
  pose proof (mark_completed_filter (fun _ => true) l [] completed) as H.
  rewrite filter_true_id, filter_false_nil in H. simpl in H. by apply H.
Qed.

Lemma filter_split_perm (P : SubTask -> bool) (l : list SubTask) :
  l ≡ₚ List.filter P l ++ List.filter (fun t => negb (P t)) l.
Proof.
  induction l as [|x l IH]; simpl; [done|].
  destruct (P x); simpl.
  - by constructor.
  - rewrite <- Permutation_middle. by constructor.
Qed.

Lemma filter_neg_shorter (P : SubTask -> bool) (l : list SubTask) :
  List.filter P l ≠ [] ->
  (length (List.filter (fun t => negb (P t)) l) < length l)%nat.
Proof.
  intros Hne. pose proof (filter_split_perm P l) as Hp.
  apply Permutation_length in Hp. rewrite length_app in Hp.
  destruct (List.filter P l); [done|]. simpl in Hp. lia.
Qed.

(** One round of the loop, as an equation: with fuel left and subtasks
    remaining, the round either schedules the ready subtasks and goes on with
    the others, or schedules everything that remains and stops. *)
Lemma execution_plan_loop_step (fuel : nat) (completed : gset string)
    (remaining : list SubTask) :
  remaining ≠ [] ->
  execution_plan_loop (S fuel) completed remaining =
    let ready := List.filter (is_ready completed) remaining in
    if bool_decide (ready = [])
    then Done ([remaining], [warn_unresolved (length remaining)])
    else
      '(waves, out) ← execution_plan_loop fuel (completed ∪ names_of ready)
                        (List.filter (fun t => negb (is_ready completed t)) remaining);
      Done (ready :: waves, out).
Proof.
  intros Hne. simpl. rewrite bool_decide_eq_false_2 by done.
  case_bool_decide as Hready.
  - rewrite mark_completed_all. simpl.
    destruct fuel; simpl; by rewrite ?bool_decide_eq_true_2.
  - pose proof (mark_completed_filter (is_ready completed) remaining [] completed) as H.
    simpl in H. rewrite H by done. simpl. done.
Qed.

(** The runs of the loop: from the names [completed] and the subtasks
    [remaining] it yields the waves and the printed lines. *)
Inductive plan_run : gset string -> list SubTask -> list (list SubTask) -> list string -> Prop :=
| plan_run_done completed :
    plan_run completed [] [] []
| plan_run_forced completed remaining :
    remaining ≠ [] ->
    List.filter (is_ready completed) remaining = [] ->
    plan_run completed remaining [remaining] [warn_unresolved (length remaining)]
| plan_run_wave completed remaining waves out :
    List.filter (is_ready completed) remaining ≠ [] ->
    plan_run (completed ∪ names_of (List.filter (is_ready completed) remaining))
             (List.filter (fun t => negb (is_ready completed t)) remaining) waves out ->
    plan_run completed remaining (List.filter (is_ready completed) remaining :: waves) out.

(** The loop returns, and its result is a run, whenever the fuel covers the
    subtasks that remain. *)
Lemma execution_plan_loop_runs (fuel : nat) :
  forall (completed : gset string) (remaining : list SubTask),
    (length remaining <= fuel)%nat ->
    exists waves out,
      execution_plan_loop fuel completed remaining = Done (waves, out)
      /\ plan_run completed remaining waves out.
Proof.
  induction fuel as [|fuel IH]; intros completed remaining Hlen.
  - destruct remaining; [|simpl in Hlen; lia].
    exists [], []. split; [done|constructor].
  - destruct (decide (remaining = [])) as [->|Hne].
    { exists [], []. split; [done|constructor]. }
    rewrite execution_plan_loop_step by done. cbv zeta.
    case_bool_decide as Hready.
    + eexists _, _. split; [done|]. by constructor.
    + destruct (IH (completed ∪ names_of (List.filter (is_ready completed) remaining))
                   (List.filter (fun t => negb (is_ready completed t)) remaining))
        as (waves & out & Heq & Hrun).
      { pose proof (filter_neg_shorter (is_ready completed) remaining Hready). lia. }
      rewrite Heq. simpl. eexists _, _. split; [done|]. by constructor.
Qed.

Lemma create_execution_plan_runs (subtasks : list SubTask) :
  exists waves out,
    create_execution_plan subtasks = Done (waves, out) /\ plan_run ∅ subtasks waves out.
Proof.
  unfold create_execution_plan. case_bool_decide as Hnil.
  - subst. exists [], []. split; [done|constructor].
  - by apply execution_plan_loop_runs.
Qed.

Lemma plan_run_permutation completed remaining waves out :
  plan_run completed remaining waves out -> concat waves ≡ₚ remaining.
Proof.
  induction 1 as [c|c rem Hne Hnone|c rem waves out Hne Hrun IH]; simpl.
  - done.
  - by rewrite app_nil_r.
  - rewrite IH. symmetry. apply filter_split_perm.
Qed.



(** The decomposer's partition. *)

(** Whether the subtask that carries the id [tid] has all its dependencies in
    [completed]. *)
Definition eligible (subtasks : list SubTask) (completed : gset string) (tid : string) : bool :=
  match List.find (fun st => bool_decide (task_id st = tid)) subtasks with
  | Some st => deps_met completed st
  | None => false
  end.

Lemma next_subtask_found (subtasks : list SubTask) (tid : string) :
  tid ∈ task_id <$> subtasks ->
  exists st, List.find (fun st => bool_decide (task_id st = tid)) subtasks = Some st.
Proof.
  induction subtasks as [|x l IH]; simpl; intros Hin.
  - by apply elem_of_nil in Hin.
  - case_bool_decide as Hx; [by eexists|].
    apply IH. apply elem_of_cons in Hin as [Heq|Hin]; [congruence|done].
Qed.

Lemma current_group_of_filter (subtasks : list SubTask) (completed : gset string)
    (ids : list string) :
  Forall (fun tid => tid ∈ task_id <$> subtasks) ids ->
  current_group_of subtasks completed ids
  = Done (List.filter (eligible subtasks completed) ids).
Proof.
  induction 1 as [|tid ids Hin Hids IH]; simpl; [done|].
  unfold next_subtask, eligible.
  destruct (next_subtask_found subtasks tid Hin) as [st ->]. simpl.
  rewrite IH. simpl. by destruct (deps_met completed st).
Qed.

Lemma filter_nil_none {A : Type} (f : A -> bool) (l : list A) (x : A) :
  List.filter f l = [] -> x ∈ l -> f x = false.
Proof.
  intros Hnil Hin. destruct (f x) eqn:Hfx; [|done].
  assert (In x (List.filter f l)) as Hx.
  { apply filter_In. split; [by apply list_elem_of_In|done]. }
  rewrite Hnil in Hx. destruct Hx.
Qed.

Lemma NoDup_list_filter {A : Type} (f : A -> bool) (l : list A) :
  NoDup l -> NoDup (List.filter f l).
Proof.
  induction 1 as [|x l Hx Hl IH]; simpl; [constructor|].
  destruct (f x); [|done]. constructor; [|done].
  intros Hin. apply Hx. apply list_elem_of_In in Hin.
  apply filter_In in Hin as [Hin _]. by apply list_elem_of_In.
Qed.

Lemma elem_of_list_filter {A : Type} (f : A -> bool) (l : list A) (x : A) :
  x ∈ List.filter f l <-> x ∈ l /\ f x = true.
Proof. rewrite !list_elem_of_In. apply filter_In. Qed.

(** The loop of [_calculate_parallel_groups] returns. Its groups are disjoint
    and drawn from [remaining], and an id of [remaining] that is in no group
    is not eligible even when every grouped id counts as completed. *)
Lemma parallel_groups_loop_returns (subtasks : list SubTask) (fuel : nat) :
  forall (completed remaining : gset string),
    (size remaining <= fuel)%nat ->
    (forall tid, tid ∈ remaining -> tid ∈ task_id <$> subtasks) ->
    exists groups,
      parallel_groups_loop fuel subtasks completed remaining = Done groups
      /\ NoDup (concat groups)
      /\ (forall tid, tid ∈ concat groups -> tid ∈ remaining)
      /\ (forall tid, tid ∈ remaining -> tid ∉ concat groups ->
            eligible subtasks (completed ∪ list_to_set (concat groups)) tid = false)
      /\ (forall gs g gs' tid, groups = gs ++ g :: gs' -> tid ∈ g ->
            eligible subtasks (completed ∪ list_to_set (concat gs)) tid = true).
Proof.
  induction fuel as [|fuel IH]; intros completed remaining Hsize Hids.
  - assert (remaining = ∅) as -> by (apply leibniz_equiv, size_empty_iff; lia).
    exists []. simpl.
    split_and!; first [done | apply NoDup_nil_2 | set_solver | by intros [|??] ????].
  - simpl. case_bool_decide as Hempty.
    { subst. exists []. simpl.
      split_and!; first [done | apply NoDup_nil_2 | set_solver | by intros [|??] ????]. }
    rewrite current_group_of_filter.
    2:{ apply Forall_forall. intros tid Hin. apply Hids. by apply elem_of_elements. }
    simpl.
    set (group := List.filter (eligible subtasks completed) (elements remaining)).
    assert (forall tid, tid ∈ group <-> tid ∈ remaining /\ eligible subtasks completed tid = true)
      as Hgroup.
    { intros tid. unfold group. rewrite elem_of_list_filter, elem_of_elements. done. }
    case_bool_decide as Hnil.
    + exists []. simpl.
      split_and!; [done|apply NoDup_nil_2|set_solver| |by intros [|??] ????].
      intros tid Hin _. rewrite (right_id_L ∅ (∪)).
      apply (filter_nil_none _ (elements remaining)); [done|].
      by apply elem_of_elements.
    + destruct (IH (completed ∪ list_to_set group) (remaining ∖ list_to_set group))
        as (groups & Heq & Hnodup & Hsub & Hstuck & Helig).
      { destruct group as [|tid0 group'] eqn:Hg; [done|].
        assert (tid0 ∈ remaining) as Hin0.
        { apply Hgroup. by left. }
        assert (remaining ∖ list_to_set (tid0 :: group') ⊂ remaining) as Hlt.
        { apply strict_spec_alt. split; [set_solver|].
          intros Heq. assert (tid0 ∈ remaining ∖ list_to_set (tid0 :: group')) as Hbad
            by by rewrite Heq.
          set_solver. }
        apply subset_size in Hlt. lia. }
      { intros tid Hin. apply Hids. set_solver. }
      rewrite Heq. simpl. exists (group :: groups). split_and!; [done|..].
      * simpl. apply NoDup_app. split_and!.
        -- unfold group. apply NoDup_list_filter, NoDup_elements.
        -- intros tid Hin1 Hin2. apply Hsub in Hin2. set_solver.
        -- done.
      * simpl. intros tid Hin. apply elem_of_app in Hin as [Hin|Hin].
        -- by apply Hgroup in Hin as [? _].
        -- apply Hsub in Hin. set_solver.
      * simpl. intros tid Hin Hnot.
        rewrite list_to_set_app_L, (assoc_L (∪)).
        apply Hstuck; set_solver.
      * intros gs g gs' tid Hgs Hin. destruct gs as [|g0 gs]; simplify_eq/=.
        -- rewrite (right_id_L ∅ (∪)). by apply Hgroup in Hin as [_ ?].
        -- rewrite list_to_set_app_L, (assoc_L (∪)). by eapply Helig.
Qed.

Lemma size_ids_le (ids : list string) :
  (size (list_to_set ids : gset string) <= length ids)%nat.
Proof.
  induction ids as [|tid ids IH]; simpl.
  - done.
  - rewrite size_union_alt, size_singleton.
    pose proof (subseteq_size (list_to_set ids ∖ {[tid]}) (list_to_set ids : gset string)) as Hle.
    assert (size (list_to_set ids ∖ {[tid]} : gset string) <= size (list_to_set ids : gset string))%nat
      by (apply Hle; set_solver).
    lia.
Qed.

(** [_calculate_parallel_groups] returns: its groups are disjoint, they hold
    ids of the list only, an id that is in no group is not eligible even when
    every grouped id counts as completed, and an id in a group is eligible
    once the ids of the groups before it are completed. *)
Lemma _calculate_parallel_groups_returns (subtasks : list SubTask) :
  exists groups,
    _calculate_parallel_groups subtasks = Done groups
    /\ NoDup (concat groups)
    /\ (forall tid, tid ∈ concat groups -> tid ∈ task_id <$> subtasks)
    /\ (forall tid, tid ∈ task_id <$> subtasks -> tid ∉ concat groups ->
          eligible subtasks (list_to_set (concat groups)) tid = false)
    /\ (forall gs g gs' tid, groups = gs ++ g :: gs' -> tid ∈ g ->
          eligible subtasks (list_to_set (concat gs)) tid = true).
Proof.
  unfold _calculate_parallel_groups.
  destruct (parallel_groups_loop_returns subtasks (length subtasks) ∅
              (list_to_set (task_id <$> subtasks)))
    as (groups & Heq & Hnodup & Hsub & Hstuck & Helig).
  - etrans; [apply size_ids_le|]. by rewrite length_fmap.
  - intros tid Hin. by apply elem_of_list_to_set in Hin.
  - exists groups. split_and!; [done|done|..].
    + intros tid Hin. apply Hsub in Hin. by apply elem_of_list_to_set in Hin.
    + intros tid Hin Hnot. rewrite <- (left_id_L ∅ (∪) (list_to_set (concat groups))).
      apply Hstuck; [|done]. by apply elem_of_list_to_set.
    + intros gs g gs' tid Hgs Hin.
      rewrite <- (left_id_L ∅ (∪) (list_to_set (concat gs))). by eapply Helig.
Qed.

(** ** Claims about the wave scheduler *)

(** Every dependency names a subtask of the same list. *)
Definition deps_closed (subtasks : list SubTask) : Prop :=
  forall t dep, t ∈ subtasks -> dep ∈ depends_on t -> dep ∈ task_id <$> subtasks.

(** The dependency graph has no cycle: the ids can be ranked so that every
    dependency ranks below the subtask that declares it. *)
Definition acyclic (subtasks : list SubTask) : Prop :=
  exists rank : string -> nat,
    forall t dep, t ∈ subtasks -> dep ∈ depends_on t -> (rank dep < rank (task_id t))%nat.

(** The subtask [t] is in the wave of index [i]. *)
Definition in_wave (waves : list (list SubTask)) (t : SubTask) (i : nat) : Prop :=
  exists w, waves !! i = Some w /\ t ∈ w.

(** Every subtask is scheduled strictly after the subtasks it depends on. *)
Definition dependencies_first (subtasks : list SubTask) (waves : list (list SubTask)) : Prop :=
  forall t d i j,
    t ∈ subtasks -> d ∈ subtasks -> task_id d ∈ depends_on t ->
    in_wave waves t i -> in_wave waves d j -> (j < i)%nat.

(** A chain of three subtasks: fetch, then build, then quiz. *)
Definition fetch_task : SubTask :=
  mkSubTask "content-fetcher_001" "content-fetcher" "Fetch content" ∅ 1 [] true 5.
Definition build_task : SubTask :=
  mkSubTask "context-builder_002" "context-builder" "Build context" ∅ 1
    ["content-fetcher_001"] true 5.
Definition quiz_task : SubTask :=
  mkSubTask "quiz-generator_003" "quiz-generator" "Generate quiz" ∅ 1
    ["context-builder_002"] true 5.
Definition chain_tasks : list SubTask := [fetch_task; build_task; quiz_task].


(** C10. For every list of subtasks, whatever its dependencies (cyclic and
    dangling ones included), [create_execution_plan] returns, and the
    concatenation of the waves it returns is a permutation of the input list:
    each subtask is in exactly one wave and none is dropped. *)
Theorem create_execution_plan_partition (subtasks : list SubTask) :
  exists waves out,
    create_execution_plan subtasks = Done (waves, out) /\ concat waves ≡ₚ subtasks.
Proof.
  destruct (create_execution_plan_runs subtasks) as (waves & out & Heq & Hrun).
  exists waves, out. split; [done|]. by eapply plan_run_permutation.
Qed.

(** C1, at the input that breaks it. The chain fetch, build, quiz is acyclic
    and all its dependencies name subtasks of the list, yet
    [create_execution_plan] puts [build_task] and [quiz_task] in the same
    wave although the second depends on the first: [completed] collects
    [ion_name]s while [depends_on] holds task ids, so no dependency is ever
    found completed. *)
Theorem create_execution_plan_chain_same_wave :
  deps_closed chain_tasks
  /\ acyclic chain_tasks
  /\ create_execution_plan chain_tasks
     = Done ([[fetch_task]; [build_task; quiz_task]], [warn_unresolved 2])
  /\ ~ dependencies_first chain_tasks [[fetch_task]; [build_task; quiz_task]].
Proof.
  split_and!.
  - intros t dep Ht Hdep. unfold chain_tasks in Ht.
    repeat (apply elem_of_cons in Ht as [->|Ht]); simpl in *; set_solver.
  - exists (fun tid => if bool_decide (tid = "content-fetcher_001") then 0%nat
                       else if bool_decide (tid = "context-builder_002") then 1%nat
                       else 2%nat).
    intros t dep Ht Hdep. unfold chain_tasks in Ht.
    repeat (apply elem_of_cons in Ht as [->|Ht]); simpl in *;
      repeat (apply elem_of_cons in Hdep as [->|Hdep]);
      try (by apply elem_of_nil in Hdep); try (by apply elem_of_nil in Ht);
      vm_compute; lia.
  - by vm_compute.
  - intros Hfirst.
    assert (1 < 1)%nat as Hlt; [|lia].
    apply (Hfirst quiz_task build_task 1%nat 1%nat).
    + set_solver.
    + set_solver.
    + simpl. set_solver.
    + exists [build_task; quiz_task]. split; [done|set_solver].
    + exists [build_task; quiz_task]. split; [done|set_solver].
Qed.

(** The sibling partition does what C1 says. For a list with distinct task
    ids, closed under its dependencies and without a cycle,
    [_calculate_parallel_groups] puts every id in exactly one group and every
    dependency in a strictly earlier group than the subtask that declares
    it. *)

(** The id [tid] is in the group of index [i]. *)
Definition in_group (groups : list (list string)) (tid : string) (i : nat) : Prop :=
  exists g, groups !! i = Some g /\ tid ∈ g.

Lemma find_by_task_id (subtasks : list SubTask) (t : SubTask) :
  NoDup (task_id <$> subtasks) -> t ∈ subtasks ->
  List.find (fun st => bool_decide (task_id st = task_id t)) subtasks = Some t.
Proof.
  induction subtasks as [|x l IH]; intros Hnodup Hin.
  - by apply elem_of_nil in Hin.
  - cbn in Hnodup. apply NoDup_cons in Hnodup as [Hx Hl].
    cbn. case_bool_decide as Heq.
    + apply elem_of_cons in Hin as [->|Hin]; [done|].
      exfalso. apply Hx. rewrite Heq. by apply list_elem_of_fmap_2.
    + apply elem_of_cons in Hin as [->|Hin]; [done|]. by apply IH.
Qed.

Lemma eligible_deps_met (subtasks : list SubTask) (completed : gset string) (t : SubTask) :
  NoDup (task_id <$> subtasks) -> t ∈ subtasks ->
  eligible subtasks completed (task_id t) = deps_met completed t.
Proof. intros Hnodup Hin. unfold eligible. by rewrite find_by_task_id. Qed.

Lemma deps_met_true (completed : gset string) (t : SubTask) :
  deps_met completed t = true <-> forall dep, dep ∈ depends_on t -> dep ∈ completed.
Proof.
  unfold deps_met. rewrite forallb_forall. split.
  - intros H dep Hin. apply list_elem_of_In in Hin. apply H in Hin.
    by apply bool_decide_eq_true in Hin.
  - intros H dep Hin. apply bool_decide_eq_true, H. by apply list_elem_of_In.
Qed.

Lemma elem_of_concat {A : Type} (x : A) (ls : list (list A)) :
  x ∈ concat ls <-> exists l, l ∈ ls /\ x ∈ l.
Proof.
  rewrite list_elem_of_In, in_concat. by setoid_rewrite list_elem_of_In.
Qed.

Lemma concat_index_unique {A : Type} (ls : list (list A)) :
  NoDup (concat ls) ->
  forall i j a b x, ls !! i = Some a -> ls !! j = Some b -> x ∈ a -> x ∈ b -> i = j.
Proof.
  induction ls as [|l0 ls IH]; intros Hnodup i j a b x Hi Hj Ha Hb.
  - done.
  - cbn in Hnodup. apply NoDup_app in Hnodup as (Hl0 & Hdisj & Hls).
    destruct i as [|i], j as [|j]; simplify_eq/=.
    + done.
    + exfalso. apply (Hdisj x Ha). apply elem_of_concat. exists b.
      split; [|done]. by eapply list_elem_of_lookup_2.
    + exfalso. apply (Hdisj x Hb). apply elem_of_concat. exists a.
      split; [|done]. by eapply list_elem_of_lookup_2.
    + f_equal. by eapply IH.
Qed.

Lemma parallel_groups_dependencies_first (subtasks : list SubTask) :
  NoDup (task_id <$> subtasks) -> deps_closed subtasks -> acyclic subtasks ->
  exists groups,
    _calculate_parallel_groups subtasks = Done groups
    /\ concat groups ≡ₚ task_id <$> subtasks
    /\ forall t dep i j,
         t ∈ subtasks -> dep ∈ depends_on t ->
         in_group groups (task_id t) i -> in_group groups dep j -> (j < i)%nat.
Proof.
  intros Hnodup Hclosed [rank Hrank].
  destruct (_calculate_parallel_groups_returns subtasks)
    as (groups & Heq & Hgnodup & Hsub & Hstuck & Helig).
  exists groups. split; [done|].
  assert (forall n t, t ∈ subtasks -> (rank (task_id t) < n)%nat ->
                      task_id t ∈ concat groups) as Hall.
  { induction n as [|n IH]; intros t Ht Hlt; [lia|].
    destruct (decide (task_id t ∈ concat groups)) as [|Hnot]; [done|].
    exfalso.
    pose proof (Hstuck (task_id t) (list_elem_of_fmap_2 _ _ _ Ht) Hnot) as Hfalse.
    rewrite eligible_deps_met in Hfalse by done.
    assert (deps_met (list_to_set (concat groups)) t = true) as Htrue; [|congruence].
    apply deps_met_true. intros dep Hdep. apply elem_of_list_to_set.
    destruct (list_elem_of_fmap_1 _ _ _ (Hclosed t dep Ht Hdep)) as (d & -> & Hd).
    apply IH; [done|]. specialize (Hrank t (task_id d) Ht Hdep). lia. }
  split.
  - apply NoDup_Permutation; [done|done|].
    intros tid. split; [apply Hsub|].
    intros Hin. apply list_elem_of_fmap_1 in Hin as (t & -> & Ht).
    by apply (Hall (S (rank (task_id t)))); [|lia].
  - intros t dep i j Ht Hdep (g & Hi & Hg) (g' & Hj & Hg').
    pose proof (Helig (take i groups) g (drop (S i) groups) (task_id t)
                  (eq_sym (take_drop_middle _ _ _ Hi)) Hg) as He.
    rewrite eligible_deps_met in He by done.
    rewrite deps_met_true in He. specialize (He dep Hdep).
    apply elem_of_list_to_set, elem_of_concat in He as (g'' & Hg'' & Hdep'').
    apply list_elem_of_lookup in Hg'' as (j' & Hj').
    apply lookup_take_Some in Hj' as [Hj' Hlt].
    by rewrite (concat_index_unique groups Hgnodup j j' g' g'' dep Hj Hj' Hg' Hdep'').
Qed.

(** On the chain, the sibling partition makes three groups, one per subtask,
    where the coordinator makes two waves. *)
Example parallel_groups_chain :
  _calculate_parallel_groups chain_tasks
  = Done [["content-fetcher_001"]; ["context-builder_002"]; ["quiz-generator_003"]].
Proof. by vm_compute. Qed.



(** The request of the scenario, and a request that only asks for an analysis. *)
Definition scenario_text : string := "Analyze the codebase for duplicates and dead code".
Definition analysis_text : string := "Analyze the codebase".

(** The plan that a fresh decomposer (counter at 0, no context) makes of a
    request, and the waves that the coordinator schedules for a plan. *)
Definition plan_of (task : string) : option TaskPlan :=
  match decompose task None 0 with
  | Done (plan, _) => Some plan
  | _ => None
  end.

Definition waves_of (plan : TaskPlan) : option (list (list SubTask)) :=
  match create_execution_plan (subtasks plan) with
  | Done (waves, _) => Some waves
  | _ => None
  end.

(** C5 fails on the scenario's own text: it contains the word duplicates, and
    the duplicate test is the first of the classifier's chain, so the pattern
    is not codebase analysis, one subtask is built instead of four and the
    plan has a single wave. *)
Lemma scenario_text_not_codebase_analysis :
  _identify_pattern scenario_text ≠ CODEBASE_ANALYSIS
  /\ (fun plan => length (subtasks plan)) <$> plan_of scenario_text ≠ Some 4%nat
  /\ (fun waves => map length waves) <$> (plan_of scenario_text ≫= waves_of)
     ≠ Some [3%nat; 1%nat].
Proof. split_and!; by vm_compute. Qed.

(** C5, amended. The scenario's text resolves to the duplicate-detection
    pattern; one subtask is built for it, bound to the duplicate detector and
    without dependencies, and the plan is a single wave of size 1. The shape
    of the scenario belongs to a request that only asks for an analysis, such
    as [analysis_text]: it resolves to the codebase-analysis pattern, four
    subtasks are built (three analysis subtasks without dependencies and the
    refactor planner, which depends on the three), and the coordinator
    schedules them in exactly two waves, of sizes 3 and 1. *)
Theorem scenario_texts_plans :
  (pattern <$> plan_of scenario_text = Some DUPLICATE_DETECTION
   /\ (fun plan => map ion_name (subtasks plan)) <$> plan_of scenario_text
      = Some ["duplicate-detector"]
   /\ (fun plan => map depends_on (subtasks plan)) <$> plan_of scenario_text
      = Some [[]]
   /\ (fun waves => map (map task_id) waves) <$> (plan_of scenario_text ≫= waves_of)
      = Some [["duplicate-detector_001"]])
  /\ (pattern <$> plan_of analysis_text = Some CODEBASE_ANALYSIS
      /\ (fun plan => map task_id (subtasks plan)) <$> plan_of analysis_text
         = Some ["duplicate-detector_001"; "dead-code-eliminator_002";
                 "code-grouper_003"; "refactor-planner_004"]
      /\ (fun plan => map depends_on (subtasks plan)) <$> plan_of analysis_text
         = Some [[]; []; [];
                 ["duplicate-detector_001"; "dead-code-eliminator_002"; "code-grouper_003"]]
      /\ (fun waves => map (map task_id) waves) <$> (plan_of analysis_text ≫= waves_of)
         = Some [["duplicate-detector_001"; "dead-code-eliminator_002"; "code-grouper_003"];
                 ["refactor-planner_004"]]).
Proof. split_and!; by vm_compute. Qed.

(** ** The adaptive router *)

Lemma Qlt_bool_true (x y : Q) : Qlt_bool x y = true <-> (x < y)%Q.
Proof.
  unfold Qlt_bool. rewrite negb_true_iff. split.
  - intros H. apply Qnot_le_lt. intros Hle. apply Qle_bool_iff in Hle. congruence.
  - intros H. destruct (Qle_bool y x) eqn:E; [|done].
    apply Qle_bool_iff in E. exfalso. by apply (Qlt_not_le x y).
Qed.

Lemma Qlt_bool_false (x y : Q) : Qlt_bool x y = false <-> (y <= x)%Q.
Proof.
  unfold Qlt_bool. rewrite negb_false_iff. apply Qle_bool_iff.
Qed.

Section stable_sort.
Context {A : Type} (key : A -> Q).

(** [a] may stand before [b] in a list sorted by descending key. *)
Definition desc (a b : A) : Prop := (key b <= key a)%Q.

Lemma insert_desc_perm (x : A) (l : list A) : insert_desc key x l ≡ₚ x :: l.
Proof.
  induction l as [|y l IH]; simpl; [done|].
  destruct (Qlt_bool (key x) (key y)); [|done].
  rewrite IH. apply perm_swap.
Qed.

Lemma sort_desc_perm (l : list A) : sort_desc key l ≡ₚ l.
Proof.
  induction l as [|x l IH]; simpl; [done|].
  unfold sort_desc in *. simpl. rewrite insert_desc_perm. by constructor.
Qed.

Lemma insert_desc_sorted (x : A) (l : list A) :
  StronglySorted desc l -> StronglySorted desc (insert_desc key x l).
Proof.
  induction 1 as [|y l Hl IH Hy]; simpl.
  - repeat constructor.
  - destruct (Qlt_bool (key x) (key y)) eqn:E.
    + constructor; [done|].
      rewrite (insert_desc_perm x l). constructor; [|done].
      apply Qlt_bool_true in E. unfold desc. by apply Qlt_le_weak.
    + apply Qlt_bool_false in E. constructor.
      * by constructor.
      * constructor; [done|].
        eapply Forall_impl; [exact Hy|]. unfold desc. intros b Hb.
        by eapply Qle_trans.
Qed.

Lemma sort_desc_sorted (l : list A) : StronglySorted desc (sort_desc key l).
Proof.
  induction l as [|x l IH]; simpl; [constructor|].
  by apply insert_desc_sorted.
Qed.

(** Stability: the elements of one score keep their original order. *)
Lemma insert_desc_same_key (q : Q) (x : A) (l : list A) :
  List.filter (fun a => Qeq_bool (key a) q) (insert_desc key x l)
  = List.filter (fun a => Qeq_bool (key a) q) (x :: l).
Proof.
  induction l as [|y l IH]; [done|].
  cbn [insert_desc]. destruct (Qlt_bool (key x) (key y)) eqn:E; [|done].
  cbn [List.filter] in *. rewrite IH.
  destruct (Qeq_bool (key x) q) eqn:Ex, (Qeq_bool (key y) q) eqn:Ey; try done.
  apply Qeq_bool_iff in Ex, Ey. apply Qlt_bool_true in E.
  rewrite Ex, Ey in E. by apply Qlt_irrefl in E.
Qed.

Lemma sort_desc_same_key (q : Q) (l : list A) :
  List.filter (fun a => Qeq_bool (key a) q) (sort_desc key l)
  = List.filter (fun a => Qeq_bool (key a) q) l.
Proof.
  induction l as [|x l IH]; [done|].
  unfold sort_desc in *. cbn [foldr]. rewrite insert_desc_same_key.
  cbn [List.filter]. by rewrite IH.
Qed.

End stable_sort.



(** The routes that [route] scores, in registration order. *)
Definition matching_routes (content_type : ContentType) (capability : AgentCapability)
    (routes : list AgentRoute) : list AgentRoute :=
  List.filter (fun r => type_match content_type r || capability_match capability r) routes.

Lemma collect_matches_map content_type capability routes :
  collect_matches content_type capability routes
  = (fun r => (agent_name r, route_score content_type capability r))
      <$> matching_routes content_type capability routes.
Proof.
  induction routes as [|r routes IH]; [done|].
  cbn. destruct (type_match content_type r || capability_match capability r); cbn;
    by rewrite IH.
Qed.

(** The rate that [update_success_rate] would read for a name: that of the
    first route that carries it. *)
Definition rate_of (routes : list AgentRoute) (name : string) : option Q :=
  success_rate <$> List.find (fun r => bool_decide (agent_name r = name)) routes.







(** ** Claims about the adaptive router *)


(** On the empty text nothing is detected: the content type is unknown and
    the capability is the default one, which four of the default routes
    declare. *)
Example route_empty_text :
  route default_routes ""
  = ["youtube-extractor"; "quality-assessor"; "duplicate-detector-ion";
     "refactor-planner-ion"]
  /\ route [] "" = ["general-learning-agent"].
Proof. split; by vm_compute. Qed.



(** ** Claims about the coordinator and the synthesizer *)

(** A rendering, for the examples. *)
Definition plain_rendering : Rendering :=
  mkRendering (fun _ => "{}") (fun t => pretty t).

(** Pattern-specific methods that raise on every input, for the examples that
    do not reach them. *)
Definition no_fusions : Fusions := fun _ _ => Raise (Exception "no method").

(** Pattern-specific methods that return an empty summary, no section and no
    recommendation, for the examples that look at the raw outputs only. *)
Definition blank_fusions : Fusions := fun _ _ => Done (mkFused "" [] []).

(** A world with an empty feedback store and the default routes. *)
Definition fresh_world : World := mkWorld 0 [] default_routes 0 [] [].

(** The two waves planned for [analysis_text]. *)
Definition analysis_waves : list (list SubTask) :=
  default [] (plan_of analysis_text ≫= waves_of).

(** A bridge whose executors all reply with success after 10 ms, except the
    dead-code eliminator, which replies after 200 s. *)
Definition quick_reply : IonReply :=
  mkIonReply true (dict_of [("duplicates_found", VInt 7)]) None 10.

Definition slow_bridge : IonBridge :=
  mkIonBridge (fun _ => Returns true)
    (fun name _ _ _ =>
       if bool_decide (name = "dead-code-eliminator-ion")
       then mkIonCall 200000000 (Returns quick_reply)
       else mkIonCall 10000 (Returns quick_reply)).

(** A bridge that knows no executor: every subtask is simulated. *)
Definition no_bridge : IonBridge :=
  mkIonBridge (fun _ => Returns false)
    (fun _ _ _ _ => mkIonCall 0 (Raises (Exception "no ion"))).

(** What [run_wave] adds to [all_outputs]: the outputs of the coroutines when
    all of them finish within the budget, and otherwise one timeout failure
    for every subtask of the wave, finished or not. *)
Lemma run_wave_outputs (py : Rendering) (bridge : IonBridge) (timeout_seconds : Z)
    (n_waves : nat) (wave : list SubTask) (st : WaveLoop) :
  let runs := _execute_wave py bridge (clock (world st)) wave (previous_wave_results st) in
  all_outputs (run_wave py bridge timeout_seconds n_waves wave st)
  = all_outputs st ++
    if forallb (fun r => within_budget timeout_seconds n_waves (run_latency r)) runs
    then run_output <$> runs
    else timeout_output (clock (world st) + budget_us timeout_seconds n_waves) <$> wave.
Proof.
  intros runs. unfold run_wave, wait_for_wave. fold runs.
  by destruct (forallb _ runs).
Qed.

(** C2, at the input that breaks it: [execute] on [analysis_text] with 300 s
    for the two waves of the plan, hence 150 s for each. In the first wave the
    duplicate detector and the code grouper reply with success after 10 ms,
    the dead-code eliminator only after 200 s. The wave times out, and all
    three subtasks of the wave, the two that had finished included, are
    recorded as failed with the timeout error. The second wave then runs, and
    its output is the real one. *)
Theorem wave_timeout_discards_finished (py : Rendering) :
  let runs := _execute_wave py slow_bridge 0 (default [] (analysis_waves !! 0%nat)) ∅ in
  exists report w',
    execute blank_fusions py slow_bridge fresh_world analysis_text 300 = Done (report, w')
    /\ (out_ion_name <$> (run_output <$> runs))
       = ["duplicate-detector"; "dead-code-eliminator"; "code-grouper"]
    /\ (out_success <$> (run_output <$> runs)) = [true; true; true]
    /\ ((fun r => within_budget 300 2 (run_latency r)) <$> runs) = [true; false; true]
    /\ (out_ion_name <$> raw_outputs report)
       = ["duplicate-detector"; "dead-code-eliminator"; "code-grouper"; "refactor-planner"]
    /\ (out_success <$> raw_outputs report) = [false; false; false; true]
    /\ (out_error <$> raw_outputs report)
       = [Some "Execution timeout"; Some "Execution timeout"; Some "Execution timeout"; None]
    /\ (out_result <$> raw_outputs report)
       = [dict_of [("error", VStr "Timeout")]; dict_of [("error", VStr "Timeout")];
          dict_of [("error", VStr "Timeout")]; reply_result quick_reply].
Proof. eexists _, _. split_and!; by vm_compute. Qed.












(** The shape of the report that stands for the exception [e]: a title, a
    summary, one section with the details of the error, the metadata, no
    raw output and one recommendation. *)
Definition is_error_report (task : string) (e : exn) (report : SynthesizedReport) : Prop :=
  title report = "Execution Error"
  /\ summary report = "Task execution failed: " +:+ exn_str e
  /\ sections report
     = [dict_of [ ("title", VStr "Error Details"); ("icon", VStr "[ERR]");
                  ("content", VStr (exn_str e)); ("priority", VStr "high") ]]
  /\ metadata report !! "error" = Some (MStr (exn_str e))
  /\ metadata report !! "task" = Some (MStr task)
  /\ (exists seconds, metadata report !! "duration_seconds" = Some (MFloat seconds))
  /\ raw_outputs report = []
  /\ recommendations report = ["Review the error and retry"].





(** With the components of the repository, [execute] returns a report
    whenever the pattern-specific methods return or raise. *)
Lemma execute_returns (fusions : Fusions) (py : Rendering) (bridge : IonBridge)
    (w : World) (task : string) (timeout_seconds : Z) :
  (forall f outputs, fusions f outputs ≠ OutOfFuel) ->
  exists report w', execute fusions py bridge w task timeout_seconds = Done (report, w').
Proof.
  intros Hfuel. unfold execute, execute_with, pipeline, on_exception. cbn [do_decompose
    do_create_execution_plan do_synthesize].
  unfold decompose.
  destruct (patterns (_identify_pattern task) task (default ∅ None) (task_counter w))
    as [subtasks counter] eqn:Hbuild.
  destruct (create_execution_plan_runs subtasks) as (waves & out & Hplan & _).
  destruct (_calculate_parallel_groups_returns subtasks) as (groups & Hgroups & _).
  rewrite Hgroups. cbn. rewrite Hplan. cbv zeta.
  unfold synthesize.
  destruct (synthesizers (pattern_value (_identify_pattern task))) as [f|]; cbn.
  - match goal with |- context [fusions f ?outs] =>
      destruct (fusions f outs) as [fused|e|] eqn:Hf end; cbn.
    + by eexists _, _.
    + by eexists _, _.
    + by apply Hfuel in Hf.
  - by eexists _, _.
Qed.

(** The handler at work: the method for the codebase analysis raises, and
    [execute] returns the error report of that exception. *)
Example execute_error_report_example :
  exists report w',
    execute no_fusions plain_rendering no_bridge fresh_world analysis_text 300
    = Done (report, w')
    /\ title report = "Execution Error"
    /\ summary report = "Task execution failed: no method"
    /\ raw_outputs report = [].
Proof. eexists _, _. split_and!; by vm_compute. Qed.





(** * Further properties of the code *)

(** ** The decomposer's task ids *)

(** The decimal digits, and the strings made of them. *)
Definition is_digit (c : ascii) : bool :=
  let n := nat_of_ascii c in (48 <=? n)%nat && (n <=? 57)%nat.

Fixpoint all_digits (s : string) : bool :=
  match s with
  | EmptyString => true
  | String c s' => is_digit c && all_digits s'
  end.

Lemma all_digits_app (s1 s2 : string) :
  all_digits (s1 +:+ s2) = all_digits s1 && all_digits s2.
Proof.
  induction s1 as [|c s1 IH]; simpl; [done|]. by rewrite IH, andb_assoc.
Qed.

Lemma pretty_N_char_digit (x : N) : is_digit (pretty_N_char x) = true.
Proof. unfold pretty_N_char. by repeat case_match. Qed.

Lemma pretty_N_go_digits (x : N) :
  forall s, all_digits s = true -> all_digits (pretty_N_go x s) = true.
Proof.
  induction (N.lt_wf_0 x) as [x _ IH]; intros s Hs.
  assert (x = 0 \/ 0 < x)%N as [->|Hx] by lia.
  - by rewrite pretty_N_go_0.
  - rewrite pretty_N_go_step by done. apply IH; [by apply N.div_lt|].
    simpl. by rewrite pretty_N_char_digit.
Qed.

Lemma pretty_nat_digits (n : nat) : all_digits (pretty n) = true.
Proof.
  unfold pretty, pretty_nat, pretty, pretty_N.
  case_decide; [done|]. by apply pretty_N_go_digits.
Qed.

(** The decimal rendering of a positive number does not start with a zero. *)
Lemma pretty_N_go_leading (x : N) :
  (0 < x)%N ->
  forall s, exists c s', pretty_N_go x s = String c s' /\ c ≠ "0"%char.
Proof.
  induction (N.lt_wf_0 x) as [x _ IH]; intros Hx s.
  rewrite pretty_N_go_step by done.
  destruct (N.eq_0_gt_0_cases (x `div` 10)) as [Hz|Hp].
  - rewrite Hz, pretty_N_go_0. eexists _, _. split; [done|].
    assert (x < 10)%N.
    { pose proof (N.div_mod x 10 ltac:(done)) as Hdm.
      pose proof (N.mod_lt x 10 ltac:(done)). lia. }
    rewrite N.mod_small by done.
    assert (x = 1 \/ x = 2 \/ x = 3 \/ x = 4 \/ x = 5 \/ x = 6
            \/ x = 7 \/ x = 8 \/ x = 9)%N by lia.
    naive_solver.
  - apply IH; [by apply N.div_lt|done].
Qed.

Lemma pretty_nat_leading (n : nat) (a b : ascii) (r : string) :
  pretty n = String a (String b r) -> a ≠ "0"%char.
Proof.
  unfold pretty, pretty_nat, pretty, pretty_N. case_decide as Hn; [done|].
  destruct (pretty_N_go_leading (N.of_nat n) ltac:(lia) "") as (c & s' & -> & Hc).
  by intros [= <- _].
Qed.

Lemma pretty_nat_nonempty (n : nat) : pretty n ≠ "".
Proof.
  unfold pretty, pretty_nat, pretty, pretty_N. case_decide as Hn; [done|].
  by destruct (pretty_N_go_leading (N.of_nat n) ltac:(lia) "") as (c & s' & -> & Hc).
Qed.

Lemma fmt_03d_digits (n : nat) : all_digits (fmt_03d n) = true.
Proof.
  unfold fmt_03d. pose proof (pretty_nat_digits n) as Hd.
  destruct (pretty n) as [|a [|b [|c d]]]; simpl in *; done.
Qed.

Lemma fmt_03d_length (n : nat) : (3 <= String.length (fmt_03d n))%nat.
Proof.
  unfold fmt_03d. pose proof (pretty_nat_nonempty n).
  destruct (pretty n) as [|a [|b [|c d]]]; simpl; [done|lia..].
Qed.

(** [f"{n:03d}"] tells the numbers apart: the padding zeros cannot be taken
    for digits of the number, which has no leading zero. *)
Lemma fmt_03d_inj (m n : nat) : fmt_03d m = fmt_03d n -> m = n.
Proof.
  unfold fmt_03d. intros Heq. apply (inj pretty).
  pose proof (pretty_nat_nonempty m) as Hm0.
  pose proof (pretty_nat_nonempty n) as Hn0.
  pose proof (pretty_nat_leading m) as Hm.
  pose proof (pretty_nat_leading n) as Hn.
  destruct (pretty m) as [|a1 [|b1 [|c1 d1]]], (pretty n) as [|a2 [|b2 [|c2 d2]]];
    cbv [String.length String.append] in Heq; try done; simplify_eq;
    first [ done | exfalso; eapply Hm; reflexivity | exfalso; eapply Hn; reflexivity ].
Qed.

(** An id is cut at its last underscore: what follows is digits only. *)
Lemma task_id_split (a b d1 d2 : string) :
  all_digits d1 = true -> all_digits d2 = true ->
  a +:+ "_" +:+ d1 = b +:+ "_" +:+ d2 -> a = b /\ d1 = d2.
Proof.
  intros H1 H2. revert b.
  induction a as [|c a IH]; intros [|c' b] Heq; cbv [String.append] in Heq;
    fold String.append in Heq.
  - by simplify_eq.
  - injection Heq as _ Hd. rewrite Hd, all_digits_app in H1.
    by apply andb_prop in H1 as [_ ?].
  - injection Heq as _ Hd. rewrite <- Hd, all_digits_app in H2.
    by apply andb_prop in H2 as [_ ?].
  - injection Heq as <- Heq. apply IH in Heq as [-> ->]. done.
Qed.

Lemma _generate_task_id_inj (ion1 ion2 : string) (c1 c2 : nat) :
  (_generate_task_id ion1 c1).1 = (_generate_task_id ion2 c2).1 ->
  ion1 = ion2 /\ c1 = c2.
Proof.
  unfold _generate_task_id. simpl. intros Heq.
  apply task_id_split in Heq as [-> Heq]; [|apply fmt_03d_digits..].
  apply fmt_03d_inj in Heq. split; [done|lia].
Qed.

(** [_generate_task_id] bumps the counter by one, and the id it returns is the
    name, an underscore and at least three digits; two ids are equal only when
    they were drawn for the same name at the same value of the counter. So no
    id is handed out twice in the life of a decomposer, for whatever names. *)
Theorem task_ids_unique (ion1 ion2 : string) (c1 c2 : nat) :
  (_generate_task_id ion1 c1).2 = S c1
  /\ (exists digits,
        (_generate_task_id ion1 c1).1 = ion1 +:+ "_" +:+ digits
        /\ all_digits digits = true
        /\ (3 <= String.length digits)%nat)
  /\ ((_generate_task_id ion1 c1).1 = (_generate_task_id ion2 c2).1
      <-> ion1 = ion2 /\ c1 = c2).
Proof.
  split_and!.
  - done.
  - exists (fmt_03d (S c1)). split_and!; [done|apply fmt_03d_digits|apply fmt_03d_length].
  - split; [apply _generate_task_id_inj|]. by intros [-> ->].
Qed.

(** ** The decomposer's parallel groups *)

(** The rounds of [_calculate_parallel_groups]: a round takes every remaining
    id that is eligible, all of them at once; the loop ends when nothing
    remains, or when no remaining id is eligible. *)
Inductive groups_run (subtasks : list SubTask)
  : gset string -> gset string -> list (list string) -> Prop :=
| groups_run_done completed :
    groups_run subtasks completed ∅ []
| groups_run_stuck completed remaining :
    remaining ≠ ∅ ->
    (forall tid, tid ∈ remaining -> eligible subtasks completed tid = false) ->
    groups_run subtasks completed remaining []
| groups_run_round completed remaining group groups :
    group ≠ [] ->
    NoDup group ->
    (forall tid, tid ∈ group <-> tid ∈ remaining /\ eligible subtasks completed tid = true) ->
    groups_run subtasks (completed ∪ list_to_set group) (remaining ∖ list_to_set group) groups ->
    groups_run subtasks completed remaining (group :: groups).

Lemma parallel_groups_loop_run (subtasks : list SubTask) (fuel : nat) :
  forall (completed remaining : gset string),
    (size remaining <= fuel)%nat ->
    (forall tid, tid ∈ remaining -> tid ∈ task_id <$> subtasks) ->
    exists groups,
      parallel_groups_loop fuel subtasks completed remaining = Done groups
      /\ groups_run subtasks completed remaining groups.
Proof.
  induction fuel as [|fuel IH]; intros completed remaining Hsize Hids.
  - assert (remaining = ∅) as -> by (apply leibniz_equiv, size_empty_iff; lia).
    exists []. split; [done|constructor].
  - simpl. case_bool_decide as Hempty.
    { subst. exists []. split; [done|constructor]. }
    rewrite current_group_of_filter.
    2:{ apply Forall_forall. intros tid Hin. apply Hids. by apply elem_of_elements. }
    simpl.
    set (group := List.filter (eligible subtasks completed) (elements remaining)).
    assert (forall tid, tid ∈ group <-> tid ∈ remaining /\ eligible subtasks completed tid = true)
      as Hgroup.
    { intros tid. unfold group. rewrite elem_of_list_filter, elem_of_elements. done. }
    case_bool_decide as Hnil.
    + exists []. split; [done|]. apply groups_run_stuck; [done|].
      intros tid Hin. apply (filter_nil_none _ (elements remaining)); [done|].
      by apply elem_of_elements.
    + destruct (IH (completed ∪ list_to_set group) (remaining ∖ list_to_set group))
        as (groups & Heq & Hrun).
      { destruct group as [|tid0 group'] eqn:Hg; [done|].
        assert (tid0 ∈ remaining) as Hin0.
        { apply Hgroup. by left. }
        assert (remaining ∖ list_to_set (tid0 :: group') ⊂ remaining) as Hlt.
        { apply strict_spec_alt. split; [set_solver|].
          intros Heq. assert (tid0 ∈ remaining ∖ list_to_set (tid0 :: group')) as Hbad
            by by rewrite Heq.
          set_solver. }
        apply subset_size in Hlt. lia. }
      { intros tid Hin. apply Hids. set_solver. }
      rewrite Heq. simpl. exists (group :: groups). split; [done|].
      apply groups_run_round; [done| |done|done].
      unfold group. apply NoDup_list_filter, NoDup_elements.
Qed.

Lemma _calculate_parallel_groups_run (subtasks : list SubTask) :
  exists groups,
    _calculate_parallel_groups subtasks = Done groups
    /\ groups_run subtasks ∅ (list_to_set (task_id <$> subtasks)) groups.
Proof.
  apply parallel_groups_loop_run.
  - etrans; [apply size_ids_le|]. by rewrite length_fmap.
  - intros tid Hin. by apply elem_of_list_to_set in Hin.
Qed.

Lemma groups_run_inv subtasks completed remaining groups :
  groups_run subtasks completed remaining groups ->
  (remaining = ∅ /\ groups = [])
  \/ (remaining ≠ ∅ /\ groups = []
      /\ forall tid, tid ∈ remaining -> eligible subtasks completed tid = false)
  \/ (exists group groups',
        groups = group :: groups' /\ group ≠ [] /\ NoDup group
        /\ (forall tid, tid ∈ group <->
                        tid ∈ remaining /\ eligible subtasks completed tid = true)
        /\ groups_run subtasks (completed ∪ list_to_set group)
             (remaining ∖ list_to_set group) groups').
Proof. destruct 1; [by left|right; by left|right; right; by eexists _, _]. Qed.

Lemma groups_run_nonempty subtasks completed remaining groups :
  groups_run subtasks completed remaining groups -> Forall (fun g => g ≠ []) groups.
Proof. induction 1; by constructor. Qed.

Lemma groups_run_empty subtasks completed groups :
  groups_run subtasks completed ∅ groups -> groups = [].
Proof.
  intros [[_ ->]|[(_ & -> & _)|(group & groups' & -> & Hne & _ & Hgroup & _)]]%groups_run_inv;
    [done..|].
  destruct group as [|tid group]; [done|].
  assert (tid ∈ (∅ : gset string)) as Hin by (apply Hgroup; by left).
  set_solver.
Qed.

Lemma forallb_gain (completed group : gset string) (deps : list string) :
  forallb (fun dep => bool_decide (dep ∈ completed)) deps = false ->
  forallb (fun dep => bool_decide (dep ∈ completed ∪ group)) deps = true ->
  exists dep, dep ∈ deps /\ dep ∈ group.
Proof.
  induction deps as [|d deps IH]; simpl; intros Hnot Helig; [done|].
  apply andb_prop in Helig as [Hd Hrest].
  apply andb_false_iff in Hnot as [Hd'|Hrest'].
  - exists d. apply bool_decide_eq_true in Hd. apply bool_decide_eq_false in Hd'.
    split; [by left|set_solver].
  - destruct (IH Hrest' Hrest) as (dep & ? & ?). exists dep. split; [by right|done].
Qed.

(** A subtask that waits for a later round waits for a dependency that the
    round before it has scheduled. *)
Lemma groups_run_earliest subtasks completed remaining groups :
  groups_run subtasks completed remaining groups ->
  forall i g g' tid,
    groups !! i = Some g' -> groups !! S i = Some g -> tid ∈ g ->
    exists st dep,
      List.find (fun st => bool_decide (task_id st = tid)) subtasks = Some st
      /\ dep ∈ depends_on st /\ dep ∈ g'.
Proof.
  induction 1 as [| |completed remaining group groups Hne Hnodup Hgroup Hrun IH];
    intros i g g' tid Hi HSi Hin; [done..|].
  destruct i as [|i]; simpl in Hi, HSi; [|by eapply IH].
  injection Hi as <-.
  apply groups_run_inv in Hrun
    as [[_ ->]|[(_ & -> & _)|(group1 & groups1 & -> & _ & _ & Hgroup1 & _)]]; [done..|].
  simpl in HSi. injection HSi as <-.
  apply Hgroup1 in Hin as [Hrem Helig].
  assert (eligible subtasks completed tid = false) as Hnot.
  { destruct (eligible subtasks completed tid) eqn:He; [|done].
    assert (tid ∈ group) by (apply Hgroup; set_solver). set_solver. }
  unfold eligible in Helig, Hnot.
  destruct (List.find _ subtasks) as [st|] eqn:Hfind; [|done].
  unfold deps_met in Helig, Hnot.
  destruct (forallb_gain _ _ _ Hnot Helig) as (dep & Hdep & Hg).
  exists st, dep. split_and!; [done|done|]. by apply elem_of_list_to_set in Hg.
Qed.

(** The rounds for a list of subtasks without dependencies: one group, which
    holds every id. *)
Lemma groups_run_flat (subtasks : list SubTask) (groups : list (list string)) :
  subtasks ≠ [] ->
  NoDup (task_id <$> subtasks) ->
  (forall t, t ∈ subtasks -> depends_on t = []) ->
  groups_run subtasks ∅ (list_to_set (task_id <$> subtasks)) groups ->
  exists g, groups = [g] /\ g ≡ₚ task_id <$> subtasks.
Proof.
  intros Hne Hnodup Hdeps Hrun.
  assert (forall completed tid, tid ∈ task_id <$> subtasks ->
            eligible subtasks completed tid = true) as Helig.
  { intros completed tid Hin. apply list_elem_of_fmap in Hin as (t & -> & Ht).
    rewrite eligible_deps_met by done. apply deps_met_true.
    rewrite (Hdeps t Ht). by intros dep Hdep%elem_of_nil. }
  apply groups_run_inv in Hrun
    as [[Hempty ->]|[(Hrem & -> & Hstuck)
                    |(group & groups' & -> & Hgne & Hgnodup & Hgroup & Hrest)]].
  - destruct subtasks as [|t l]; [done|]. simpl in Hempty. set_solver.
  - destruct subtasks as [|t l]; [done|].
    specialize (Hstuck (task_id t) ltac:(set_solver)).
    rewrite Helig in Hstuck; [done|]. simpl. by left.
  - assert (group ≡ₚ task_id <$> subtasks) as Hperm.
    { apply NoDup_Permutation; [done..|]. intros tid. rewrite Hgroup, elem_of_list_to_set.
      split; [by intros [? _]|]. intros Hin. split; [done|by apply Helig]. }
    assert (list_to_set (task_id <$> subtasks) ∖ list_to_set group = (∅ : gset string))
      as Hnone.
    { apply set_eq. intros tid. rewrite elem_of_difference, !elem_of_list_to_set, Hperm.
      set_solver. }
    rewrite Hnone in Hrest. apply groups_run_empty in Hrest as ->. by exists group.
Qed.

(** The rounds for subtasks without dependencies followed by one subtask that
    depends on all of them: two groups, the second for the dependent
    subtask. *)
Lemma groups_run_two_level (free : list SubTask) (last : SubTask)
    (groups : list (list string)) :
  free ≠ [] ->
  NoDup (task_id <$> free ++ [last]) ->
  (forall t, t ∈ free -> depends_on t = []) ->
  depends_on last = task_id <$> free ->
  groups_run (free ++ [last]) ∅ (list_to_set (task_id <$> free ++ [last])) groups ->
  exists g, groups = [g; [task_id last]] /\ g ≡ₚ task_id <$> free.
Proof.
  intros Hne Hnodup Hdeps Hlast Hrun.
  set (subtasks := free ++ [last]) in *.
  assert (task_id last ∉ task_id <$> free) as Hfresh.
  { unfold subtasks in Hnodup. rewrite fmap_app in Hnodup.
    apply NoDup_app in Hnodup as (_ & Hdisj & _).
    intros Hin. apply (Hdisj _ Hin). simpl. by left. }
  assert (last ∈ subtasks) as Hlast_in by (unfold subtasks; set_solver).
  assert (forall completed tid, tid ∈ task_id <$> free ->
            eligible subtasks completed tid = true) as Hfree.
  { intros completed tid Hin. apply list_elem_of_fmap in Hin as (t & -> & Ht).
    rewrite eligible_deps_met; [|done|unfold subtasks; set_solver].
    apply deps_met_true. rewrite (Hdeps t Ht). by intros dep Hdep%elem_of_nil. }
  assert (eligible subtasks ∅ (task_id last) = false) as Hwait.
  { rewrite eligible_deps_met by done. unfold deps_met. rewrite Hlast.
    destruct free as [|t l]; [done|]. simpl.
    rewrite bool_decide_eq_false_2; [done|set_solver]. }
  assert (forall tid, tid ∈ task_id <$> subtasks <->
            tid ∈ task_id <$> free \/ tid = task_id last) as Hids.
  { intros tid. unfold subtasks. rewrite fmap_app, elem_of_app. simpl.
    by rewrite list_elem_of_singleton. }
  apply groups_run_inv in Hrun
    as [[Hempty ->]|[(Hrem & -> & Hstuck)
                    |(group & groups' & -> & Hgne & Hgnodup & Hgroup & Hrest)]].
  - assert (task_id last ∈ (∅ : gset string)) as Hbad; [|set_solver].
    rewrite <- Hempty. apply elem_of_list_to_set, Hids. by right.
  - destruct free as [|t l]; [done|].
    specialize (Hstuck (task_id t)). rewrite Hfree in Hstuck; [|by left].
    discriminate Hstuck. apply elem_of_list_to_set, Hids. left. by left.
  - assert (group ≡ₚ task_id <$> free) as Hperm.
    { apply NoDup_Permutation; [done| |].
      - unfold subtasks in Hnodup. rewrite fmap_app in Hnodup.
        by apply NoDup_app in Hnodup as (? & _ & _).
      - intros tid. rewrite Hgroup, elem_of_list_to_set, Hids. split.
        + intros [[?| ->] Helig]; [done|]. by rewrite Hwait in Helig.
        + intros Hin. split; [by left|by apply Hfree]. }
    assert (list_to_set (task_id <$> subtasks) ∖ list_to_set group
            = ({[task_id last]} : gset string)) as Hone.
    { apply set_eq. intros tid.
      rewrite elem_of_difference, !elem_of_list_to_set, Hperm, Hids, elem_of_singleton.
      split; [by intros [[?|?] ?]|]. intros ->. split; [by right|done]. }
    rewrite Hone in Hrest.
    apply groups_run_inv in Hrest
      as [[Hempty ->]|[(Hrem & -> & Hstuck)
                      |(group2 & groups2 & -> & Hgne2 & Hgnodup2 & Hgroup2 & Hrest2)]].
    + set_solver.
    + specialize (Hstuck (task_id last) ltac:(set_solver)).
      rewrite eligible_deps_met in Hstuck by done.
      assert (deps_met (∅ ∪ list_to_set group) last = true) as Hmet; [|congruence].
      apply deps_met_true. intros dep Hdep. rewrite Hlast in Hdep.
      apply elem_of_union. right. apply elem_of_list_to_set. by rewrite Hperm.
    + assert (group2 = [task_id last]) as ->.
      { assert (forall tid, tid ∈ group2 -> tid = task_id last) as Honly.
        { intros tid Hin. apply Hgroup2 in Hin as [Hin _]. set_solver. }
        destruct group2 as [|a [|b rest]]; [done| |].
        - f_equal. apply Honly. by left.
        - apply NoDup_cons in Hgnodup2 as [Hab _].
          rewrite (Honly a), (Honly b) in Hab by set_solver. set_solver. }
      assert (({[task_id last]} : gset string) ∖ list_to_set [task_id last] = ∅) as Hnone
        by set_solver.
      rewrite Hnone in Hrest2. apply groups_run_empty in Hrest2 as ->. by exists group.
Qed.

(** The general case, for lists of subtasks with distinct ids whose
    dependencies name subtasks of the list and have no cycle: the groups hold
    every id once, no group is empty, a dependency is in a group strictly
    before the subtask that declares it, and no subtask waits longer than it
    must: whatever is in a group after the first has a dependency in the
    group just before. *)
Theorem parallel_groups_are_levels (subtasks : list SubTask) :
  NoDup (task_id <$> subtasks) -> deps_closed subtasks -> acyclic subtasks ->
  exists groups,
    _calculate_parallel_groups subtasks = Done groups
    /\ concat groups ≡ₚ task_id <$> subtasks
    /\ Forall (fun g => g ≠ []) groups
    /\ (forall t dep i j,
          t ∈ subtasks -> dep ∈ depends_on t ->
          in_group groups (task_id t) i -> in_group groups dep j -> (j < i)%nat)
    /\ (forall t i,
          t ∈ subtasks -> in_group groups (task_id t) (S i) ->
          exists dep, dep ∈ depends_on t /\ in_group groups dep i).
Proof.
  intros Hnodup Hclosed Hacyclic.
  destruct (parallel_groups_dependencies_first subtasks Hnodup Hclosed Hacyclic)
    as (groups & Heq & Hperm & Hfirst).
  destruct (_calculate_parallel_groups_run subtasks) as (groups' & Heq' & Hrun).
  rewrite Heq in Heq'. injection Heq' as <-.
  exists groups. split_and!; [done|done|by eapply groups_run_nonempty|done|].
  intros t i Ht (g & Hg & Hin).
  assert (exists g', groups !! i = Some g') as [g' Hg'].
  { apply lookup_lt_is_Some. apply lookup_lt_Some in Hg. lia. }
  destruct (groups_run_earliest _ _ _ _ Hrun i g g' (task_id t) Hg' Hg Hin)
    as (st & dep & Hfind & Hdep & Hdepin).
  rewrite (find_by_task_id subtasks t Hnodup Ht) in Hfind. injection Hfind as <-.
  exists dep. split; [done|]. by exists g'.
Qed.

(** On the chain fetch, build, quiz the groups are the three levels. *)
Lemma parallel_groups_are_levels_witness :
  exists groups,
    _calculate_parallel_groups chain_tasks = Done groups
    /\ concat groups ≡ₚ task_id <$> chain_tasks
    /\ Forall (fun g => g ≠ []) groups
    /\ (forall t dep i j,
          t ∈ chain_tasks -> dep ∈ depends_on t ->
          in_group groups (task_id t) i -> in_group groups dep j -> (j < i)%nat)
    /\ (forall t i,
          t ∈ chain_tasks -> in_group groups (task_id t) (S i) ->
          exists dep, dep ∈ depends_on t /\ in_group groups dep i).
Proof.
  apply (parallel_groups_are_levels chain_tasks).
  - vm_compute. repeat constructor; set_solver.
  - intros t dep Ht Hdep. unfold chain_tasks in *.
    repeat (apply elem_of_cons in Ht as [->|Ht]); simpl in *; set_solver.
  - exists (fun tid => if bool_decide (tid = "content-fetcher_001") then 0%nat
                       else if bool_decide (tid = "context-builder_002") then 1%nat
                       else 2%nat).
    intros t dep Ht Hdep. unfold chain_tasks in Ht.
    repeat (apply elem_of_cons in Ht as [->|Ht]); simpl in *;
      repeat (apply elem_of_cons in Hdep as [->|Hdep]);
      try (by apply elem_of_nil in Hdep); try (by apply elem_of_nil in Ht);
      vm_compute; lia.
Defined.

(** ** The plans of the decomposer *)

(** The subtasks that a builder returns come in two parts: subtasks without
    dependencies, and after them at most one subtask, which depends on all of
    the others. *)
Definition two_level (free dependent : list SubTask) : Prop :=
  free ≠ []
  /\ (forall t, t ∈ free -> depends_on t = [])
  /\ (dependent = []
      \/ exists last, dependent = [last] /\ depends_on last = task_id <$> free).

(** The executors that the builder of a pattern calls for, in order, and the
    estimate of the plan, in seconds. *)
Definition builders_table (p : TaskPattern) : list string * Z :=
  match p with
  | CODEBASE_ANALYSIS =>
      (["duplicate-detector"; "dead-code-eliminator"; "code-grouper"; "refactor-planner"], 18)
  | CONTENT_RESEARCH => (["omnisearch"; "quality-assessor"], 17)
  | PROJECT_STATUS => (["context-builder"], 2)
  | CODE_CLEANUP => (["duplicate-detector"; "dead-code-eliminator"; "refactor-planner"], 15)
  | LEARNING_MATERIALS => (["quiz-generator"], 3)
  | QUALITY_ASSESSMENT => (["quality-assessor"], 2)
  | REFACTORING =>
      (["duplicate-detector"; "dead-code-eliminator"; "code-grouper"; "refactor-planner"], 18)
  | DOCUMENTATION => (["doc-generator"], 15)
  | DUPLICATE_DETECTION => (["duplicate-detector"], 5)
  | DEAD_CODE_ANALYSIS => (["dead-code-eliminator"], 5)
  | CODE_ORGANIZATION => (["code-grouper"], 8)
  | CONTENT_EXTRACTION => (["content-extractor"], 10)
  | QUIZ_GENERATION => (["quiz-generator"], 3)
  | CUSTOM => (["general"], 5)
  end.

Ltac builder_shape free dependent :=
  exists free, dependent;
  split; [reflexivity|];
  split; [split_and!;
          [ done
          | intros t Ht; repeat (apply elem_of_cons in Ht as [->|Ht]); first [done | by apply elem_of_nil in Ht]
          | first [ by left | right; eexists; split; reflexivity ] ]|];
  split; [intros i t Hi;
          repeat (destruct i as [|i]; [by injection Hi as <-|]); done|];
  split; [reflexivity|];
  split; [reflexivity|simpl; lia].

Lemma patterns_shape (p : TaskPattern) (task : string) (context : gmap string pyval)
    (c : nat) :
  exists free dependent,
    patterns p task context c = (free ++ dependent, (length (free ++ dependent) + c)%nat)
    /\ two_level free dependent
    /\ (forall i t, (free ++ dependent) !! i = Some t ->
          task_id t = (_generate_task_id (ion_name t) (i + c)).1)
    /\ ion_name <$> free ++ dependent = (builders_table p).1
    /\ max_default0 (estimated_time_seconds <$> free)
       + max_default0 (estimated_time_seconds <$> dependent) = (builders_table p).2
    /\ (length free <= 3)%nat.
Proof.
  destruct p; cbv [patterns _decompose_codebase_analysis _decompose_content_research
                   _decompose_project_status _decompose_code_cleanup
                   _decompose_learning_materials _decompose_quality_assessment
                   _decompose_refactoring _decompose_documentation
                   _decompose_duplicate_detection _decompose_dead_code_analysis
                   _decompose_code_organization _decompose_content_extraction
                   _decompose_quiz_generation _decompose_custom quiz_subtask];
    cbn [_generate_task_id];
    match goal with
    | |- exists free dependent, ([?a; ?b; ?c; ?d], _) = _ /\ _ => builder_shape [a; b; c] [d]
    | |- exists free dependent, ([?a; ?b; ?d], _) = _ /\ _ => builder_shape [a; b] [d]
    | |- exists free dependent, ([?a; ?d], _) = _ /\ _ => builder_shape [a] [d]
    | |- exists free dependent, ([?a], _) = _ /\ _ => builder_shape [a] (@nil SubTask)
    end.
Qed.

Lemma ids_nodup (l : list SubTask) (c : nat) :
  (forall i t, l !! i = Some t -> task_id t = (_generate_task_id (ion_name t) (i + c)).1) ->
  NoDup (task_id <$> l).
Proof.
  intros Hids. apply NoDup_alt. intros i j tid Hi Hj.
  rewrite list_lookup_fmap in Hi, Hj.
  destruct (l !! i) as [t|] eqn:Hti; [|done].
  destruct (l !! j) as [t'|] eqn:Htj; [|done].
  simpl in Hi, Hj. injection Hi as Hi. injection Hj as Hj.
  rewrite (Hids i t Hti) in Hi. rewrite (Hids j t' Htj) in Hj.
  rewrite <- Hj in Hi. apply _generate_task_id_inj in Hi as [_ Hi]. lia.
Qed.

Lemma filter_ids_all (g : list string) (l : list SubTask) :
  (forall t, t ∈ l -> task_id t ∈ g) -> filter (fun st => task_id st ∈ g) l = l.
Proof.
  induction l as [|t l IH]; intros Hall; [done|].
  rewrite filter_cons_True by (apply Hall; by left).
  f_equal. apply IH. intros t' Ht'. apply Hall. by right.
Qed.

Lemma filter_ids_none (g : list string) (l : list SubTask) :
  (forall t, t ∈ l -> task_id t ∉ g) -> filter (fun st => task_id st ∈ g) l = [].
Proof.
  induction l as [|t l IH]; intros Hnone; [done|].
  rewrite filter_cons_False by (apply Hnone; by left).
  apply IH. intros t' Ht'. apply Hnone. by right.
Qed.

(** The groups and the estimate of a two-level list with distinct ids. *)
Lemma two_level_groups (free dependent : list SubTask) :
  two_level free dependent ->
  NoDup (task_id <$> free ++ dependent) ->
  exists g,
    _calculate_parallel_groups (free ++ dependent)
    = Done (g :: ((fun t => [task_id t]) <$> dependent))
    /\ g ≡ₚ task_id <$> free
    /\ _estimate_total_time (free ++ dependent) (g :: ((fun t => [task_id t]) <$> dependent))
       = max_default0 (estimated_time_seconds <$> free)
         + max_default0 (estimated_time_seconds <$> dependent).
Proof.
  intros (Hne & Hdeps & Hdep) Hnodup.
  destruct (_calculate_parallel_groups_run (free ++ dependent)) as (groups & Heq & Hrun).
  destruct Hdep as [->|(last & -> & Hlast)].
  - rewrite app_nil_r in *.
    destruct (groups_run_flat free groups Hne Hnodup Hdeps Hrun) as (g & -> & Hperm).
    exists g. split_and!; [done|done|].
    unfold _estimate_total_time. simpl.
    rewrite filter_ids_all; [lia|].
    intros t Ht. rewrite Hperm. by apply list_elem_of_fmap_2.
  - destruct (groups_run_two_level free last groups Hne Hnodup Hdeps Hlast Hrun)
      as (g & -> & Hperm).
    exists g. split_and!; [done|done|].
    assert (task_id last ∉ task_id <$> free) as Hfresh.
    { rewrite fmap_app in Hnodup. apply NoDup_app in Hnodup as (_ & Hdisj & _).
      intros Hin. apply (Hdisj _ Hin). simpl. by left. }
    unfold _estimate_total_time. simpl. rewrite !filter_app.
    rewrite (filter_ids_all g free).
    2:{ intros t Ht. rewrite Hperm. by apply list_elem_of_fmap_2. }
    rewrite (filter_ids_none g [last]).
    2:{ intros t Ht%list_elem_of_singleton. subst. by rewrite Hperm. }
    rewrite (filter_ids_none [task_id last] free).
    2:{ intros t Ht Hin%list_elem_of_singleton. apply Hfresh. rewrite <- Hin.
        by apply list_elem_of_fmap_2. }
    rewrite (filter_ids_all [task_id last] [last]).
    2:{ intros t Ht%list_elem_of_singleton. subst. by left. }
    rewrite app_nil_r. simpl. lia.
Qed.

(** [decompose] returns, and the counter advances by the number of subtasks. *)
Lemma decompose_shape (task : string) (context : option (gmap string pyval)) (c : nat) :
  exists plan,
    decompose task context c = Done (plan, (c + length (subtasks plan))%nat).
Proof.
  destruct (patterns_shape (_identify_pattern task) task (default ∅ context) c)
    as (free & dependent & Hpat & Hshape & Hids & _).
  pose proof (ids_nodup _ _ Hids) as Hnodup.
  destruct (two_level_groups free dependent Hshape Hnodup) as (g & Hgroups & _).
  unfold decompose. cbv zeta. rewrite Hpat, Hgroups. simpl.
  eexists (mkTaskPlan _ _ _ _ _ _). simpl. by rewrite (Nat.add_comm c).
Qed.

(** Whatever the request, the context and the state of the counter,
    [decompose] returns a plan. Its subtasks are subtasks without dependencies
    (one to three of them), followed by at most one subtask that depends on all
    of these. The ids are drawn from the counter in the order of the list, so
    they are distinct and the counter ends up advanced by the number of
    subtasks. The parallel groups are one group with the ids of the independent
    subtasks, in some order, and a second group for the dependent subtask when
    there is one: no id is left out. The estimate is the largest estimate among
    the independent subtasks plus the estimate of the dependent one. *)
Theorem decompose_plan_well_formed (task : string) (context : option (gmap string pyval))
    (c : nat) :
  exists plan free dependent g,
    decompose task context c = Done (plan, (c + length (subtasks plan))%nat)
    /\ original_request plan = task
    /\ pattern plan = _identify_pattern task
    /\ requires_synthesis plan = bool_decide (1 < length (subtasks plan))%nat
    /\ subtasks plan = free ++ dependent
    /\ free ≠ [] /\ (length free <= 3)%nat
    /\ (forall t, t ∈ free -> depends_on t = [])
    /\ (dependent = []
        \/ exists last, dependent = [last] /\ depends_on last = task_id <$> free)
    /\ (forall i t, subtasks plan !! i = Some t ->
          task_id t = (_generate_task_id (ion_name t) (c + i)).1)
    /\ NoDup (task_id <$> subtasks plan)
    /\ g ≡ₚ task_id <$> free
    /\ parallel_groups plan = g :: ((fun t => [task_id t]) <$> dependent)
    /\ plan_estimated_time_seconds plan
       = max_default0 (estimated_time_seconds <$> free)
         + max_default0 (estimated_time_seconds <$> dependent).
Proof.
  destruct (patterns_shape (_identify_pattern task) task (default ∅ context) c)
    as (free & dependent & Hpat & Hshape & Hids & _ & _ & Hlen).
  pose proof (ids_nodup _ _ Hids) as Hnodup.
  destruct (two_level_groups free dependent Hshape Hnodup) as (g & Hgroups & Hperm & Htime).
  unfold decompose. cbv zeta. rewrite Hpat, Hgroups. simpl.
  exists (mkTaskPlan task (_identify_pattern task) (free ++ dependent)
            (_estimate_total_time (free ++ dependent)
               (g :: ((fun t => [task_id t]) <$> dependent)))
            (bool_decide (1 < length (free ++ dependent))%nat)
            (g :: ((fun t => [task_id t]) <$> dependent))), free, dependent, g.
  simpl. destruct Hshape as (Hne & Hdeps & Hdep).
  split_and!; try done.
  - by rewrite (Nat.add_comm c).
  - intros i t Hi. rewrite (Nat.add_comm c i). by apply Hids.
Qed.

(** The executors of a plan and its estimate depend on the pattern of the
    request only, not on its wording, the context or the counter. *)
Theorem decompose_by_pattern (task : string) (context : option (gmap string pyval))
    (c : nat) :
  exists plan c',
    decompose task context c = Done (plan, c')
    /\ (ion_name <$> subtasks plan, plan_estimated_time_seconds plan)
       = builders_table (_identify_pattern task).
Proof.
  destruct (patterns_shape (_identify_pattern task) task (default ∅ context) c)
    as (free & dependent & Hpat & Hshape & Hids & Hions & Hest & _).
  pose proof (ids_nodup _ _ Hids) as Hnodup.
  destruct (two_level_groups free dependent Hshape Hnodup) as (g & Hgroups & Hperm & Htime).
  unfold decompose. cbv zeta. rewrite Hpat, Hgroups. simpl.
  eexists _, _. split; [done|]. simpl.
  rewrite Htime, Hest, Hions. by destruct (builders_table _).
Qed.

(** ** The order of a wave *)

Section stable_sort_by.
Context {A : Type} (key : A -> Z).

(** [a] may stand before [b] in a list sorted by ascending key. *)
Definition asc (a b : A) : Prop := key a <= key b.

Lemma insert_by_perm (x : A) (l : list A) : insert_by key x l ≡ₚ x :: l.
Proof.
  induction l as [|y l IH]; simpl; [done|].
  destruct (key y <? key x); [|done].
  rewrite IH. apply Permutation_swap.
Qed.

Lemma sorted_by_perm (l : list A) : sorted_by key l ≡ₚ l.
Proof.
  induction l as [|x l IH]; [done|].
  unfold sorted_by in *. simpl. by rewrite insert_by_perm, IH.
Qed.

Lemma insert_by_sorted (x : A) (l : list A) :
  StronglySorted asc l -> StronglySorted asc (insert_by key x l).
Proof.
  induction 1 as [|y l Hsorted IH Hy]; simpl.
  - repeat constructor.
  - destruct (key y <? key x) eqn:Hlt.
    + apply Z.ltb_lt in Hlt. constructor; [done|].
      rewrite insert_by_perm. constructor; [unfold asc; lia|done].
    + apply Z.ltb_ge in Hlt. constructor; [by constructor|].
      constructor; [done|].
      eapply Forall_impl; [exact Hy|]. unfold asc. intros z Hz. lia.
Qed.

Lemma sorted_by_sorted (l : list A) : StronglySorted asc (sorted_by key l).
Proof.
  induction l as [|x l IH]; [constructor|].
  unfold sorted_by in *. simpl. by apply insert_by_sorted.
Qed.

(** Stability: the elements of one key keep the order they had. *)
Lemma insert_by_same_key (k : Z) (x : A) (l : list A) :
  StronglySorted asc l ->
  List.filter (fun a => key a =? k) (insert_by key x l)
  = List.filter (fun a => key a =? k) (x :: l).
Proof.
  induction 1 as [|y l Hsorted IH Hy]; [done|].
  cbn [insert_by]. destruct (key y <? key x) eqn:Hlt; [|done].
  apply Z.ltb_lt in Hlt. cbn [List.filter]. rewrite IH. cbn [List.filter].
  destruct (key x =? k) eqn:Hx, (key y =? k) eqn:Hyk; try done.
  apply Z.eqb_eq in Hx, Hyk. lia.
Qed.

Lemma sorted_by_same_key (k : Z) (l : list A) :
  List.filter (fun a => key a =? k) (sorted_by key l)
  = List.filter (fun a => key a =? k) l.
Proof.
  induction l as [|x l IH]; [done|].
  unfold sorted_by in *. cbn [foldr].
  rewrite insert_by_same_key by apply sorted_by_sorted.
  cbn [List.filter]. by rewrite IH.
Qed.

(** A list that is sorted already is left as it is. *)
Lemma insert_by_head (x : A) (l : list A) :
  Forall (asc x) l -> insert_by key x l = x :: l.
Proof.
  destruct 1 as [|y l Hy _]; [done|]. simpl.
  unfold asc in Hy. by rewrite (proj2 (Z.ltb_ge _ _) Hy).
Qed.

Lemma sorted_by_fixed (l : list A) : StronglySorted asc l -> sorted_by key l = l.
Proof.
  induction 1 as [|x l Hsorted IH Hx]; [done|].
  unfold sorted_by in *. cbn [foldr]. rewrite IH. by apply insert_by_head.
Qed.

End stable_sort_by.

(** [optimize_wave] reorders the wave without adding or dropping a subtask;
    the priorities ascend along the result (1, the highest priority, first);
    subtasks of one priority stay in the order they had in the wave; and
    optimizing twice is optimizing once. *)
Theorem optimize_wave_stable (wave : list SubTask) :
  optimize_wave wave ≡ₚ wave
  /\ StronglySorted (fun a b => priority a <= priority b) (optimize_wave wave)
  /\ (forall p, List.filter (fun t => priority t =? p) (optimize_wave wave)
                = List.filter (fun t => priority t =? p) wave)
  /\ optimize_wave (optimize_wave wave) = optimize_wave wave.
Proof.
  unfold optimize_wave. split_and!.
  - apply sorted_by_perm.
  - apply (sorted_by_sorted priority).
  - intros p. apply sorted_by_same_key.
  - apply sorted_by_fixed, sorted_by_sorted.
Qed.

(** ** The bookkeeping of [execute] *)

Lemma count_outputs_cons (test : IonOutput -> bool) (o : IonOutput) (l : list IonOutput) :
  count_outputs test (o :: l) = (if test o then 1 else 0) + count_outputs test l.
Proof. unfold count_outputs. simpl. destruct (test o); simpl; lia. Qed.

Lemma count_outputs_app (test : IonOutput -> bool) (l1 l2 : list IonOutput) :
  count_outputs test (l1 ++ l2) = count_outputs test l1 + count_outputs test l2.
Proof. unfold count_outputs. rewrite List.filter_app, length_app. lia. Qed.

Lemma count_outputs_split (l : list IonOutput) :
  count_outputs out_success l + count_outputs (fun o => negb (out_success o)) l
  = Z.of_nat (length l).
Proof.
  induction l as [|o l IH]; [done|].
  rewrite !count_outputs_cons. simpl length. destruct (out_success o); simpl; lia.
Qed.

Lemma total_time_ms_cons (o : IonOutput) (l : list IonOutput) :
  total_time_ms (o :: l) = out_execution_time_ms o + total_time_ms l.
Proof. done. Qed.

Lemma total_time_ms_app (l1 l2 : list IonOutput) :
  total_time_ms (l1 ++ l2) = total_time_ms l1 + total_time_ms l2.
Proof.
  unfold total_time_ms. rewrite fmap_app.
  induction (out_execution_time_ms <$> l1) as [|x xs IH]; simpl; [done|]. rewrite IH. lia.
Qed.

(** The metrics after [for output in wave_outputs: ...]. *)
Lemma count_outputs_in_spec (outputs : list IonOutput) :
  forall m,
    count_outputs_in outputs m
    = mkExecutionMetrics (start_time m) (end_time m) (total_subtasks m)
        (successful_subtasks m + count_outputs out_success outputs)
        (failed_subtasks m + count_outputs (fun o => negb (out_success o)) outputs)
        (total_execution_ms m + total_time_ms outputs)
        (waves_executed m).
Proof.
  unfold count_outputs_in.
  induction outputs as [|o outputs IH]; intros [s e t ok ko ms wv]; simpl.
  - unfold count_outputs, total_time_ms. simpl. f_equal; lia.
  - rewrite IH. simpl. rewrite !count_outputs_cons, total_time_ms_cons.
    destruct (out_success o); simpl; f_equal; lia.
Qed.

(** Every coroutine returns an output that carries the name and the
    description of its subtask. *)
Lemma _execute_subtask_names (py : Rendering) (bridge : IonBridge) (start : Z)
    (subtask : SubTask) (previous : gmap string (gmap string pyval)) :
  out_ion_name (run_output (_execute_subtask py bridge start subtask previous))
  = ion_name subtask
  /\ out_description (run_output (_execute_subtask py bridge start subtask previous))
     = description subtask.
Proof.
  unfold _execute_subtask. destruct (is_real_ion bridge _) as [[|]|e]; [|done..].
  cbv zeta. by destruct (call_outcome _).
Qed.

(** What one wave does to the locals of the loop and to the world. *)
Lemma run_wave_step (py : Rendering) (bridge : IonBridge) (timeout_seconds : Z)
    (n_waves : nat) (wave : list SubTask) (st : WaveLoop) :
  let st' := run_wave py bridge timeout_seconds n_waves wave st in
  exists outputs,
    all_outputs st' = all_outputs st ++ outputs
    /\ out_ion_name <$> outputs ≡ₚ ion_name <$> wave
    /\ metrics st'
       = mkExecutionMetrics (start_time (metrics st)) (end_time (metrics st))
           (total_subtasks (metrics st))
           (successful_subtasks (metrics st) + count_outputs out_success outputs)
           (failed_subtasks (metrics st)
            + count_outputs (fun o => negb (out_success o)) outputs)
           (total_execution_ms (metrics st) + total_time_ms outputs)
           (waves_executed (metrics st))
    /\ task_counter (world st') = task_counter (world st)
    /\ stdout (world st') = stdout (world st)
    /\ execution_history (world st') = execution_history (world st)
    /\ clock (world st) <= clock (world st')
    /\ ((0 < n_waves)%nat ->
        clock (world st') <= clock (world st) + budget_us timeout_seconds n_waves).
Proof.
  intros st'. unfold st', run_wave, wait_for_wave.
  set (runs := _execute_wave py bridge (clock (world st)) wave (previous_wave_results st)).
  destruct (forallb _ runs) eqn:Hall.
  - exists (run_output <$> runs). cbn.
    split_and!; try done.
    + unfold runs, _execute_wave. rewrite <- !list_fmap_compose.
      rewrite (list_fmap_ext _ ion_name (optimize_wave wave)).
      * unfold optimize_wave. by rewrite sorted_by_perm.
      * intros i t _. cbn. apply _execute_subtask_names.
    + apply count_outputs_in_spec.
    + assert (0 <= foldr Z.max 0 ((fun r => Z.of_N (run_latency r)) <$> runs)); [|lia].
      clear. induction runs as [|r runs IH]; simpl; lia.
    + intros Hn.
      assert (foldr Z.max 0 ((fun r => Z.of_N (run_latency r)) <$> runs)
              <= budget_us timeout_seconds n_waves); [|lia].
      assert (0 <= budget_us timeout_seconds n_waves) as Hb by (unfold budget_us; lia).
      clear -Hall Hn Hb. induction runs as [|r runs IH]; simpl in *; [done|].
      apply andb_prop in Hall as [Hr Hrest]. specialize (IH Hrest).
      apply Z.max_lub; [|done].
      unfold within_budget in Hr. apply andb_prop in Hr as [Hpos Hle].
      apply Z.ltb_lt in Hpos. apply Z.leb_le in Hle.
      unfold budget_us. etrans; [|apply Z.le_max_r].
      apply Z.div_le_lower_bound; lia.
  - exists (timeout_output (clock (world st) + budget_us timeout_seconds n_waves) <$> wave).
    cbn. split_and!; try done.
    + by rewrite <- list_fmap_compose.
    + f_equal.
      * assert (count_outputs out_success
                  (timeout_output (clock (world st) + budget_us timeout_seconds n_waves)
                     <$> wave) = 0) as ->; [|lia].
        clear. induction wave as [|t wave IH]; [done|].
        rewrite fmap_cons, count_outputs_cons, IH. done.
      * assert (count_outputs (fun o => negb (out_success o))
                  (timeout_output (clock (world st) + budget_us timeout_seconds n_waves)
                     <$> wave) = Z.of_nat (length wave)) as ->; [|done].
        clear. induction wave as [|t wave IH]; [done|].
        rewrite fmap_cons, count_outputs_cons, IH. simpl length. simpl. lia.
      * assert (total_time_ms
                  (timeout_output (clock (world st) + budget_us timeout_seconds n_waves)
                     <$> wave) = 0) as ->; [|lia].
        clear. induction wave as [|t wave IH]; [done|].
        rewrite fmap_cons, total_time_ms_cons, IH. done.
    + unfold budget_us. lia.
Qed.

(** The loop over the waves, from any state of its locals. *)
Lemma run_waves_steps (py : Rendering) (bridge : IonBridge) (timeout_seconds : Z)
    (n_waves : nat) (waves : list (list SubTask)) :
  forall st,
    let st' := run_waves py bridge timeout_seconds n_waves waves st in
    exists outputs,
      all_outputs st' = all_outputs st ++ outputs
      /\ out_ion_name <$> outputs ≡ₚ ion_name <$> concat waves
      /\ metrics st'
         = mkExecutionMetrics (start_time (metrics st)) (end_time (metrics st))
             (total_subtasks (metrics st))
             (successful_subtasks (metrics st) + count_outputs out_success outputs)
             (failed_subtasks (metrics st)
              + count_outputs (fun o => negb (out_success o)) outputs)
             (total_execution_ms (metrics st) + total_time_ms outputs)
             (waves_executed (metrics st))
      /\ task_counter (world st') = task_counter (world st)
      /\ stdout (world st') = stdout (world st)
      /\ execution_history (world st') = execution_history (world st)
      /\ clock (world st) <= clock (world st')
      /\ ((0 < n_waves)%nat ->
          clock (world st')
          <= clock (world st) + Z.of_nat (length waves) * budget_us timeout_seconds n_waves).
Proof.
  unfold run_waves. induction waves as [|wave waves IH]; intros st; cbn zeta.
  - exists []. simpl. rewrite app_nil_r. destruct (metrics st).
    split_and!; try done; try lia. simpl. unfold count_outputs, total_time_ms. simpl.
    f_equal; lia.
  - simpl foldl.
    destruct (run_wave_step py bridge timeout_seconds n_waves wave st)
      as (outs1 & Hout1 & Hnames1 & Hm1 & Hc1 & Hs1 & Hh1 & Hlo1 & Hhi1).
    destruct (IH (run_wave py bridge timeout_seconds n_waves wave st))
      as (outs2 & Hout2 & Hnames2 & Hm2 & Hc2 & Hs2 & Hh2 & Hlo2 & Hhi2).
    cbn zeta in *.
    exists (outs1 ++ outs2). split_and!.
    + by rewrite Hout2, Hout1, app_assoc.
    + simpl concat. by rewrite !fmap_app, Hnames1, Hnames2.
    + rewrite Hm2, Hm1. simpl.
      rewrite !count_outputs_app, total_time_ms_app. f_equal; lia.
    + congruence.
    + congruence.
    + congruence.
    + lia.
    + intros Hn. specialize (Hhi1 Hn). specialize (Hhi2 Hn).
      simpl length. lia.
Qed.



(** The history of [execute], with the components of the repository. The
    request is decomposed, and then either the synthesis raises, the error
    report is returned and the history stays as it was; or a report comes back
    and the history gets one entry more. In that case every subtask of the
    plan has exactly one output, whether it ran, failed, was simulated or was
    cut off by a timeout; the entry counts the successful and the failed
    outputs, which add up to the number of subtasks, sums their execution
    times and lists their executors. *)
Theorem execute_bookkeeping (fusions : Fusions) (py : Rendering) (bridge : IonBridge)
    (w : World) (task : string) (timeout_seconds : Z) :
  exists plan,
    decompose task None (task_counter w)
    = Done (plan, (task_counter w + length (subtasks plan))%nat)
    /\ match execute fusions py bridge w task timeout_seconds with
       | Done (report, w') =>
           task_counter w' = (task_counter w + length (subtasks plan))%nat
           /\ (((exists e, is_error_report task e report)
                /\ execution_history w' = execution_history w)
               \/ exists entry,
                    execution_history w' = execution_history w ++ [entry]
                    /\ length (raw_outputs report) = length (subtasks plan)
                    /\ out_ion_name <$> raw_outputs report ≡ₚ ion_name <$> subtasks plan
                    /\ hist_task entry = task
                    /\ hist_pattern entry = pattern_value (pattern plan)
                    /\ hist_timestamp entry = clock w
                    /\ hist_total_subtasks entry = Z.of_nat (length (subtasks plan))
                    /\ hist_successful_subtasks entry
                       = count_outputs out_success (raw_outputs report)
                    /\ hist_failed_subtasks entry
                       = count_outputs (fun o => negb (out_success o)) (raw_outputs report)
                    /\ hist_successful_subtasks entry + hist_failed_subtasks entry
                       = hist_total_subtasks entry
                    /\ hist_total_execution_ms entry = total_time_ms (raw_outputs report)
                    /\ hist_ions_used entry = out_ion_name <$> raw_outputs report)
       | Raise _ => False
       | OutOfFuel => exists f outputs, fusions f outputs = OutOfFuel
       end.
Proof.
  destruct (decompose_shape task None (task_counter w)) as (plan & Hdec).
  exists plan. split; [done|].
  unfold execute, execute_with, pipeline, on_exception.
  cbn [do_decompose do_create_execution_plan do_synthesize]. rewrite Hdec.
  destruct (create_execution_plan_runs (subtasks plan)) as (waves & out & Hplan & Hrun).
  rewrite Hplan. cbv zeta.
  match goal with |- context [run_waves ?a ?b ?c ?d ?e ?f] =>
    destruct (run_waves_steps a b c d e f)
      as (outs & Houts & Hnames & Hm & Hc & _ & Hh & _ & _);
    set (st' := run_waves a b c d e f) in *
  end.
  cbn zeta in Houts, Hnames, Hm, Hc, Hh. simpl in Houts, Hnames, Hm, Hc, Hh.
  apply plan_run_permutation in Hrun.
  assert (out_ion_name <$> outs ≡ₚ ion_name <$> subtasks plan) as Hions
    by by rewrite Hnames, Hrun.
  assert (length outs = length (subtasks plan)) as Hlen.
  { apply Permutation_length in Hions. by rewrite !length_fmap in Hions. }
  unfold synthesize.
  destruct (synthesizers (pattern_value (pattern plan))) as [f|]; cbn.
  - destruct (fusions f (all_outputs st')) as [fused|e|] eqn:Hf; cbn.
    + split; [done|]. right. eexists. split; [by rewrite Hh|].
      rewrite Houts, Hm. cbn.
      pose proof (count_outputs_split outs).
      split_and!; try done; lia.
    + split; [done|]. left. split; [|done].
      exists e. unfold is_error_report, error_report. cbn.
      split_and!; try done. by eexists.
    + by eexists _, _.
  - split; [done|]. right. eexists. split; [by rewrite Hh|].
    rewrite Houts, Hm. cbn.
    pose proof (count_outputs_split outs).
    split_and!; try done; lia.
Qed.

(** ** Reading the history *)

Lemma slice_from_suffix {A : Type} (start : Z) (l : list A) :
  exists older, l = older ++ slice_from start l.
Proof.
  unfold slice_from. eexists. symmetry. apply take_drop.
Qed.

Lemma slice_from_neg {A : Type} (k : Z) (l : list A) :
  0 < k ->
  slice_from (- k) l = drop (length l - Z.to_nat k) l.
Proof.
  intros Hk. unfold slice_from.
  rewrite (proj2 (Z.ltb_lt (- k) 0)) by lia.
  f_equal. lia.
Qed.

Lemma last_drop {A : Type} (n : nat) (l : list A) :
  (n < length l)%nat -> last (drop n l) = last l.
Proof.
  intros Hn. rewrite <- (take_drop n l) at 2.
  rewrite last_app. destruct (last (drop n l)) eqn:Hlast; [done|].
  apply last_None in Hlast. apply (f_equal length) in Hlast.
  rewrite length_drop in Hlast. simpl in Hlast. lia.
Qed.

(** [get_history] returns a suffix of the recorded history. With a positive
    [limit] it holds the [limit] most recent entries (all of them when there
    are fewer), so the entry recorded last is its last entry. With [limit]
    equal to 0 it does not return an empty list but the whole history; with
    a negative [limit] it drops the first [-limit] entries. *)
Theorem get_history_recent (w : World) (limit : Z) :
  let history := execution_history w in
  (exists older, history = older ++ get_history w limit)
  /\ (0 < limit ->
        length (get_history w limit) = Nat.min (Z.to_nat limit) (length history)
        /\ last (get_history w limit) = last history)
  /\ (limit = 0 -> get_history w limit = history)
  /\ (limit < 0 -> get_history w limit = drop (Z.to_nat (- limit)) history).
Proof.
  cbv zeta. unfold get_history. split_and!.
  - apply slice_from_suffix.
  - intros Hpos. rewrite slice_from_neg by done. split.
    + rewrite length_drop. lia.
    + destruct (execution_history w) as [|e history] eqn:Hh; [by rewrite drop_nil|].
      apply last_drop. simpl. lia.
  - intros ->. unfold slice_from. simpl. by rewrite Z.min_l by lia.
  - intros Hneg. unfold slice_from.
    rewrite (proj2 (Z.ltb_ge (- limit) 0)) by lia.
    destruct (Z.min_spec (- limit) (Z.of_nat (length (execution_history w))))
      as [[_ ->]|[Hle ->]]; [done|].
    rewrite Nat2Z.id. rewrite !drop_ge; [done|lia|done].
Qed.

(** ** The statistics of the feedback loop *)




(** ** The frame of a rate update *)

Lemma matching_routes_update content_type capability routes name success :
  agent_name <$> matching_routes content_type capability
                   (update_success_rate routes name success)
  = agent_name <$> matching_routes content_type capability routes.
Proof.
  unfold matching_routes. induction routes as [|r routes IH]; [done|].
  cbn [update_success_rate]. case_bool_decide as Hname.
  - cbn [List.filter]. unfold type_match, capability_match. cbn.
    by destruct (_ || _).
  - cbn [List.filter]. destruct (_ || _); cbn; by rewrite IH.
Qed.

(** An update of a success rate changes nothing but rates: the routes keep
    their names, content types, capabilities and priorities, in the same
    order. The rate that is read for any other name is as before, and a name
    that no route carries leaves the routes as they were. Routing a content
    after the update offers the same agents as before it, possibly in another
    order. *)
Theorem update_success_rate_frame (routes : list AgentRoute) (name : string)
    (success : bool) (content : string) :
  let routes' := update_success_rate routes name success in
  let shape r := (agent_name r, handles_content r, capabilities r, route_priority r) in
  shape <$> routes' = shape <$> routes
  /\ (forall other, other <> name -> rate_of routes' other = rate_of routes other)
  /\ (name ∉ agent_name <$> routes -> routes' = routes)
  /\ route routes' content ≡ₚ route routes content.
Proof.
  cbv zeta. split_and!.
  - induction routes as [|r routes IH]; [done|].
    cbn [update_success_rate]. case_bool_decide; [done|].
    rewrite !fmap_cons. by rewrite IH.
  - intros other Hother. unfold rate_of.
    induction routes as [|r routes IH]; [done|].
    cbn [update_success_rate]. case_bool_decide as Hname.
    + cbn. rewrite Hname. by rewrite bool_decide_eq_false_2 by done.
    + cbn. case_bool_decide; [done|]. apply IH.
  - induction routes as [|r routes IH]; [done|].
    rewrite fmap_cons, not_elem_of_cons. intros [Hne Hnot].
    cbn [update_success_rate]. rewrite bool_decide_eq_false_2 by done.
    by rewrite IH.
  - unfold route.
    set (ct := detect_content_type content).
    set (cap := detect_required_capability content).
    assert (forall rs, fst <$> sort_desc snd (collect_matches ct cap rs)
                       ≡ₚ agent_name <$> matching_routes ct cap rs) as Hperm.
    { intros rs. rewrite sort_desc_perm, collect_matches_map.
      rewrite <- list_fmap_compose. done. }
    assert (fst <$> sort_desc snd (collect_matches ct cap
                                     (update_success_rate routes name success))
            ≡ₚ fst <$> sort_desc snd (collect_matches ct cap routes)) as Hsame.
    { by rewrite !Hperm, matching_routes_update. }
    case_bool_decide as H1; case_bool_decide as H2; try done.
    + rewrite H1 in Hsame. symmetry in Hsame. by apply Permutation_nil_r in Hsame.
    + rewrite H2 in Hsame. by apply Permutation_nil_r in Hsame.
Qed.

(** ** The task queue *)

Lemma Qeq_bool_inject_Z (x y : Z) : Qeq_bool (inject_Z x) (inject_Z y) = (x =? y).
Proof.
  unfold Qeq_bool, inject_Z. simpl. by rewrite !Z.mul_1_r.
Qed.

Lemma sort_desc_inject_Z_sorted {A : Type} (rank : A -> Z) (l : list A) :
  StronglySorted (fun a b => rank b <= rank a)
    (sort_desc (fun a => inject_Z (rank a)) l).
Proof.
  pose proof (sort_desc_sorted (fun a => inject_Z (rank a)) l) as Hsorted.
  induction Hsorted as [|a l' Hl' IH Ha]; constructor; [done|].
  eapply Forall_impl; [exact Ha|].
  intros b Hb. unfold desc in Hb. by rewrite Zle_Qle.
Qed.

Lemma sort_desc_inject_Z_same_key {A : Type} (rank : A -> Z) (p : Z) (l : list A) :
  List.filter (fun a => rank a =? p) (sort_desc (fun a => inject_Z (rank a)) l)
  = List.filter (fun a => rank a =? p) l.
Proof.
  pose proof (sort_desc_same_key (fun a => inject_Z (rank a)) (inject_Z p) l) as H.
  rewrite !(List.filter_ext (fun a => Qeq_bool (inject_Z (rank a)) (inject_Z p))
              (fun a => rank a =? p)) in H
    by (intros a; apply Qeq_bool_inject_Z).
  exact H.
Qed.

(** [add_task] returns the id of the task and changes nothing but the queue,
    which afterwards holds the tasks it held and the new one, ordered from the
    highest priority to the lowest, whatever its order was before; tasks of
    one priority keep the order they had, the new task behind them. A call of
    [get_next_task] that follows returns a task of the highest priority in the
    queue, and returns nothing only when as many tasks are active as may
    be. *)
Theorem add_task_priority_order (store : Store) (q : TaskQueue) (task : loc) :
  let rank t := priority_value (lt_priority (store t)) in
  let q' := (add_task store q task).1 in
  (add_task store q task).2 = lt_id (store task)
  /\ queue q' ≡ₚ queue q ++ [task]
  /\ StronglySorted (fun a b => rank b <= rank a) (queue q')
  /\ (forall p, List.filter (fun t => rank t =? p) (queue q')
                = List.filter (fun t => rank t =? p) (queue q ++ [task]))
  /\ active_tasks q' = active_tasks q
  /\ completed_tasks q' = completed_tasks q
  /\ max_concurrent q' = max_concurrent q
  /\ match (get_next_task store q').2 with
     | Some next =>
         next ∈ queue q ++ [task]
         /\ (forall t, t ∈ queue q ++ [task] -> rank t <= rank next)
     | None => max_concurrent q <= Z.of_nat (size (active_tasks q))
     end.
Proof.
  cbv zeta. unfold add_task. cbn [fst snd queue active_tasks completed_tasks max_concurrent].
  set (rank := fun t => priority_value (lt_priority (store t))).
  pose proof (sort_desc_perm (fun t => inject_Z (rank t)) (queue q ++ [task])) as Hperm.
  pose proof (sort_desc_inject_Z_sorted rank (queue q ++ [task])) as Hsorted.
  split_and!; try done.
  - intros p. apply sort_desc_inject_Z_same_key.
  - unfold get_next_task. cbn [queue active_tasks completed_tasks max_concurrent].
    case_bool_decide as Hfull; [done|].
    fold rank.
    destruct (sort_desc _ (queue q ++ [task])) as [|next rest] eqn:Hsort.
    + apply Permutation_nil_l in Hperm. by destruct (queue q).
    + cbn [snd]. split.
      * rewrite <- Hperm. left.
      * intros t Ht. rewrite <- Hperm in Ht.
        apply elem_of_cons in Ht as [->|Ht]; [lia|].
        apply StronglySorted_inv in Hsorted as [_ Hall].
        by apply (proj1 (Forall_forall _ _) Hall).
Qed.

(** The queues that calls of the four methods lead to from a new queue, with
    any store of tasks at each call. *)
Inductive queue_reachable (m : Z) : TaskQueue -> Prop :=
| reach_init : queue_reachable m (TaskQueue_init m)
| reach_add_task store q task :
    queue_reachable m q -> queue_reachable m (add_task store q task).1
| reach_get_next_task store q :
    queue_reachable m q -> queue_reachable m (get_next_task store q).1
| reach_complete_task now store q task_id results :
    queue_reachable m q -> queue_reachable m (complete_task now store q task_id results).2
| reach_fail_task now store q task_id error :
    queue_reachable m q -> queue_reachable m (fail_task now store q task_id error).2.

Lemma size_delete_le `{Countable K} {A : Type} (k : K) (m : gmap K A) :
  (size (delete k m) <= size m)%nat.
Proof.
  destruct (m !! k) eqn:Hk.
  - rewrite map_size_delete. rewrite Hk. lia.
  - by rewrite delete_id.
Qed.

Lemma size_insert_le `{Countable K} {A : Type} (k : K) (a : A) (m : gmap K A) :
  (size (<[k := a]> m) <= S (size m))%nat.
Proof.
  destruct (m !! k) eqn:Hk.
  - rewrite map_size_insert_Some by done. lia.
  - rewrite map_size_insert_None by done. lia.
Qed.

(** However the methods of a queue made for [m] concurrent tasks are called,
    the number of active tasks never exceeds [m] (and is 0 when [m] is
    negative), and the capacity that [get_status] reports lies between 0 (or
    [m], when that is negative) and [m]. *)
Theorem task_queue_capacity (m : Z) (q : TaskQueue) :
  queue_reachable m q ->
  max_concurrent q = m
  /\ Z.of_nat (size (active_tasks q)) <= Z.max 0 m
  /\ (exists capacity,
        TaskQueue_get_status q !! "capacity" = Some capacity
        /\ Z.min 0 m <= capacity <= m).
Proof.
  intros Hreach.
  assert (max_concurrent q = m /\ Z.of_nat (size (active_tasks q)) <= Z.max 0 m)
    as [Hmax Hsize].
  { induction Hreach as [|store q task _ [IHm IHs]|store q _ [IHm IHs]
                         |now store q task_id results _ [IHm IHs]
                         |now store q task_id error _ [IHm IHs]].
    - split; [done|]. cbn. rewrite map_size_empty. lia.
    - done.
    - unfold get_next_task. case_bool_decide as Hfull; [done|].
      destruct (queue q) as [|task rest]; [done|].
      cbn [fst max_concurrent active_tasks]. split; [done|].
      pose proof (size_insert_le (lt_id (store task)) task (active_tasks q)). lia.
    - unfold complete_task. destruct (active_tasks q !! task_id); [|done].
      cbn [snd max_concurrent active_tasks]. split; [done|].
      pose proof (size_delete_le task_id (active_tasks q)). lia.
    - unfold fail_task. destruct (active_tasks q !! task_id); [|done].
      cbn [snd max_concurrent active_tasks]. split; [done|].
      pose proof (size_delete_le task_id (active_tasks q)). lia. }
  split_and!; [done|done|].
  exists (max_concurrent q - Z.of_nat (size (active_tasks q))).
  split; [done|]. lia.
Qed.

(** A task that works as the example of a task. *)
Definition sample_task : LearningTask :=
  mkLearningTask "t1" "Explain fractions" MATH NORMAL QUEUED 0 0 None None None ∅ []
    None 0 ∅ None 0.

Lemma task_queue_capacity_witness :
  let q := (get_next_task (fun _ => sample_task)
              (add_task (fun _ => sample_task) (TaskQueue_init 1) 0%nat).1).1 in
  queue_reachable 1 q
  /\ max_concurrent q = 1
  /\ Z.of_nat (size (active_tasks q)) <= Z.max 0 1
  /\ (exists capacity,
        TaskQueue_get_status q !! "capacity" = Some capacity
        /\ Z.min 0 1 <= capacity <= 1).
Proof.
  cbv zeta.
  assert (queue_reachable 1
            (get_next_task (fun _ => sample_task)
               (add_task (fun _ => sample_task) (TaskQueue_init 1) 0%nat).1).1) as Hreach.
  { apply reach_get_next_task, reach_add_task, reach_init. }
  split; [exact Hreach|].
  exact (task_queue_capacity 1 _ Hreach).
Defined.

(** [complete_task] and [fail_task] act on active tasks only: for an id that
    is not active they change nothing. For an active id the task object gets
    its final status and time (with the results and a progress of 100 when it
    completes, with the error and its progress and results as they were when
    it fails), no other task object changes, the id leaves the active tasks
    and is filed under the completed ones, and the queue is as before. Either
    way the id is not active afterwards, so a further call of [complete_task]
    or [fail_task] for it changes nothing. *)
Theorem finished_task_is_final (now : Z) (store : Store) (q : TaskQueue)
    (task_id : string) (results : gmap string json) (error : string) :
  let completed := complete_task now store q task_id results in
  let failed := fail_task now store q task_id error in
  match active_tasks q !! task_id with
  | None => completed = (store, q) /\ failed = (store, q)
  | Some task =>
      (lt_status (completed.1 task) = COMPLETED
       /\ lt_progress (completed.1 task) = 100
       /\ lt_results (completed.1 task) = results
       /\ lt_error (completed.1 task) = lt_error (store task)
       /\ lt_status (failed.1 task) = FAILED
       /\ lt_progress (failed.1 task) = lt_progress (store task)
       /\ lt_results (failed.1 task) = lt_results (store task)
       /\ lt_error (failed.1 task) = Some error)
      /\ (forall s, s = completed \/ s = failed ->
            lt_updated_at (s.1 task) = now
            /\ lt_id (s.1 task) = lt_id (store task)
            /\ lt_priority (s.1 task) = lt_priority (store task)
            /\ (forall other, other <> task -> s.1 other = store other)
            /\ completed_tasks s.2 !! task_id = Some task
            /\ S (size (active_tasks s.2)) = size (active_tasks q)
            /\ queue s.2 = queue q)
  end
  /\ (forall s, s = completed \/ s = failed ->
        active_tasks s.2 !! task_id = None
        /\ (forall now' results', complete_task now' s.1 s.2 task_id results' = s)
        /\ (forall now' error', fail_task now' s.1 s.2 task_id error' = s)).
Proof.
  cbv zeta. unfold complete_task, fail_task.
  destruct (active_tasks q !! task_id) as [task|] eqn:Hactive.
  - split.
    + split.
      * unfold store_set. cbn. rewrite !bool_decide_eq_true_2 by done. done.
      * intros s [->| ->]; cbn; unfold store_set;
          rewrite !bool_decide_eq_true_2 by done; cbn;
          (split_and!; try done;
           [ by intros other Hother; rewrite bool_decide_eq_false_2 by done
           | by apply lookup_insert_eq
           | rewrite map_size_delete, Hactive;
             assert (size (active_tasks q) <> 0)%nat
               by (intros Hz%map_size_empty_inv; by rewrite Hz in Hactive);
             lia ]).
    + intros s [->| ->]; cbn; rewrite lookup_delete_eq; done.
  - split; [done|].
    intros s [->| ->]; cbn; rewrite Hactive; done.
Qed.

(** ** The task analyzer *)






(** ** The execution monitor *)

(** A call of one of the monitor's methods, with the instant that the method
    reads from the clock where it reads one. *)
Inductive MonitorCall : Type :=
| StartMonitoring (now : Z) (task_id : string)
| LogProgress (now : Z) (task_id : string) (progress : Z) (message : string)
| LogAgentExecution (task_id agent_name : string) (result : AgentExecutionResult)
| CompleteMonitoring (task_id : string) (success : bool).

Definition monitor_call (m : ExecutionMonitor) (c : MonitorCall) : ExecutionMonitor :=
  match c with
  | StartMonitoring now task_id => start_monitoring now m task_id
  | LogProgress now task_id progress message => log_progress now m task_id progress message
  | LogAgentExecution task_id agent_name result =>
      log_agent_execution m task_id agent_name result
  | CompleteMonitoring task_id success => complete_monitoring m task_id success
  end.

(** The monitor after a sequence of calls on a new monitor. *)
Definition monitor_run (calls : list MonitorCall) : ExecutionMonitor :=
  foldl monitor_call ExecutionMonitor_init calls.

(** The number of calls of [start_monitoring]. *)
Definition started (calls : list MonitorCall) : Z :=
  Z.of_nat (length (List.filter
    (fun c => match c with StartMonitoring _ _ => true | _ => false end) calls)).

(** The results that were logged, for any agent or for one, in call order. *)
Definition logged (calls : list MonitorCall) : list AgentExecutionResult :=
  omap (fun c => match c with LogAgentExecution _ _ r => Some r | _ => None end) calls.

Definition logged_for (agent : string) (calls : list MonitorCall)
    : list AgentExecutionResult :=
  omap (fun c => match c with
                 | LogAgentExecution _ a r => if bool_decide (a = agent) then Some r else None
                 | _ => None
                 end) calls.

Lemma monitor_run_snoc (calls : list MonitorCall) (c : MonitorCall) :
  monitor_run (calls ++ [c]) = monitor_call (monitor_run calls) c.
Proof. unfold monitor_run. by rewrite foldl_app. Qed.

Lemma sum_floats_snoc (l : list Q) (x : Q) : sum_floats (l ++ [x]) = (sum_floats l + x)%Q.
Proof. unfold sum_floats. by rewrite foldl_app. Qed.

Lemma sum_floats_fmap_snoc {A : Type} (f : A -> Q) (l : list A) (x : A) :
  sum_floats (f <$> l ++ [x]) = (sum_floats (f <$> l) + f x)%Q.
Proof. rewrite fmap_app. apply sum_floats_snoc. Qed.

Lemma started_snoc (calls : list MonitorCall) (c : MonitorCall) :
  started (calls ++ [c])
  = started calls + match c with StartMonitoring _ _ => 1 | _ => 0 end.
Proof.
  unfold started. rewrite List.filter_app, length_app.
  destruct c; simpl; lia.
Qed.

Lemma size_delete_Some `{Countable K} {A : Type} (k : K) (a : A) (m : gmap K A) :
  m !! k = Some a -> S (size (delete k m)) = size m.
Proof.
  intros Hk. rewrite map_size_delete, Hk.
  assert (size m <> 0)%nat by (intros Hz%map_size_empty_inv; by rewrite Hz in Hk).
  lia.
Qed.

Lemma monitor_tasks_invariant (calls : list MonitorCall) :
  let m := monitor_run calls in
  total_tasks m = started calls
  /\ 0 <= successful_tasks m /\ 0 <= failed_tasks m
  /\ successful_tasks m + failed_tasks m + Z.of_nat (size (active_monitors m))
     <= total_tasks m.
Proof.
  cbv zeta. induction calls as [|c calls IH] using rev_ind.
  - cbn. rewrite map_size_empty. unfold started. simpl. lia.
  - rewrite monitor_run_snoc, started_snoc.
    destruct IH as (IHt & IHs & IHf & IHsum).
    set (m := monitor_run calls) in *.
    destruct c as [now task_id|now task_id progress message|task_id agent result
                  |task_id success]; cbn [monitor_call].
    + unfold start_monitoring.
      cbn [total_tasks successful_tasks failed_tasks active_monitors].
      pose proof (size_insert_le task_id (mkMonitorData now []) (active_monitors m)).
      lia.
    + unfold log_progress. destruct (active_monitors m !! task_id) as [d|] eqn:Hd.
      * cbn [total_tasks successful_tasks failed_tasks active_monitors].
        rewrite map_size_insert_Some by done. lia.
      * lia.
    + unfold log_agent_execution.
      cbn [total_tasks successful_tasks failed_tasks active_monitors]. lia.
    + unfold complete_monitoring. destruct (active_monitors m !! task_id) as [d|] eqn:Hd.
      * cbn [total_tasks successful_tasks failed_tasks active_monitors].
        pose proof (size_delete_Some task_id d (active_monitors m) Hd).
        destruct success; lia.
      * lia.
Qed.

Lemma monitor_totals_invariant (calls : list MonitorCall) :
  let m := monitor_run calls in
  total_cost m = sum_floats (res_cost <$> logged calls)
  /\ total_execution_time m = sum_floats (res_execution_time <$> logged calls).
Proof.
  cbv zeta. induction calls as [|c calls IH] using rev_ind; [done|].
  rewrite monitor_run_snoc. unfold logged in *. rewrite omap_app.
  destruct IH as [IHc IHt].
  set (m := monitor_run calls) in *.
  destruct c as [now task_id|now task_id progress message|task_id agent result
                |task_id success]; cbn [monitor_call omap list_omap];
    rewrite ?app_nil_r.
  - done.
  - unfold log_progress. by destruct (active_monitors m !! task_id).
  - unfold log_agent_execution. cbn [total_cost total_execution_time].
    rewrite !sum_floats_fmap_snoc. by rewrite IHc, IHt.
  - unfold complete_monitoring. by destruct (active_monitors m !! task_id).
Qed.

Lemma monitor_usage_invariant (calls : list MonitorCall) (agent : string) :
  match agent_usage (monitor_run calls) !! agent with
  | None => logged_for agent calls = []
  | Some u =>
      logged_for agent calls <> []
      /\ executions u = Z.of_nat (length (logged_for agent calls))
      /\ usage_total_cost u = sum_floats (res_cost <$> logged_for agent calls)
      /\ usage_total_time u = sum_floats (res_execution_time <$> logged_for agent calls)
  end.
Proof.
  induction calls as [|c calls IH] using rev_ind; [done|].
  rewrite monitor_run_snoc. unfold logged_for in *. rewrite omap_app.
  set (m := monitor_run calls) in *.
  destruct c as [now task_id|now task_id progress message|task_id name result
                |task_id success]; cbn [monitor_call omap list_omap];
    rewrite ?app_nil_r.
  - done.
  - unfold log_progress. by destruct (active_monitors m !! task_id).
  - unfold log_agent_execution. cbn [agent_usage].
    case_bool_decide as Hname.
    + subst name. rewrite lookup_insert_eq.
      cbn [executions usage_total_cost usage_total_time].
      rewrite !sum_floats_fmap_snoc, length_app.
      destruct (agent_usage m !! agent) as [u|].
      * destruct IH as (_ & IHn & IHc & IHt). cbn [default from_option id].
        split_and!; [by destruct (omap _ calls)|..].
        -- rewrite IHn. simpl. lia.
        -- by rewrite IHc.
        -- by rewrite IHt.
      * rewrite IH. cbn [default from_option id executions usage_total_cost usage_total_time].
        split_and!; done.
    + rewrite lookup_insert_ne by done. by rewrite app_nil_r.
  - unfold complete_monitoring. by destruct (active_monitors m !! task_id).
Qed.

(** However the methods of a new monitor are called: the number of tasks is
    the number of calls of [start_monitoring]; the tasks counted as
    successful, those counted as failed and those still monitored are together
    at most that many (a task that is started again while it is monitored is
    counted again, and keeps one monitor); the total cost and the total time
    are the sums over the results that were logged, whether or not their task
    is monitored; and an agent has a usage entry exactly when a result was
    logged for it, with the number of those results and the sums of their
    costs and times. *)
Theorem monitor_metrics_invariant (calls : list MonitorCall) :
  let m := monitor_run calls in
  total_tasks m = started calls
  /\ 0 <= successful_tasks m /\ 0 <= failed_tasks m
  /\ successful_tasks m + failed_tasks m + Z.of_nat (size (active_monitors m))
     <= total_tasks m
  /\ total_cost m = sum_floats (res_cost <$> logged calls)
  /\ total_execution_time m = sum_floats (res_execution_time <$> logged calls)
  /\ (forall agent,
        match agent_usage m !! agent with
        | None => logged_for agent calls = []
        | Some u =>
            logged_for agent calls <> []
            /\ executions u = Z.of_nat (length (logged_for agent calls))
            /\ usage_total_cost u = sum_floats (res_cost <$> logged_for agent calls)
            /\ usage_total_time u
               = sum_floats (res_execution_time <$> logged_for agent calls)
        end).
Proof.
  cbv zeta.
  destruct (monitor_tasks_invariant calls) as (Ht & Hs & Hf & Hsum).
  destruct (monitor_totals_invariant calls) as (Hc & Hti).
  split_and!; try done.
  intros agent. apply monitor_usage_invariant.
Qed.

(** ** Reports *)






(** ** The estimate of a plan *)

(** [sum(st.estimated_time_seconds for st in l)], the time of a run without
    parallelism. *)
Definition sequential_time (l : list SubTask) : Z :=
  foldr Z.add 0 (estimated_time_seconds <$> l).

Lemma sequential_time_cons (st : SubTask) (l : list SubTask) :
  sequential_time (st :: l) = estimated_time_seconds st + sequential_time l.
Proof. done. Qed.

Lemma foldl_max_bounds (xs : list Z) :
  forall a, 0 <= a -> Forall (fun x => 0 <= x) xs ->
    a <= foldl Z.max a xs
    /\ Forall (fun x => x <= foldl Z.max a xs) xs
    /\ foldl Z.max a xs <= a + foldr Z.add 0 xs.
Proof.
  induction xs as [|x xs IH]; intros a Ha Hxs.
  - simpl. split_and!; [lia|constructor|lia].
  - apply Forall_cons in Hxs as [Hx Hxs]. cbn [foldl foldr].
    destruct (IH (Z.max a x) ltac:(lia) Hxs) as (H1 & H2 & H3).
    split_and!; [lia| |lia].
    constructor; [lia|done].
Qed.

Lemma max_default0_bounds (xs : list Z) :
  Forall (fun x => 0 <= x) xs ->
  0 <= max_default0 xs
  /\ Forall (fun x => x <= max_default0 xs) xs
  /\ max_default0 xs <= foldr Z.add 0 xs.
Proof.
  destruct xs as [|x xs]; intros Hxs; [by split_and!|].
  apply Forall_cons in Hxs as [Hx Hxs]. cbn [max_default0 foldr].
  destruct (foldl_max_bounds xs x Hx Hxs) as (H1 & H2 & H3).
  split_and!; [lia| |lia]. by constructor.
Qed.

Lemma foldl_add_acc {A : Type} (f : A -> Z) (l : list A) :
  forall a, foldl (fun total x => total + f x) a l
            = a + foldl (fun total x => total + f x) 0 l.
Proof.
  induction l as [|x l IH]; intros a; simpl; [lia|].
  rewrite (IH (a + f x)), (IH (0 + f x)). lia.
Qed.

Section estimate.
Context (subtasks : list SubTask).
Hypothesis Hnonneg : Forall (fun st => 0 <= estimated_time_seconds st) subtasks.

(** The subtasks whose id is in [ids], in the order of the plan. *)
Definition tasks_in (ids : list string) : list SubTask :=
  filter (fun st => task_id st ∈ ids) subtasks.

Lemma tasks_in_nonneg (ids : list string) :
  Forall (fun x => 0 <= x) (estimated_time_seconds <$> tasks_in ids).
Proof.
  apply Forall_fmap. unfold tasks_in.
  apply Forall_forall. intros st [_ Hst]%list_elem_of_filter.
  by apply (proj1 (Forall_forall _ _) Hnonneg).
Qed.

Lemma sequential_time_nonneg (l : list SubTask) :
  Forall (fun st => 0 <= estimated_time_seconds st) l -> 0 <= sequential_time l.
Proof.
  induction 1 as [|st l Hst _ IH]; [done|]. rewrite sequential_time_cons. lia.
Qed.

Lemma sequential_time_filter_le (P : SubTask -> Prop) `{!forall st, Decision (P st)}
    (l : list SubTask) :
  Forall (fun st => 0 <= estimated_time_seconds st) l ->
  sequential_time (filter P l) <= sequential_time l.
Proof.
  induction 1 as [|st l Hst _ IH]; [done|].
  rewrite filter_cons. destruct (decide (P st)); rewrite !sequential_time_cons; lia.
Qed.

Lemma sequential_time_split (g rest : list string) (l : list SubTask) :
  (forall id, id ∈ g -> id ∈ rest -> False) ->
  sequential_time (filter (fun st => task_id st ∈ g ++ rest) l)
  = sequential_time (filter (fun st => task_id st ∈ g) l)
    + sequential_time (filter (fun st => task_id st ∈ rest) l).
Proof.
  intros Hdisjoint. induction l as [|st l IH]; [done|].
  rewrite !filter_cons.
  destruct (decide (task_id st ∈ g)) as [Hg|Hg],
           (decide (task_id st ∈ rest)) as [Hr|Hr].
  - by destruct (Hdisjoint _ Hg Hr).
  - rewrite decide_True by (apply elem_of_app; by left).
    rewrite !sequential_time_cons. lia.
  - rewrite decide_True by (apply elem_of_app; by right).
    rewrite !sequential_time_cons. lia.
  - rewrite decide_False by (intros [?|?]%elem_of_app; done). done.
Qed.

Lemma estimate_cons (g : list string) (groups : list (list string)) :
  _estimate_total_time subtasks (g :: groups)
  = max_default0 (estimated_time_seconds <$> tasks_in g)
    + _estimate_total_time subtasks groups.
Proof.
  unfold _estimate_total_time. cbn [foldl].
  rewrite (foldl_add_acc
             (fun group => max_default0 (estimated_time_seconds
                             <$> filter (fun st => task_id st ∈ group) subtasks))).
  done.
Qed.

Lemma estimate_bounds (groups : list (list string)) :
  NoDup (concat groups) ->
  0 <= _estimate_total_time subtasks groups
  /\ _estimate_total_time subtasks groups <= sequential_time (tasks_in (concat groups))
  /\ (forall st, st ∈ subtasks -> task_id st ∈ concat groups ->
        estimated_time_seconds st <= _estimate_total_time subtasks groups).
Proof.
  induction groups as [|g groups IH]; intros Hnodup.
  - split_and!; [done| |].
    + cbn. apply sequential_time_nonneg.
      apply Forall_forall. intros st [_ Hst]%list_elem_of_filter.
      by apply (proj1 (Forall_forall _ _) Hnonneg).
    + intros st _ Hin. by apply elem_of_nil in Hin.
  - cbn [concat] in *. apply NoDup_app in Hnodup as (_ & Hdisjoint & Hrest).
    destruct (IH Hrest) as (IH0 & IHsum & IHeach).
    destruct (max_default0_bounds _ (tasks_in_nonneg g)) as (Hm0 & Hmeach & Hmsum).
    rewrite estimate_cons. split_and!.
    + lia.
    + unfold tasks_in at 2. rewrite sequential_time_split by done.
      fold (tasks_in g) (tasks_in (concat groups)). unfold sequential_time at 1. lia.
    + intros st Hst [Hg|Hin]%elem_of_app.
      * assert (estimated_time_seconds st
                <= max_default0 (estimated_time_seconds <$> tasks_in g)); [|lia].
        apply (proj1 (Forall_forall _ _) Hmeach).
        apply list_elem_of_fmap. exists st. split; [done|].
        by apply list_elem_of_filter.
      * specialize (IHeach st Hst Hin). lia.
Qed.

End estimate.

(** When no estimate is negative and no id stands in two groups (or twice in
    one), the estimate of a plan is at most the sum of the estimates of its
    subtasks, the time of a run without parallelism, and at least the
    estimate of every subtask that is in a group; it is never negative. *)
Theorem estimate_total_time_bounds (subtasks : list SubTask) (groups : list (list string)) :
  Forall (fun st => 0 <= estimated_time_seconds st) subtasks ->
  NoDup (concat groups) ->
  0 <= _estimate_total_time subtasks groups
  /\ _estimate_total_time subtasks groups <= sequential_time subtasks
  /\ (forall st, st ∈ subtasks -> task_id st ∈ concat groups ->
        estimated_time_seconds st <= _estimate_total_time subtasks groups).
Proof.
  intros Hnonneg Hnodup.
  destruct (estimate_bounds subtasks Hnonneg groups Hnodup) as (H0 & Hsum & Heach).
  split_and!; [done| |done].
  pose proof (sequential_time_filter_le (fun st => task_id st ∈ concat groups)
                subtasks Hnonneg) as Hle.
  unfold tasks_in in Hsum. lia.
Qed.

Lemma estimate_total_time_bounds_witness :
  let subtasks := (patterns CODEBASE_ANALYSIS "" ∅ 0).1 in
  let groups := [task_id <$> take 3 subtasks; task_id <$> drop 3 subtasks] in
  Forall (fun st => 0 <= estimated_time_seconds st) subtasks
  /\ NoDup (concat groups)
  /\ 0 <= _estimate_total_time subtasks groups
  /\ _estimate_total_time subtasks groups <= sequential_time subtasks
  /\ (forall st, st ∈ subtasks -> task_id st ∈ concat groups ->
        estimated_time_seconds st <= _estimate_total_time subtasks groups).
Proof.
  cbv zeta.
  assert (Forall (fun st => 0 <= estimated_time_seconds st)
            (patterns CODEBASE_ANALYSIS "" ∅ 0).1) as Hnonneg.
  { refine (bool_decide_unpack _ _). by vm_compute. }
  assert (NoDup (concat [task_id <$> take 3 (patterns CODEBASE_ANALYSIS "" ∅ 0).1;
                         task_id <$> drop 3 (patterns CODEBASE_ANALYSIS "" ∅ 0).1]))
    as Hnodup.
  { refine (bool_decide_unpack _ _). by vm_compute. }
  split; [exact Hnonneg|]. split; [exact Hnodup|].
  exact (estimate_total_time_bounds _ _ Hnonneg Hnodup).
Defined.

(** ** Topics and paths taken from a request *)

(** A word as [str.split()] yields it: not empty and free of whitespace. *)
Fixpoint no_space (s : string) : bool :=
  match s with
  | EmptyString => true
  | String c s' => negb (is_space c) && no_space s'
  end.

Definition is_word (w : string) : Prop := w <> "" /\ no_space w = true.

(** A string without a quote character. *)
Fixpoint no_quote (s : string) : bool :=
  match s with
  | EmptyString => true
  | String c s' => negb (is_quote c) && no_quote s'
  end.

Lemma append_cons (c : ascii) (a b : string) : String c a +:+ b = String c (a +:+ b).
Proof. done. Qed.

Lemma append_nil_l (b : string) : "" +:+ b = b.
Proof. done. Qed.

Lemma append_nil_r (a : string) : a +:+ "" = a.
Proof. induction a as [|c a IH]; [done|]. by rewrite append_cons, IH. Qed.

Lemma rev_app_rev_app (a b c : string) :
  String.rev_app (String.rev_app a b) c = String.rev_app b (a +:+ c).
Proof.
  revert b. induction a as [|x a IH]; intros b; [done|].
  cbn [String.rev_app]. by rewrite IH.
Qed.

Lemma rev_rev_app (a b : string) : String.rev (String.rev_app a b) = String.rev_app b a.
Proof. unfold String.rev. by rewrite rev_app_rev_app, append_nil_r. Qed.

Lemma rev_app_no_space (a b : string) :
  no_space (String.rev_app a b) = no_space a && no_space b.
Proof.
  revert b. induction a as [|x a IH]; intros b; [done|].
  cbn [String.rev_app no_space]. rewrite IH. cbn [no_space].
  by destruct (is_space x), (no_space a), (no_space b).
Qed.

Lemma rev_app_nonempty (a b : string) : b <> "" -> String.rev_app a b <> "".
Proof.
  revert b. induction a as [|x a IH]; intros b Hb; [done|].
  cbn [String.rev_app]. by apply IH.
Qed.

Lemma rev_is_word (acc : string) : is_word acc -> is_word (String.rev acc).
Proof.
  intros [Hne Hns]. unfold String.rev. split.
  - destruct acc as [|c acc]; [done|]. cbn [String.rev_app]. by apply rev_app_nonempty.
  - by rewrite rev_app_no_space, Hns.
Qed.

(** *** [str.split()] and [str.join] *)

Lemma split_go_words (s : string) (cur : option string) :
  match cur with Some acc => is_word acc | None => True end ->
  Forall is_word (split_go cur s).
Proof.
  revert cur. induction s as [|c s IH]; intros cur Hcur.
  - destruct cur as [acc|]; cbn; [|constructor].
    constructor; [by apply rev_is_word|constructor].
  - cbn [split_go]. destruct (is_space c) eqn:Hc.
    + apply Forall_app. split; [|by apply IH].
      destruct cur as [acc|]; cbn; [|constructor].
      constructor; [by apply rev_is_word|constructor].
    + apply IH. split; [done|]. cbn [no_space]. rewrite Hc.
      destruct cur as [acc|]; cbn; [|done]. by destruct Hcur.
Qed.

Lemma py_split_words (s : string) : Forall is_word (py_split s).
Proof. by apply split_go_words. Qed.

Lemma split_go_run (w : string) :
  no_space w = true ->
  forall acc s, split_go (Some acc) (w +:+ s) = split_go (Some (String.rev_app w acc)) s.
Proof.
  induction w as [|c w IH]; intros Hw acc s; [done|].
  cbn [no_space] in Hw. apply andb_prop in Hw as [Hc Hw].
  rewrite append_cons. cbn [split_go String.rev_app].
  rewrite (proj1 (negb_true_iff _) Hc). cbn [default from_option id].
  by apply IH.
Qed.

Lemma split_go_word (w s : string) :
  is_word w -> split_go None (w +:+ s) = split_go (Some (String.rev w)) s.
Proof.
  intros [Hne Hw]. destruct w as [|c w]; [done|].
  cbn [no_space] in Hw. apply andb_prop in Hw as [Hc Hw].
  rewrite append_cons. cbn [split_go].
  rewrite (proj1 (negb_true_iff _) Hc). cbn [default from_option id].
  rewrite split_go_run by done. reflexivity.
Qed.

Lemma rev_rev (w : string) : String.rev (String.rev w) = w.
Proof. unfold String.rev at 2. by rewrite rev_rev_app. Qed.

(** The round trip of [join] and [split]: words joined by a blank split into
    the same words. *)
Lemma py_split_join (ws : list string) :
  Forall is_word ws -> py_split (py_join " " ws) = ws.
Proof.
  unfold py_split. induction 1 as [|w ws Hw Hws IH]; [done|].
  destruct ws as [|w' ws].
  - cbn [py_join]. rewrite <- (append_nil_r w), split_go_word by done.
    rewrite append_nil_r. cbn. by rewrite rev_rev.
  - change (py_join " " (w :: w' :: ws)) with (w +:+ " " +:+ py_join " " (w' :: ws)).
    rewrite split_go_word by done.
    change (" " +:+ ?s) with (String " " s). cbn [split_go].
    change (is_space " ") with true. cbn iota. rewrite IH. cbn. by rewrite rev_rev.
Qed.

Lemma py_join_nonempty (ws : list string) :
  ws <> [] -> Forall is_word ws -> py_join " " ws <> "".
Proof.
  intros Hne Hws Hjoin. apply (f_equal py_split) in Hjoin.
  rewrite py_split_join in Hjoin by done. by subst ws.
Qed.

(** *** [str.lower()] *)

Lemma is_space_lower_ascii (c : ascii) : is_space (lower_ascii c) = is_space c.
Proof. by destruct c as [[] [] [] [] [] [] [] []]. Qed.

Lemma lower_ascii_idemp (c : ascii) : lower_ascii (lower_ascii c) = lower_ascii c.
Proof. by destruct c as [[] [] [] [] [] [] [] []]. Qed.

Lemma lower_idemp (s : string) : lower (lower s) = lower s.
Proof.
  induction s as [|c s IH]; [done|]. cbn [lower]. by rewrite lower_ascii_idemp, IH.
Qed.

Lemma lower_append (a b : string) : lower (a +:+ b) = lower a +:+ lower b.
Proof.
  induction a as [|c a IH]; [done|]. rewrite append_cons. cbn [lower].
  by rewrite append_cons, IH.
Qed.

Lemma lower_rev_app (a b : string) :
  lower (String.rev_app a b) = String.rev_app (lower a) (lower b).
Proof.
  revert b. induction a as [|x a IH]; intros b; [done|].
  cbn [String.rev_app lower]. by rewrite IH.
Qed.

Lemma split_go_lower (s : string) (cur : option string) :
  split_go (lower <$> cur) (lower s) = lower <$> split_go cur s.
Proof.
  revert cur. induction s as [|c s IH]; intros cur.
  - destruct cur as [acc|]; cbn; [|done]. unfold String.rev. by rewrite lower_rev_app.
  - cbn [lower split_go]. rewrite is_space_lower_ascii. destruct (is_space c).
    + rewrite fmap_app. rewrite <- (IH None). f_equal.
      destruct cur as [acc|]; cbn; [|done]. unfold String.rev. by rewrite lower_rev_app.
    + rewrite <- IH. by destruct cur.
Qed.

Lemma py_split_lower (s : string) :
  Forall (fun w => lower w = w) (py_split (lower s)).
Proof.
  unfold py_split. change (split_go None (lower s)) with (split_go (lower <$> None) (lower s)).
  rewrite split_go_lower.
  apply Forall_fmap, Forall_forall. intros w _. apply lower_idemp.
Qed.

Lemma lower_py_join (ws : list string) :
  Forall (fun w => lower w = w) ws -> lower (py_join " " ws) = py_join " " ws.
Proof.
  induction 1 as [|w ws Hw Hws IH]; [done|].
  destruct ws as [|w' ws]; [done|].
  change (py_join " " (w :: w' :: ws)) with (w +:+ " " +:+ py_join " " (w' :: ws)).
  by rewrite !lower_append, Hw, IH.
Qed.

(** *** The last items of a list *)

Lemma last_n_length {A : Type} (n : nat) (l : list A) :
  length (last_n n l) = Nat.min n (length l).
Proof. unfold last_n. rewrite length_drop. lia. Qed.

Lemma last_n_short {A : Type} (n : nat) (l : list A) :
  (length l <= n)%nat -> last_n n l = l.
Proof. intros Hlen. unfold last_n. by replace (length l - n)%nat with 0%nat by lia. Qed.

Lemma last_n_Forall {A : Type} (P : A -> Prop) (n : nat) (l : list A) :
  Forall P l -> Forall P (last_n n l).
Proof. apply Forall_drop. Qed.

Lemma filter_all {A : Type} (P : A -> Prop) `{!forall x, Decision (P x)} (l : list A) :
  Forall P l -> filter P l = l.
Proof.
  induction 1 as [|x l Hx _ IH]; [done|]. by rewrite filter_cons_True, IH.
Qed.

(** The topic of a request is made of words: splitting it gives back the last
    three meaningful words of the request in lower case (fewer when there are
    fewer), words longer than two characters that are no stop words, or the
    two words [general topic] when the request has none. It is never empty,
    has one to three words, is in lower case whatever the case of the request,
    and is the topic of itself: [_extract_topic] applied to a topic returns
    it. *)
Theorem extract_topic_words (task : string) :
  let meaningful :=
    filter (fun w => (w ∉ stop_words) ∧ (2 < String.length w)%nat)
      (py_split (lower task)) in
  let topic := _extract_topic task in
  py_split topic
  = (if bool_decide (meaningful = []) then ["general"; "topic"] else last_n 3 meaningful)
  /\ (1 <= length (py_split topic) <= 3)%nat
  /\ (length (py_split topic) <= Nat.max 2 (length (py_split task)))%nat
  /\ topic <> ""
  /\ lower topic = topic
  /\ _extract_topic (lower task) = topic
  /\ _extract_topic topic = topic.
Proof.
  cbv zeta.
  set (meaningful := filter _ (py_split (lower task))).
  assert (_extract_topic task
          = if bool_decide (meaningful = []) then "general topic"
            else py_join " " (last_n 3 meaningful)) as Htopic by done.
  assert (_extract_topic (lower task) = _extract_topic task) as Hcase.
  { unfold _extract_topic. cbv zeta. by rewrite lower_idemp. }
  rewrite Hcase, Htopic. clear Hcase Htopic.
  assert (Forall is_word meaningful) as Hwords.
  { apply Forall_forall. intros w [_ Hw]%list_elem_of_filter.
    by apply (proj1 (Forall_forall _ _) (py_split_words (lower task))). }
  assert (Forall (fun w => lower w = w) meaningful) as Hlower.
  { apply Forall_forall. intros w [_ Hw]%list_elem_of_filter.
    by apply (proj1 (Forall_forall _ _) (py_split_lower task)). }
  assert (Forall (fun w => (w ∉ stop_words) ∧ (2 < String.length w)%nat) meaningful)
    as Hmeaningful.
  { apply Forall_forall. by intros w [Hw _]%list_elem_of_filter. }
  assert (length meaningful <= length (py_split task))%nat as Hcount.
  { unfold meaningful. etrans; [apply length_filter|].
    unfold py_split.
    change (split_go None (lower task)) with (split_go (lower <$> None) (lower task)).
    by rewrite split_go_lower, length_fmap. }
  case_bool_decide as Hempty.
  - change (py_split "general topic") with ["general"; "topic"].
    split_and!; try done; cbn [length]; lia.
  - pose proof (last_n_length 3 meaningful) as Hlen.
    assert (last_n 3 meaningful <> []) as Hne.
    { intros Hnil. rewrite Hnil in Hlen. destruct meaningful; [done|]. simpl in Hlen. lia. }
    rewrite py_split_join by by apply last_n_Forall.
    split_and!; try done.
    + destruct meaningful; [done|]. simpl in Hlen. lia.
    + lia.
    + lia.
    + by apply py_join_nonempty; [|apply last_n_Forall].
    + by apply lower_py_join, last_n_Forall.
    + unfold _extract_topic. cbv zeta.
      rewrite lower_py_join by by apply last_n_Forall.
      rewrite py_split_join by by apply last_n_Forall.
      rewrite filter_all by by apply last_n_Forall.
      rewrite bool_decide_eq_false_2 by done.
      by rewrite last_n_short by lia.
Qed.

(** *** The pattern of a quoted path *)

Lemma span_unquoted_spec (s : string) :
  s = (span_unquoted s).1 +:+ (span_unquoted s).2
  /\ no_quote (span_unquoted s).1 = true
  /\ match (span_unquoted s).2 with
     | EmptyString => True
     | String q _ => is_quote q = true
     end.
Proof.
  induction s as [|c s (IH1 & IH2 & IH3)]; [done|].
  cbn [span_unquoted]. destruct (is_quote c) eqn:Hc; [done|].
  destruct (span_unquoted s) as [run rest]. cbn [fst snd] in *.
  rewrite append_cons. cbn [no_quote]. rewrite Hc. split_and!; [by f_equal|done|done].
Qed.

Lemma span_unquoted_run (p : string) (q : ascii) (post : string) :
  no_quote p = true -> is_quote q = true ->
  span_unquoted (p +:+ String q post) = (p, String q post).
Proof.
  intros Hp Hq. induction p as [|c p IH]; cbn [no_quote] in Hp.
  - rewrite append_nil_l. cbn [span_unquoted]. by rewrite Hq.
  - apply andb_prop in Hp as [Hc Hp]. rewrite append_cons. cbn [span_unquoted].
    rewrite (proj1 (negb_true_iff _) Hc). by rewrite IH.
Qed.

(** What the pattern looks for: a quote character, a run of one or more
    characters that are no quotes, and a quote character. *)
Definition quoted_at (s pre p : string) : Prop :=
  exists q1 q2 post,
    s = pre +:+ String q1 (p +:+ String q2 post)
    /\ is_quote q1 = true /\ is_quote q2 = true /\ p <> "" /\ no_quote p = true.

Lemma search_quoted_sound (s p : string) :
  search_quoted s = Some p -> exists pre, quoted_at s pre p.
Proof.
  induction s as [|c s IH]; [done|]. cbn [search_quoted].
  assert (search_quoted s = Some p -> exists pre, quoted_at (String c s) pre p) as Hlater.
  { intros (pre & q1 & q2 & post & -> & H)%IH. exists (String c pre), q1, q2, post.
    by rewrite append_cons. }
  destruct (is_quote c) eqn:Hc; [|done].
  destruct (span_unquoted_spec s) as (Hs & Hrun & Hrest).
  destruct (span_unquoted s) as [[|a run] [|q post]]; cbn [fst snd] in *; try done.
  intros [= <-]. exists "", c, q, post. by rewrite append_nil_l, Hs.
Qed.

Lemma search_quoted_complete (s pre p : string) :
  quoted_at s pre p -> search_quoted s <> None.
Proof.
  intros (q1 & q2 & post & -> & Hq1 & Hq2 & Hne & Hp).
  induction pre as [|c pre IH].
  - rewrite append_nil_l. cbn [search_quoted]. rewrite Hq1.
    rewrite span_unquoted_run by done. by destruct p.
  - rewrite append_cons. cbn [search_quoted].
    destruct (is_quote c); [|done].
    by destruct (span_unquoted _) as [[|a run] [|q post']].
Qed.

(** [_extract_path] returns [./] for a request that names [learnqwest] in
    any case. Otherwise it returns a path exactly when the request holds a
    run of one or more characters that are no quotes between two quote
    characters, which need not be of the same kind; the path is such a run,
    so it is not empty and holds no quote. The path that the builders use
    (the one of the context, then the one of the request, then [./]) is never
    [None] and never empty. *)
Theorem extract_path_quoted (task : string) :
  match _extract_path task with
  | VStr p =>
      p <> ""
      /\ ((contains "learnqwest" (lower task) = true /\ p = "./")
          \/ (contains "learnqwest" (lower task) = false
              /\ no_quote p = true /\ exists pre, quoted_at task pre p))
  | VNone =>
      contains "learnqwest" (lower task) = false
      /\ (forall pre p, ~ quoted_at task pre p)
  | _ => False
  end
  /\ (forall context,
        let path := path_of task context in
        truthy path = true
        /\ (truthy (dict_get "path" context) = true -> path = dict_get "path" context)
        /\ (truthy (dict_get "path" context) = false ->
              path = match _extract_path task with VNone => VStr "./" | v => v end)).
Proof.
  assert (match _extract_path task with
          | VStr p =>
              p <> ""
              /\ ((contains "learnqwest" (lower task) = true /\ p = "./")
                  \/ (contains "learnqwest" (lower task) = false
                      /\ no_quote p = true /\ exists pre, quoted_at task pre p))
          | VNone =>
              contains "learnqwest" (lower task) = false
              /\ (forall pre p, ~ quoted_at task pre p)
          | _ => False
          end) as Hpath.
  { unfold _extract_path. destruct (contains "learnqwest" (lower task)); [by split; [|left]|].
    destruct (search_quoted task) as [p|] eqn:Hsearch.
    - destruct (search_quoted_sound _ _ Hsearch) as (pre & Hq).
      pose proof Hq as (q1 & q2 & post & _ & _ & _ & Hne & Hp).
      split; [done|]. right. split_and!; [done|done|by exists pre].
    - split; [done|]. intros pre p Hq. by apply (search_quoted_complete _ _ _ Hq). }
  split; [exact Hpath|].
  intros context. cbv zeta. unfold path_of, py_or.
  destruct (truthy (dict_get "path" context)) eqn:Hctx.
  - rewrite Hctx. by split_and!.
  - destruct (_extract_path task) as [|b|z|p|l]; try done.
    destruct Hpath as [Hne _]. cbn [truthy].
    rewrite bool_decide_eq_false_2 by done. cbn. rewrite bool_decide_eq_false_2 by done.
    by split_and!.
Qed.
